(** * Coastal alert tracking system: the data-source stub, the threat
    heuristic, the chatbot's answers, the charts, the alert panel and the
    sessions.

  The dashboard is TypeScript.  Its numbers are IEEE-754 binary64 values;
  they are modelled by Rocq's primitive floats.  The functions are written
  once, over an interface [Number] of the arithmetic they use, and run on
  the instance [float_number].  Time values are doubles too, and whole
  numbers: a [Date] is the integer its time value is. *)

From Stdlib Require Import ZArith QArith List String Ascii Bool Lia DecimalString Sorted.
From Stdlib Require Import Permutation.
From Stdlib Require Import Floats.
From Stdlib Require Uint63.
Import ListNotations.

Set Implicit Arguments.
Set Warnings "-inexact-float".

(** ** Numbers *)

Declare Scope num_scope.
Delimit Scope num_scope with num.

(** The arithmetic the modelled code uses on values of type [number]. *)
Class Number (num : Type) : Type := {
  num_lit : Q -> num;              (* a numeric literal of the source *)
  num_of_nat : nat -> num;         (* an array length read as a number *)
  num_add : num -> num -> num;
  num_sub : num -> num -> num;
  num_mul : num -> num -> num;
  num_div : num -> num -> num;
  num_sqrt : num -> num;           (* Math.sqrt *)
  num_abs : num -> num;            (* Math.abs *)
  num_ltb : num -> num -> bool;    (* x < y *)
  num_leb : num -> num -> bool;    (* x <= y *)
  num_min : num -> num -> num;     (* Math.min on two arguments *)
  num_max : num -> num -> num      (* Math.max on two arguments *)
}.

Notation "x + y" := (num_add x y) : num_scope.
Notation "x - y" := (num_sub x y) : num_scope.
Notation "x * y" := (num_mul x y) : num_scope.
Notation "x / y" := (num_div x y) : num_scope.
Notation "x <? y" := (num_ltb x y) : num_scope.
Notation "x >? y" := (num_ltb y x) : num_scope.
Notation "x <=? y" := (num_leb x y) : num_scope.

(** *** IEEE doubles *)

Module F.

(** An integer as a double: exact below 2^53 in magnitude. *)
Definition of_Z (z : Z) : float :=
  match z with
  | Z0 => PrimFloat.zero
  | Zpos _ => PrimFloat.of_uint63 (Uint63.of_Z z)
  | Zneg p => PrimFloat.opp (PrimFloat.of_uint63 (Uint63.of_Z (Zpos p)))
  end.

(** A literal p/q: the double nearest to it (division rounds correctly). *)
Definition lit (q : Q) : float :=
  PrimFloat.div (of_Z (Qnum q)) (of_Z (Zpos (Qden q))).

(** Math.max(x, y): NaN when either is NaN, and +0 above -0. *)
Definition max (x y : float) : float :=
  if PrimFloat.is_nan x || PrimFloat.is_nan y then PrimFloat.nan
  else if PrimFloat.ltb x y then y
  else if PrimFloat.ltb y x then x
  else if PrimFloat.get_sign x then y else x.

(** Math.min(x, y): NaN when either is NaN, and -0 below +0. *)
Definition min (x y : float) : float :=
  if PrimFloat.is_nan x || PrimFloat.is_nan y then PrimFloat.nan
  else if PrimFloat.ltb x y then x
  else if PrimFloat.ltb y x then y
  else if PrimFloat.get_sign x then x else y.

(** Math.ceil(x) of a double that is a number: the least whole number not
    below it.  [None] stands for NaN and the infinities, which Math.ceil
    gives back as they are. *)
Definition ceil (x : float) : option Z :=
  match Prim2SF x with
  | S754_zero _ => Some 0%Z
  | S754_finite s m e =>
      let n := if s then Zneg m else Zpos m in
      Some (if (0 <=? e)%Z then n * 2 ^ e else - ((- n) / 2 ^ (- e)))%Z
  | S754_infinity _ | S754_nan => None
  end.

(** *** The order of the doubles

    A key that orders the doubles that are not NaN: the class and sign, then
    the exponent, then the mantissa, the last two reversed below zero. *)
Definition key (f : spec_float) : Z * Z * Z :=
  match f with
  | S754_zero _ => (0, 0, 0)
  | S754_nan => (0, 0, 0)
  | S754_infinity true => (-2, 0, 0)
  | S754_infinity false => (2, 0, 0)
  | S754_finite true m e => (-1, - e, Z.neg m)
  | S754_finite false m e => (1, e, Z.pos m)
  end%Z.

Definition lex_lt (k k' : Z * Z * Z) : Prop :=
  let '(a, b, c) := k in
  let '(a', b', c') := k' in
  (a < a' \/ (a = a' /\ (b < b' \/ (b = b' /\ c < c'))))%Z.

Definition lex_le (k k' : Z * Z * Z) : Prop :=
  let '(a, b, c) := k in
  let '(a', b', c') := k' in
  (a < a' \/ (a = a' /\ (b < b' \/ (b = b' /\ c <= c'))))%Z.

Definition is_nan_spec (f : spec_float) : bool :=
  match f with S754_nan => true | _ => false end.

Definition fkey (x : float) : Z * Z * Z := key (Prim2SF x).

(** *** Whole numbers held by doubles

    [whole f z]: the double [f] is the whole number [z], below 2^53 in
    magnitude, in the one form a double has: a mantissa of 53 bits. *)
Definition whole (f : spec_float) (z : Z) : Prop :=
  match f with
  | S754_zero _ => z = 0%Z
  | S754_finite s m e =>
      digits2_pos m = 53%positive /\ (-52 <= e <= 0)%Z /\
      (if s then Zneg m else Zpos m) = (z * 2 ^ (- e))%Z
  | _ => False
  end.

(** A double that is not above zero, or NaN. *)
Definition nonpositive (f : spec_float) : Prop :=
  match f with
  | S754_zero _ | S754_nan => True
  | S754_finite s _ _ | S754_infinity s => s = true
  end.

(** A double that is zero or finite, with an exponent of at most [bound]. *)
Definition number (bound : Z) (f : spec_float) : Prop :=
  match f with
  | S754_zero _ => True
  | S754_finite _ _ e => (e <= bound)%Z
  | _ => False
  end.


End F.

#[export] Instance float_number : Number float := {
  num_lit := F.lit;
  num_of_nat := fun n => F.of_Z (Z.of_nat n);
  num_add := PrimFloat.add;
  num_sub := PrimFloat.sub;
  num_mul := PrimFloat.mul;
  num_div := PrimFloat.div;
  num_sqrt := PrimFloat.sqrt;
  num_abs := PrimFloat.abs;
  num_ltb := PrimFloat.ltb;
  num_leb := PrimFloat.leb;
  num_min := F.min;
  num_max := F.max
}.

(** *** Functions of the JavaScript runtime taken as given

  How a number prints ([`${x}`], [toFixed], [toString(36)]), [Math.sin] and
  the number of arguments the engine takes in one call are not modelled: the
  code is read over any choice of them. *)
Class Builtins (num : Type) : Type := {
  Number_toString : num -> string;       (* `${x}` *)
  Number_toFixed : nat -> num -> string; (* x.toFixed(d) *)
  Number_toString36 : num -> string;     (* x.toString(36) *)
  Math_sin : num -> num;
  Math_max_of_nothing : num;             (* Math.max() of no argument: -Infinity *)
  Math_min_of_nothing : num;             (* Math.min() of no argument: Infinity *)
  arguments_limit : N                    (* the most arguments one call takes *)
}.

(** ** Strings *)

Module Str.
Open Scope string_scope.

Definition lower_ascii (c : ascii) : ascii :=
  let n := nat_of_ascii c in
  if (65 <=? n)%nat && (n <=? 90)%nat then ascii_of_nat (n + 32) else c.

(** [s.toLowerCase()], on the ASCII letters. *)
Fixpoint toLowerCase (s : string) : string :=
  match s with
  | EmptyString => EmptyString
  | String c s' => String (lower_ascii c) (toLowerCase s')
  end.

Fixpoint prefix (p s : string) : bool :=
  match p, s with
  | EmptyString, _ => true
  | String a p', String b s' => Ascii.eqb a b && prefix p' s'
  | String _ _, EmptyString => false
  end.

(** [s.includes(sub)] *)
Fixpoint includes (s sub : string) : bool :=
  prefix sub s ||
  match s with
  | EmptyString => false
  | String _ s' => includes s' sub
  end.

(** The white space of [\s] among the ASCII characters. *)
Definition is_space (c : ascii) : bool :=
  let n := nat_of_ascii c in
  ((9 <=? n)%nat && (n <=? 13)%nat) || (n =? 32)%nat.

(** [s.replace(/\s+/g, '_')]: [in_run] tells that the character before
    was white space, already replaced. *)
Fixpoint replace_spaces_from (in_run : bool) (s : string) : string :=
  match s with
  | EmptyString => EmptyString
  | String c s' =>
      if is_space c
      then if in_run then replace_spaces_from true s'
           else String "_" (replace_spaces_from true s')
      else String c (replace_spaces_from false s')
  end.

Definition replace_spaces : string -> string := replace_spaces_from false.

(** [s.replace(' ', '_')]: the first blank only. *)
Fixpoint replace_first_blank (s : string) : string :=
  match s with
  | EmptyString => EmptyString
  | String c s' =>
      if Ascii.eqb c " " then String "_" s' else String c (replace_first_blank s')
  end.

(** An integer in decimal, as a template literal prints it. *)
Definition of_Z (z : Z) : string := DecimalString.NilZero.string_of_int (Z.to_int z).

Fixpoint join (sep : string) (l : list string) : string :=
  match l with
  | [] => ""
  | [s] => s
  | s :: l' => s ++ sep ++ join sep l'
  end.

(** The key [s] as an array index: a canonical decimal numeral of an
    integer below 2^32 - 1.  Such keys of an object are listed first, in
    numeric order. *)
Definition array_index (s : string) : option N :=
  match s with
  | EmptyString => None
  | String c rest =>
      if Ascii.eqb c "0" && negb (String.eqb rest "") then None
      else match DecimalString.NilEmpty.uint_of_string s with
           | Some d => let n := N.of_uint d in
                       if (n <? 4294967295)%N then Some n else None
           | None => None
           end
  end.

End Str.

(** ** Data model (lib/api) *)

Inductive SensorType := tide_gauge | weather_station | water_quality | seismic.
Inductive Status := normal | warning | critical_status.
Inductive Severity := low | medium | high | critical.

Definition SensorType_eqb (a b : SensorType) : bool :=
match a, b with
| tide_gauge, tide_gauge | weather_station, weather_station
| water_quality, water_quality | seismic, seismic => true
| _, _ => false
end.

Definition Status_eqb (a b : Status) : bool :=
match a, b with
| normal, normal | warning, warning | critical_status, critical_status => true
| _, _ => false
end.

(** A severity is the string of its name at run time. *)
Definition Severity_string (s : Severity) : string :=
match s with
| low => "low" | medium => "medium" | high => "high" | critical => "critical"
end.

(** A [Date] is its time value: milliseconds since the epoch. *)
Definition Date := Z.

Record User := {
  user_id : string;
  user_name : string;
  user_email : string;
  user_role : string;
  user_organization : string;
  user_permissions : list string
}.

(** What a call leaves: a value, or an exception. *)
Inductive Outcome (A : Type) : Type :=
| Returned (a : A)
| Thrown (error : string).
Arguments Returned {A} a.
Arguments Thrown {A} error.

(** [l.forEach(f)] where [f] may throw: what the calls hand on, in order,
    as far as none throws. *)
Fixpoint collect {A C} (f : A -> Outcome (list C)) (l : list A) : Outcome (list C) :=
  match l with
  | [] => Returned []
  | a :: l' =>
      match f a with
      | Returned found =>
          match collect f l' with
          | Returned rest => Returned (found ++ rest)%list
          | Thrown e => Thrown e
          end
      | Thrown e => Thrown e
      end
  end.

(** *** The clock and the random source

    [clock k] is what the k-th reading of the system clock ([Date.now()],
    [new Date()]) gives and [random k] what the k-th [Math.random()] gives,
    counted from the start of the run. *)
Class Ambient (num : Type) : Type := {
  clock : nat -> Z;
  random : nat -> num
}.

(** A computation threads the two counts. *)
Record World := { clock_reads : nat; random_draws : nat }.

Definition M (A : Type) : Type := World -> A * World.

Definition ret {A} (a : A) : M A := fun w => (a, w).

Definition bind {A C} (m : M A) (k : A -> M C) : M C :=
  fun w => let (a, w') := m w in k a w'.

Notation "x <- m ;; k" := (bind m (fun x => k))
  (at level 61, m at next level, right associativity).

(** [l.forEach(f)] where [f] tells what it hands on: the results in order. *)
Fixpoint forEach {A C} (f : A -> M (list C)) (l : list A) : M (list C) :=
  match l with
  | [] => ret []
  | a :: l' => r <- f a ;; rs <- forEach f l' ;; ret (r ++ rs)%list
  end.

Section Program.
Variable num : Type.
Context {Num : Number num} {Lib : Builtins num} {Env : Ambient num}.
Open Scope string_scope.
Open Scope num_scope.

Definition Date_now : M Z :=
  fun w => (clock (clock_reads w),
            {| clock_reads := S (clock_reads w); random_draws := random_draws w |}).

Definition Math_random : M num :=
  fun w => (random (random_draws w),
            {| clock_reads := clock_reads w; random_draws := S (random_draws w) |}).

Record Location := {
  lat : num;
  lng : num;
  name : string
}.

Record SensorData := {
  sd_id : string;
  sd_type : SensorType;
  sd_location : Location;
  sd_value : num;
  sd_unit : string;
  sd_timestamp : Date;
  sd_status : Status
}.

(** [ta_type] is a string: the threat heuristic stores names outside the
    declared union (cast [as any]). *)
Record ThreatAlert := {
  ta_id : string;
  ta_type : string;
  ta_severity : Severity;
  ta_location : Location;
  ta_description : string;
  ta_timestamp : Date;
  ta_estimatedImpact : Date;
  ta_affectedAreas : list string
}.

Record MLPrediction := {
  threatType : string;
  probability : num;
  confidence : num;
  location : string;
  features : list string
}.

(** ** The threat heuristic (MLThreatDetection) *)

(** *** Grouping by location name

    The accumulator is a plain object used as a map.  Its own properties are
    kept in creation order; a key it does not own is still found when
    [Object.prototype] has it, and what is found there is no array. *)
Definition Object_prototype_keys : list string :=
  [ "constructor"; "__defineGetter__"; "__defineSetter__"; "hasOwnProperty";
    "__lookupGetter__"; "__lookupSetter__"; "isPrototypeOf";
    "propertyIsEnumerable"; "toString"; "valueOf"; "__proto__";
    "toLocaleString" ].

Definition inherited (key : string) : bool :=
  existsb (String.eqb key) Object_prototype_keys.

Definition Groups : Type := list (string * list SensorData).

Fixpoint own (acc : Groups) (key : string) : option (list SensorData) :=
  match acc with
  | [] => None
  | (k, sensors) :: acc' => if String.eqb k key then Some sensors else own acc' key
  end.

(** [acc[key].push(sensor)] on an own property. *)
Fixpoint push (acc : Groups) (key : string) (sensor : SensorData) : Groups :=
  match acc with
  | [] => []
  | (k, sensors) :: acc' =>
      if String.eqb k key then (k, (sensors ++ [sensor])%list) :: acc'
      else (k, sensors) :: push acc' key sensor
  end.

(** The reducer: [if (!acc[key]) acc[key] = []; acc[key].push(sensor)]. *)
Definition group_sensor (acc : Groups) (sensor : SensorData) : Outcome Groups :=
  let key := name (sd_location sensor) in
  match own acc key with
  | Some _ => Returned (push acc key sensor)
  | None =>
      if inherited key then Thrown "TypeError: acc[key].push is not a function"
      else Returned (push (acc ++ [(key, [])])%list key sensor)
  end.

Fixpoint reduce_groups (data : list SensorData) (acc : Groups) : Outcome Groups :=
  match data with
  | [] => Returned acc
  | sensor :: data' =>
      match group_sensor acc sensor with
      | Returned acc' => reduce_groups data' acc'
      | Thrown e => Thrown e
      end
  end.

Fixpoint insert_by_index (e : N * (string * list SensorData))
  (l : list (N * (string * list SensorData))) : list (N * (string * list SensorData)) :=
  match l with
  | [] => [e]
  | e' :: l' => if (fst e <? fst e')%N then e :: l else e' :: insert_by_index e l'
  end.

(** [Object.entries(o)]: the array-index keys in numeric order, then the
    other keys in creation order. *)
Definition Object_entries (o : Groups) : Groups :=
  let indexed :=
    flat_map (fun e => match Str.array_index (fst e) with
                       | Some n => [(n, e)]
                       | None => []
                       end) o in
  let named :=
    filter (fun e => match Str.array_index (fst e) with
                     | Some _ => false
                     | None => true
                     end) o in
  (map snd (fold_right insert_by_index [] indexed) ++ named)%list.

(** *** One location *)

Definition of_type (t : SensorType) (sensors : list SensorData) : list SensorData :=
  filter (fun s => SensorType_eqb (sd_type s) t) sensors.

(** [Math.pow(x, 2)] *)
Definition Math_pow2 (x : num) : num := x * x.

(** [Math.max(v, ...vs)] and [Math.min(v, ...vs)], once called. *)
Definition Math_max_of (v : num) (vs : list num) : num := fold_left num_max vs v.
Definition Math_min_of (v : num) (vs : list num) : num := fold_left num_min vs v.

(** [Math.max(...values)] and [Math.min(...values)]: the values are spread
    into the arguments of one call, which the engine refuses with a
    RangeError when they are more than it takes. *)
Definition RangeError : string := "RangeError: Maximum call stack size exceeded".

Definition Math_max (values : list num) : Outcome num :=
  if (N.of_nat (List.length values) <=? arguments_limit)%N then
    Returned match values with
             | [] => Math_max_of_nothing
             | v :: vs => Math_max_of v vs
             end
  else Thrown RangeError.

Definition Math_min (values : list num) : Outcome num :=
  if (N.of_nat (List.length values) <=? arguments_limit)%N then
    Returned match values with
             | [] => Math_min_of_nothing
             | v :: vs => Math_min_of v vs
             end
  else Thrown RangeError.

Definition avgTide (tideData : list SensorData) : num :=
  fold_left (fun sum s => sum + sd_value s) tideData (num_lit 0)
  / num_of_nat (List.length tideData).

Definition tideStdDev (tideData : list SensorData) : num :=
  num_sqrt
    (fold_left (fun sum s => sum + Math_pow2 (sd_value s - avgTide tideData))
               tideData (num_lit 0)
     / num_of_nat (List.length tideData)).

Definition zScore (tideData : list SensorData) (sensor : SensorData) : num :=
  num_abs ((sd_value sensor - avgTide tideData) / tideStdDev tideData).

Definition tideAnomaly (location : string) (tideData : list SensorData)
  (sensor : SensorData) : list MLPrediction :=
  let zScore := zScore tideData sensor in
  if zScore >? num_lit 2 then
    [ {| threatType := if sd_value sensor >? avgTide tideData
                       then "Storm Surge Risk" else "Unusual Low Tide";
         probability := num_min (zScore * num_lit 0.3) (num_lit 0.95);
         confidence := num_min (zScore * num_lit 0.25) (num_lit 0.9);
         location := location;
         features := [ "Tide level: " ++ Number_toString (sd_value sensor) ++ "m";
                       "Z-score: " ++ Number_toFixed 2 zScore ] |} ]
  else [].

Definition tideAnomalies (location : string) (sensors : list SensorData)
  : list MLPrediction :=
  let tideData := of_type tide_gauge sensors in
  if (0 <? List.length tideData)%nat
  then flat_map (tideAnomaly location tideData) tideData
  else [].

Definition windAnomalies (location : string) (sensors : list SensorData)
  : Outcome (list MLPrediction) :=
  let windData := of_type weather_station sensors in
  if (0 <? List.length windData)%nat then
    match Math_max (map sd_value windData) with
    | Returned maxWind =>
        Returned
          (if maxWind >? num_lit 60 then
             [ {| threatType := "Cyclonic Activity";
                  probability := num_min ((maxWind - num_lit 60) / num_lit 40) (num_lit 0.95);
                  confidence := num_min ((maxWind - num_lit 50) / num_lit 50) (num_lit 0.9);
                  location := location;
                  features := [ "Wind speed: " ++ Number_toString maxWind ++ " km/h";
                                "Sustained high winds detected" ] |} ]
           else [])
    | Thrown e => Thrown e
    end
  else Returned [].

Definition qualityAnomalies (location : string) (sensors : list SensorData)
  : Outcome (list MLPrediction) :=
  let qualityData := of_type water_quality sensors in
  if (0 <? List.length qualityData)%nat then
    match Math_min (map sd_value qualityData) with
    | Returned minQuality =>
        Returned
          (if minQuality <? num_lit 40 then
             [ {| threatType := "Water Pollution";
                  probability := num_min ((num_lit 40 - minQuality) / num_lit 40) (num_lit 0.95);
                  confidence := num_min ((num_lit 50 - minQuality) / num_lit 50) (num_lit 0.85);
                  location := location;
                  features := [ "Water quality: " ++ Number_toString minQuality ++ " ppm";
                                "Below safety threshold" ] |} ]
           else [])
    | Thrown e => Thrown e
    end
  else Returned [].

(** The body of the loop over [Object.entries(locationGroups)]: what it
    pushes to [anomalies], unless it throws. *)
Definition locationAnomalies (entry : string * list SensorData)
  : Outcome (list MLPrediction) :=
  let (location, sensors) := entry in
  let tide := tideAnomalies location sensors in
  match windAnomalies location sensors with
  | Returned wind =>
      match qualityAnomalies location sensors with
      | Returned quality => Returned (tide ++ wind ++ quality)%list
      | Thrown e => Thrown e
      end
  | Thrown e => Thrown e
  end.

Definition detectAnomalies (data : list SensorData) : Outcome (list MLPrediction) :=
  match reduce_groups data [] with
  | Returned locationGroups => collect locationAnomalies (Object_entries locationGroups)
  | Thrown e => Thrown e
  end.

(** *** Alerts for the likely threats (the effect that runs on new data)

    What a run of a component's code leaves behind: the calls it made to its
    callbacks and state setters, in order. *)
Record Calls := {
  setPredictions : list (list MLPrediction);
  onThreatDetected : list ThreatAlert;
  console_error : list string
}.

(** The [ThreatAlert] literal built for a prediction; its fields are
    evaluated in the order written. *)
Definition threatOf (prediction : MLPrediction) (location : Location) : M ThreatAlert :=
  now <- Date_now ;;
  r <- Math_random ;;
  timestamp <- Date_now ;;
  now' <- Date_now ;;
  ret {| ta_id := "ml_" ++ Str.of_Z now ++ "_" ++ substring 2 9 (Number_toString36 r);
         ta_type := Str.replace_spaces (Str.toLowerCase (threatType prediction));
         ta_severity := if probability prediction >? num_lit 0.9 then critical
                        else if probability prediction >? num_lit 0.8 then high
                        else medium;
         ta_location := location;
         ta_description :=
           "ML detected " ++ threatType prediction ++ " with "
           ++ Number_toFixed 1 (probability prediction * num_lit 100)
           ++ "% probability";
         ta_timestamp := timestamp;
         ta_estimatedImpact := (now' + 4 * 60 * 60 * 1000)%Z;
         ta_affectedAreas := [name location] |}.

(** The body of [anomalies.forEach]: the alerts handed to
    [onThreatDetected] for one prediction. *)
Definition alertsFor (sensorData : list SensorData) (prediction : MLPrediction)
  : M (list ThreatAlert) :=
  if probability prediction >? num_lit 0.7 then
    match find (fun s => String.eqb (name (sd_location s)) (location prediction))
               sensorData with
    | Some s => threat <- threatOf prediction (sd_location s) ;; ret [threat]
    | None => ret []
    end
  else ret [].

Definition runPredictions (sensorData : list SensorData) : M Calls :=
  match detectAnomalies sensorData with
  | Returned anomalies =>
      threats <- forEach (alertsFor sensorData) anomalies ;;
      ret {| setPredictions := [anomalies];
             onThreatDetected := threats;
             console_error := [] |}
  | Thrown error =>
      ret {| setPredictions := [];
             onThreatDetected := [];
             console_error := ["ML prediction error: " ++ error] |}
  end.

(** The effect: nothing runs before the model is trained or without data. *)
Definition predictionEffect (model_ready : bool) (sensorData : list SensorData)
  : M Calls :=
  if negb model_ready || (List.length sensorData =? 0)%nat
  then ret {| setPredictions := []; onThreatDetected := []; console_error := [] |}
  else runPredictions sensorData.

(** ** The data-source stub (CoastalAPI) *)

Definition locations : list Location :=
  [ {| lat := num_lit 13.0827; lng := num_lit 80.2707; name := "Chennai Coast" |};
    {| lat := num_lit 19.0760; lng := num_lit 72.8777; name := "Mumbai Coast" |};
    {| lat := num_lit 15.2993; lng := num_lit 74.1240; name := "Goa Coast" |};
    {| lat := num_lit 11.9416; lng := num_lit 79.8083; name := "Puducherry Coast" |};
    {| lat := num_lit 8.5241; lng := num_lit 76.9366; name := "Kerala Coast" |} ].

(** The three readings made for one location. *)
Definition mockReadings (location : Location) : M (list SensorData) :=
  r1 <- Math_random ;; t1 <- Date_now ;; s1 <- Math_random ;;
  r2 <- Math_random ;; t2 <- Date_now ;; s2 <- Math_random ;;
  r3 <- Math_random ;; t3 <- Date_now ;; s3 <- Math_random ;;
  ret [ {| sd_id := "tide_" ++ Str.replace_first_blank (name location);
           sd_type := tide_gauge;
           sd_location := location;
           sd_value := r1 * num_lit 3 + num_lit 1;
           sd_unit := "meters";
           sd_timestamp := t1;
           sd_status := if s1 >? num_lit 0.8 then warning else normal |};
        {| sd_id := "weather_" ++ Str.replace_first_blank (name location);
           sd_type := weather_station;
           sd_location := location;
           sd_value := r2 * num_lit 50 + num_lit 20;
           sd_unit := "km/h";
           sd_timestamp := t2;
           sd_status := if s2 >? num_lit 0.9 then critical_status else normal |};
        {| sd_id := "quality_" ++ Str.replace_first_blank (name location);
           sd_type := water_quality;
           sd_location := location;
           sd_value := r3 * num_lit 100;
           sd_unit := "ppm";
           sd_timestamp := t3;
           sd_status := if s3 >? num_lit 0.85 then warning else normal |} ].

Definition generateMockSensorData : M (list SensorData) :=
  forEach mockReadings locations.

Definition generateMockAlerts : M (list ThreatAlert) :=
  t1 <- Date_now ;; now1 <- Date_now ;;
  t2 <- Date_now ;; now2 <- Date_now ;;
  ret [ {| ta_id := "alert_001";
           ta_type := "storm_surge";
           ta_severity := high;
           ta_location := {| lat := num_lit 13.0827; lng := num_lit 80.2707;
                             name := "Chennai Coast" |};
           ta_description := "Severe storm surge expected due to cyclonic activity";
           ta_timestamp := t1;
           ta_estimatedImpact := (now1 + 6 * 60 * 60 * 1000)%Z;
           ta_affectedAreas := ["Chennai Port"; "Marina Beach"; "Ennore Creek"] |};
        {| ta_id := "alert_002";
           ta_type := "erosion";
           ta_severity := medium;
           ta_location := {| lat := num_lit 15.2993; lng := num_lit 74.1240;
                             name := "Goa Coast" |};
           ta_description := "Accelerated coastal erosion detected";
           ta_timestamp := t2;
           ta_estimatedImpact := (now2 + 24 * 60 * 60 * 1000)%Z;
           ta_affectedAreas := ["Calangute Beach"; "Baga Beach"] |} ].

(** *** The push channel: interval timers

    [setInterval(f, period)] called at time [started] runs [f] at
    [started + period], [started + 2 * period], ...; the timers due at one
    instant run in the order they were set. *)
Inductive Handler := pushReading | pushAlert.

Record Timer := {
  handler : Handler;
  period : Z;
  started : Z
}.

(** [connectWebSocket(onDataUpdate, onAlertUpdate)], called at time [now]
    when the timers [timers] are already set. *)
Definition connectWebSocket (now : Z) (timers : list Timer) : list Timer :=
  (timers ++ [ {| handler := pushReading; period := 5000; started := now |};
               {| handler := pushAlert; period := 10000; started := now |} ])%list.

(** A call of one of the two callbacks. *)
Inductive Delivery :=
| onDataUpdate (data : SensorData)
| onAlertUpdate (alert : ThreatAlert).

Definition run_handler (h : Handler) : M (list Delivery) :=
  match h with
  | pushReading =>
      data <- generateMockSensorData ;;
      match data with
      | mockData :: _ => ret [onDataUpdate mockData]
      | [] => ret []
      end
  | pushAlert =>
      r <- Math_random ;;
      if r >? num_lit 0.95 then
        alerts <- generateMockAlerts ;;
        match alerts with
        | mockAlert :: _ => ret [onAlertUpdate mockAlert]
        | [] => ret []
        end
      else ret []
  end.

Definition due (t : Z) (timer : Timer) : bool :=
  (started timer <? t)%Z && ((t - started timer) mod period timer =? 0)%Z.

(** What the timers deliver at the instant [t].  Timers due at the same
    instant run here in the order of the list; an engine may run them in
    another order, which changes the clock readings and random draws a
    handler gets, not which handlers run. *)
Definition tick (timers : list Timer) (t : Z) : M (list Delivery) :=
  forEach (fun timer => run_handler (handler timer)) (filter (due t) timers).

Definition is_reading (d : Delivery) : bool :=
  match d with onDataUpdate _ => true | onAlertUpdate _ => false end.

(** *** detectThreats *)

Definition threatsOf (data : SensorData) : M (list ThreatAlert) :=
  surge <-
    (if SensorType_eqb (sd_type data) tide_gauge && (sd_value data >? num_lit 2.5) then
       now <- Date_now ;; timestamp <- Date_now ;; now' <- Date_now ;;
       ret [ {| ta_id := "ml_threat_" ++ Str.of_Z now;
                ta_type := "storm_surge";
                ta_severity := if sd_value data >? num_lit 3 then critical else high;
                ta_location := sd_location data;
                ta_description := "Abnormal tide level detected: "
                                  ++ Number_toString (sd_value data) ++ sd_unit data;
                ta_timestamp := timestamp;
                ta_estimatedImpact := (now' + 2 * 60 * 60 * 1000)%Z;
                ta_affectedAreas := [name (sd_location data) ++ " vicinity"] |} ]
     else ret []) ;;
  wind <-
    (if SensorType_eqb (sd_type data) weather_station && (sd_value data >? num_lit 60) then
       now <- Date_now ;; timestamp <- Date_now ;; now' <- Date_now ;;
       ret [ {| ta_id := "ml_threat_" ++ Str.of_Z now ++ "_wind";
                ta_type := "cyclone";
                ta_severity := if sd_value data >? num_lit 80 then critical else high;
                ta_location := sd_location data;
                ta_description := "High wind speeds detected: "
                                  ++ Number_toString (sd_value data) ++ sd_unit data;
                ta_timestamp := timestamp;
                ta_estimatedImpact := (now' + 4 * 60 * 60 * 1000)%Z;
                ta_affectedAreas := [name (sd_location data) ++ " region"] |} ]
     else ret []) ;;
  ret (surge ++ wind)%list.

(** The value the promise resolves to (after 500 ms). *)
Definition detectThreats (sensorData : list SensorData) : M (list ThreatAlert) :=
  forEach threatsOf sensorData.

(** *** authenticateUser *)

Definition mockUsers : list User :=
  [ {| user_id := "user_001";
       user_name := "Dr. Rajesh Kumar";
       user_email := "rajesh@emergency.gov.in";
       user_role := "emergency_manager";
       user_organization := "National Disaster Management Authority";
       user_permissions := ["view_all"; "create_alerts"; "manage_users"] |};
    {| user_id := "user_002";
       user_name := "Priya Sharma";
       user_email := "priya@coastal.ngo";
       user_role := "ngo";
       user_organization := "Coastal Conservation Society";
       user_permissions := ["view_data"; "create_reports"] |} ].

(** The value the promise resolves to (after 1000 ms); [None] is [null]. *)
Definition authenticateUser (email password : string) : option User :=
  find (fun user => String.eqb (user_email user) email) mockUsers.

(** *** getHistoricalData

    A date is valid when its time value is at most 8.64e15 in magnitude; an
    integer beyond that stands for an invalid date, whose time value is NaN.
    The difference of the two time values and its quotient by a day are
    computed on doubles.  The dates the loop forms are exact: a product
    [i * 24 * 60 * 60 * 1000] is a multiple of 2^10 whose odd part is below
    2^53, and a sum [start + i * day] is a whole number within a day of the
    two dates, so below 2^53 in magnitude; doubles hold both exactly.  A sum
    beyond 8.64e15 makes an invalid date here as in the code. *)
Definition getTime (date : Date) : float :=
  if (Z.abs date <=? 8640000000000000)%Z then F.of_Z date else PrimFloat.nan.

(** The number of days; [None] is NaN.  The quotient is never an infinity:
    it is a number between valid dates and NaN otherwise
    ([Finite.daysDiff_number], [Finite.daysDiff_invalid]). *)
Definition daysDiff (startDate endDate : Date) : option Z :=
  F.ceil ((getTime endDate - getTime startDate) / (1000 * 60 * 60 * 24))%float.

(** The values [i] takes in [for (let i = 0; i < daysDiff; i++)]: none
    when [daysDiff] is NaN. *)
Definition rounds (daysDiff : option Z) : list nat :=
  match daysDiff with
  | Some n => seq 0 (Z.to_nat n)
  | None => []
  end.

(** The body of the loop, for the counter [i]. *)
Definition historicalReading (startDate : Date) (i : nat) : M (list SensorData) :=
  let date := (startDate + Z.of_nat i * 24 * 60 * 60 * 1000)%Z in
  r <- Math_random ;;
  ret [ {| sd_id := "historical_" ++ Str.of_Z (Z.of_nat i);
           sd_type := tide_gauge;
           sd_location := {| lat := num_lit 13.0827; lng := num_lit 80.2707;
                             name := "Chennai Coast" |};
           sd_value := Math_sin (num_of_nat i * num_lit 0.1) * num_lit 0.5
                       + num_lit 2 + r * num_lit 0.2;
           sd_unit := "meters";
           sd_timestamp := date;
           sd_status := normal |} ].

(** The value the promise resolves to (after 1500 ms): the loop runs for
    [i = 0, 1, ...] while [i < daysDiff]. *)
Definition getHistoricalData (startDate endDate : Date) : M (list SensorData) :=
  forEach (historicalReading startDate) (rounds (daysDiff startDate endDate)).

(** ** The chatbot's answers (ChatBot) *)

Definition avgQuality (qualityData : list SensorData) : num :=
  fold_left (fun sum s => sum + sd_value s) qualityData (num_lit 0)
  / num_of_nat (List.length qualityData).

(** [[...new Set(l)]]: the first occurrence of each string, in order. *)
Fixpoint distinct (seen l : list string) : list string :=
  match l with
  | [] => []
  | x :: l' => if existsb (String.eqb x) seen then distinct seen l'
               else x :: distinct (x :: seen) l'
  end.

Definition count_string (n : nat) : string := Str.of_Z (Z.of_nat n).

Definition tideResponse (sensorData : list SensorData) : string :=
  let tideData := of_type tide_gauge sensorData in
  let avgTide := avgTide tideData in
  "Current average tide level is " ++ Number_toFixed 2 avgTide ++ " meters. "
  ++ (if existsb (fun s => negb (Status_eqb (sd_status s) normal)) tideData
      then "Some stations are showing abnormal readings that require attention."
      else "All tide gauges are operating within normal parameters.").

Definition windResponse (sensorData : list SensorData) : Outcome string :=
  match Math_max (map sd_value (of_type weather_station sensorData)) with
  | Returned maxWind =>
      Returned
        ("Current maximum wind speed is " ++ Number_toFixed 1 maxWind ++ " km/h. "
         ++ (if maxWind >? num_lit 50
             then "High wind conditions detected - monitoring for potential storm development."
             else "Wind conditions are within normal ranges."))
  | Thrown e => Thrown e
  end.

Definition alertResponse (alerts : list ThreatAlert) : string :=
  if (List.length alerts =? 0)%nat then
    "No active threats detected. All coastal monitoring systems are showing normal conditions."
  else
    let criticalAlerts :=
      List.length (filter (fun a => String.eqb (Severity_string (ta_severity a)) "critical")
                          alerts) in
    "Currently tracking " ++ count_string (List.length alerts) ++ " active alerts. "
    ++ (if (0 <? criticalAlerts)%nat
        then count_string criticalAlerts
             ++ " are marked as critical and require immediate attention."
        else "All alerts are at manageable levels.").

Definition qualityResponse (sensorData : list SensorData) : string :=
  let avgQuality := avgQuality (of_type water_quality sensorData) in
  "Average water quality index is " ++ Number_toFixed 1 avgQuality ++ " ppm. "
  ++ (if avgQuality <? num_lit 50
      then "Some areas showing concerning pollution levels."
      else "Water quality is within acceptable parameters.").

Definition locationResponse (sensorData : list SensorData) : string :=
  let locations := distinct [] (map (fun s => name (sd_location s)) sensorData) in
  "I'm monitoring " ++ count_string (List.length locations) ++ " coastal locations: "
  ++ Str.join ", " locations
  ++ ". Each location has multiple sensor types providing real-time data.".

Definition predictionResponse : string :=
  "Based on current patterns, I'm analyzing tidal cycles, weather trends, and historical data to predict potential coastal threats. The ML models show varying confidence levels for different threat types across monitored locations.".

(** The pictographs are the characters the source file holds. *)
Definition helpResponse : string :=
  "I can help you with: ðŸ“Š Real-time sensor data analysis, ðŸŒŠ Tide and weather monitoring, âš ï¸ Threat alert explanations, ðŸ“ˆ Historical trend analysis, ðŸŽ¯ ML prediction insights, and ðŸ“ Location-specific information. Just ask me about any coastal monitoring topic!".

Definition defaultResponses : list string :=
  [ "I'm analyzing the coastal data to provide you with the most accurate information. Could you be more specific about what you'd like to know?";
    "Based on the current sensor readings, I can help you understand various aspects of coastal conditions. What specific data interests you?";
    "I have access to real-time data from multiple coastal monitoring stations. How can I assist with your coastal threat analysis?" ].

(** [defaultResponses[Math.floor(Math.random() * 3)]], for a draw in [0, 1). *)
Definition defaultResponse : M string :=
  r <- Math_random ;;
  let x := r * num_of_nat (List.length defaultResponses) in
  let index := if x <? num_lit 1 then 0%nat else if x <? num_lit 2 then 1%nat else 2%nat in
  ret (nth index defaultResponses "undefined").

(** What the call leaves: the answer, or the exception of a branch. *)
Definition generateResponse (sensorData : list SensorData) (alerts : list ThreatAlert)
  (userMessage : string) : M (Outcome string) :=
  let message := Str.toLowerCase userMessage in
  if Str.includes message "tide" || Str.includes message "water level" then
    ret (Returned (tideResponse sensorData))
  else if Str.includes message "wind" || Str.includes message "weather" then
    ret (windResponse sensorData)
  else if Str.includes message "alert" || Str.includes message "threat" then
    ret (Returned (alertResponse alerts))
  else if Str.includes message "quality" || Str.includes message "pollution" then
    ret (Returned (qualityResponse sensorData))
  else if Str.includes message "location" || Str.includes message "where" then
    ret (Returned (locationResponse sensorData))
  else if Str.includes message "prediction" || Str.includes message "forecast" then
    ret (Returned predictionResponse)
  else if Str.includes message "help" || Str.includes message "what can you" then
    ret (Returned helpResponse)
  else response <- defaultResponse ;; ret (Returned response).

(** ** The alert panel's severity filter (AlertPanel) *)

Definition filteredAlerts (filterSeverity : string) (alerts : list ThreatAlert)
  : list ThreatAlert :=
  if String.eqb filterSeverity "all" then alerts
  else filter (fun alert => String.eqb (Severity_string (ta_severity alert)) filterSeverity)
              alerts.

(** ** The alert panel, continued *)

Definition getThreatIcon (type : string) : string :=
  if String.eqb type "storm_surge" then "🌊"
  else if String.eqb type "erosion" then "🏖️"
  else if String.eqb type "pollution" then "☣️"
  else if String.eqb type "cyclone" then "🌀"
  else if String.eqb type "tsunami" then "🌊"
  else "⚠️".

Definition activeAlerts (alerts : list ThreatAlert) : list ThreatAlert :=
  filter (fun alert => String.eqb (Severity_string (ta_severity alert)) "critical"
                       || String.eqb (Severity_string (ta_severity alert)) "high")
         alerts.

Definition totalAffectedAreas (alerts : list ThreatAlert) : nat :=
  List.length (distinct [] (flat_map ta_affectedAreas alerts)).

(** The update of the selected channels when the button of [channel] is
    clicked. *)
Definition toggleChannel (channel : string) (prev : list string) : list string :=
  if existsb (String.eqb channel) prev
  then filter (fun c => negb (String.eqb c channel)) prev
  else (prev ++ [channel])%list.

(** The state of the notification dialog. *)
Record Dialog := {
  selectedAlert : option ThreatAlert;
  notificationMessage : string;
  selectedChannels : list string
}.

(** [handleSendNotification]: the calls of [onSendNotification] it makes
    (alert id, channels, message) and the state it leaves. *)
Definition handleSendNotification (st : Dialog)
  : list (string * list string * string) * Dialog :=
  match selectedAlert st with
  | Some alert =>
      if negb (String.eqb (notificationMessage st) "")
         && (0 <? List.length (selectedChannels st))%nat
      then ([(ta_id alert, selectedChannels st, notificationMessage st)],
            {| selectedAlert := Some alert;
               notificationMessage := "";
               selectedChannels := [] |})
      else ([], st)
  | None => ([], st)
  end.

(** ** The charts (DataCharts) *)

(** [l.slice(-n)]: the last [n] elements, all of them when there are fewer. *)
Definition slice_last {A : Type} (n : nat) (l : list A) : list A :=
  skipn (List.length l - n) l.

Record ChartPoint := {
  cp_time : string;
  cp_value : num;
  cp_location : string;
  cp_status : Status
}.

(** How a date prints as a local time is taken as given. *)
Variable toLocaleTimeString : Date -> string.

Definition processChartData (data : list SensorData) (type : SensorType)
  : list ChartPoint :=
  slice_last 20
    (map (fun d => {| cp_time := toLocaleTimeString (sd_timestamp d);
                      cp_value := sd_value d;
                      cp_location := name (sd_location d);
                      cp_status := sd_status d |})
         (filter (fun d => SensorType_eqb (sd_type d) type) data)).

(** [acc[status] = (acc[status] || 0) + 1] on the counts kept so far, in
    the order the statuses were first met. *)
Fixpoint count_status (acc : list (Status * nat)) (status : Status) : list (Status * nat) :=
  match acc with
  | [] => [(status, 1%nat)]
  | (st, n) :: acc' =>
      if Status_eqb st status then (st, S n) :: acc'
      else (st, n) :: count_status acc' status
  end.

Definition threatDistribution (sensorData : list SensorData) : list (Status * nat) :=
  fold_left (fun acc sensor => count_status acc (sd_status sensor)) sensorData [].

(** ** The prediction panel, continued (MLThreatDetection) *)

(** The number shown as High Risk Alerts. *)
Definition highRiskAlerts (predictions : list MLPrediction) : nat :=
  List.length (filter (fun p => probability p >? num_lit 0.7) predictions).

(** One round of the loop of [generateTrainingData]: the input row and the
    output row it pushes. *)
Definition trainingSample : M (list (list num * list num)) :=
  r1 <- Math_random ;; r2 <- Math_random ;; r3 <- Math_random ;; r4 <- Math_random ;;
  let tideLevel := r1 * num_lit 4 in
  let windSpeed := r2 * num_lit 100 in
  let waterQuality := r3 * num_lit 100 in
  let temperature := r4 * num_lit 40 + num_lit 10 in
  let threatVector :=
    if (tideLevel >? num_lit 2.5) && (windSpeed >? num_lit 40)
    then [num_lit 1; num_lit 0; num_lit 0; num_lit 0]
    else if tideLevel >? num_lit 3.0
    then [num_lit 0; num_lit 1; num_lit 0; num_lit 0]
    else if waterQuality <? num_lit 30
    then [num_lit 0; num_lit 0; num_lit 1; num_lit 0]
    else if windSpeed >? num_lit 70
    then [num_lit 0; num_lit 0; num_lit 0; num_lit 1]
    else [num_lit 0; num_lit 0; num_lit 0; num_lit 0] in
  ret [([tideLevel; windSpeed; waterQuality; temperature], threatVector)].

(** The rows of [inputs] and [outputs], paired. *)
Definition generateTrainingData : M (list (list num * list num)) :=
  forEach (fun _ : nat => trainingSample) (seq 0 1000).

(** ** Sessions (AuthSystem) *)

(** How a user record is written as JSON is taken as given. *)
Variable JSON_stringify : User -> string.

(** The user of the context and the item [coastal_user] of the local
    storage. *)
Record Session := {
  user : option User;
  coastal_user : option string
}.

(** [login]: what it resolves to and the session it leaves. *)
Definition login (email password : string) (st : Session) : bool * Session :=
  match authenticateUser email password with
  | Some authenticatedUser =>
      (true, {| user := Some authenticatedUser;
                coastal_user := Some (JSON_stringify authenticatedUser) |})
  | None => (false, st)
  end.

Definition logout (st : Session) : Session :=
  {| user := None; coastal_user := None |}.

Definition hasPermission (st : Session) (permission : string) : bool :=
  match user st with
  | Some u => existsb (String.eqb permission) (user_permissions u)
  | None => false
  end.

(** ** Notions the statements below use *)






(** The predictions of a kind, and those of the tide block. *)
Definition of_kind (kind : string) (anomalies : list MLPrediction) : list MLPrediction :=
  filter (fun p => String.eqb (threatType p) kind) anomalies.

Definition of_tide (anomalies : list MLPrediction) : list MLPrediction :=
  filter (fun p => String.eqb (threatType p) "Storm Surge Risk"
                   || String.eqb (threatType p) "Unusual Low Tide") anomalies.

(** The alert raised for a prediction at a place, when the clock has been
    read and random numbers drawn as often as [w] counts. *)
Definition raised (prediction : MLPrediction) (place : Location) (w : World) : ThreatAlert :=
  {| ta_id := "ml_" ++ Str.of_Z (clock (clock_reads w)) ++ "_"
              ++ substring 2 9 (Number_toString36 (random (random_draws w)));
     ta_type := Str.replace_spaces (Str.toLowerCase (threatType prediction));
     ta_severity := if probability prediction >? num_lit 0.9 then critical
                    else if probability prediction >? num_lit 0.8 then high
                    else medium;
     ta_location := place;
     ta_description :=
       "ML detected " ++ threatType prediction ++ " with "
       ++ Number_toFixed 1 (probability prediction * num_lit 100)
       ++ "% probability";
     ta_timestamp := clock (S (clock_reads w));
     ta_estimatedImpact := (clock (S (S (clock_reads w))) + 4 * 60 * 60 * 1000)%Z;
     ta_affectedAreas := [name place] |}.

(** The prediction for a highest wind value. *)
Definition cyclonicActivity (place : string) (maxWind : num) : MLPrediction :=
  {| threatType := "Cyclonic Activity";
     probability := num_min ((maxWind - num_lit 60) / num_lit 40) (num_lit 0.95);
     confidence := num_min ((maxWind - num_lit 50) / num_lit 50) (num_lit 0.9);
     location := place;
     features := [ "Wind speed: " ++ Number_toString maxWind ++ " km/h";
                   "Sustained high winds detected" ] |}.

(** The prediction for a lowest water-quality value. *)
Definition waterPollution (place : string) (minQuality : num) : MLPrediction :=
  {| threatType := "Water Pollution";
     probability := num_min ((num_lit 40 - minQuality) / num_lit 40) (num_lit 0.95);
     confidence := num_min ((num_lit 50 - minQuality) / num_lit 50) (num_lit 0.85);
     location := place;
     features := [ "Water quality: " ++ Number_toString minQuality ++ " ppm";
                   "Below safety threshold" ] |}.

(** The kind, severity and place of the alerts [detectThreats] is described
    to raise for one reading. *)
Definition expected_threats (data : SensorData) : list (string * Severity * Location) :=
  ((if SensorType_eqb (sd_type data) tide_gauge && (sd_value data >? num_lit 2.5)
    then [("storm_surge", if sd_value data >? num_lit 3 then critical else high,
           sd_location data)]
    else [])
   ++
   (if SensorType_eqb (sd_type data) weather_station && (sd_value data >? num_lit 60)
    then [("cyclone", if sd_value data >? num_lit 80 then critical else high,
           sd_location data)]
    else []))%list.

Definition alert_kind (a : ThreatAlert) : string * Severity * Location :=
  (ta_type a, ta_severity a, ta_location a).

(** The timers set by calling [connectWebSocket] at each of the times
    [starts], in order. *)
Definition subscribe (starts : list Z) : list Timer :=
  fold_left (fun timers now => connectWebSocket now timers) starts [].

(** How many readings reach [onDataUpdate] at the instant [t]. *)
Definition readings_delivered (timers : list Timer) (t : Z) (w : World) : nat :=
  List.length (filter is_reading (fst (tick timers t w))).

(** A reading for which [detectThreats] raises an alert. *)
Definition threatening (d : SensorData) : bool :=
  (SensorType_eqb (sd_type d) tide_gauge && (sd_value d >? num_lit 2.5))
  || (SensorType_eqb (sd_type d) weather_station && (sd_value d >? num_lit 60)).

(** A prediction for which an alert is raised. *)
Definition likely (p : MLPrediction) : bool := probability p >? num_lit 0.7.

(** The location names of readings, the readings at a location, and the
    groups by location: the names in the order first met, each with its
    readings in their order. *)
Definition names (data : list SensorData) : list string :=
  map (fun s => name (sd_location s)) data.

Definition at_location (key : string) (data : list SensorData) : list SensorData :=
  filter (fun s => String.eqb (name (sd_location s)) key) data.

Definition groups_of (data : list SensorData) : Groups :=
  map (fun key => (key, at_location key data)) (distinct [] (names data)).

(** The statuses a mock reading of each kind can have. *)
Definition status_fits (d : SensorData) : Prop :=
  match sd_type d with
  | tide_gauge | water_quality => sd_status d <> critical_status
  | weather_station => sd_status d <> warning
  | seismic => False
  end.

(** What the push channel hands to its callbacks. *)
Definition pushed (d : Delivery) : Prop :=
  match d with
  | onDataUpdate data =>
      sd_id data = "tide_Chennai_Coast" /\ sd_type data = tide_gauge /\
      name (sd_location data) = "Chennai Coast" /\ sd_unit data = "meters"
  | onAlertUpdate alert =>
      ta_id alert = "alert_001" /\ ta_type alert = "storm_surge" /\
      ta_severity alert = high /\ name (ta_location alert) = "Chennai Coast"
  end.

Definition timestamps (data : list SensorData) : list Date := map sd_timestamp data.

(** The readings with a status, and the count kept for a status. *)
Definition with_status (status : Status) (sensorData : list SensorData) : nat :=
  List.length (filter (fun s => Status_eqb (sd_status s) status) sensorData).

Fixpoint count_of (acc : list (Status * nat)) (status : Status) : nat :=
  match acc with
  | [] => 0%nat
  | (st, n) :: acc' => if Status_eqb st status then n else count_of acc' status
  end.

(** An output row that names one threat, or none. *)
Definition one_hot_or_none (row : list num) : Prop :=
  In row [ [num_lit 1; num_lit 0; num_lit 0; num_lit 0];
           [num_lit 0; num_lit 1; num_lit 0; num_lit 0];
           [num_lit 0; num_lit 0; num_lit 1; num_lit 0];
           [num_lit 0; num_lit 0; num_lit 0; num_lit 1];
           [num_lit 0; num_lit 0; num_lit 0; num_lit 0] ].

End Program.

(** ** A runtime and an environment to run the code on examples

    NaN prints as [NaN] and every other number as [#], a call takes 125000
    arguments, the clock advances by one at each reading and every random
    draw is one half.  What is proved for all inputs does not depend on these
    choices. *)
Definition sample_runtime : Builtins float :=
  {| Number_toString := fun x => if PrimFloat.is_nan x then "NaN"%string else "#"%string;
     Number_toFixed := fun _ x => if PrimFloat.is_nan x then "NaN"%string else "#"%string;
     Number_toString36 := fun _ => "0.#########"%string;
     Math_sin := fun _ => PrimFloat.zero;
     Math_max_of_nothing := PrimFloat.neg_infinity;
     Math_min_of_nothing := PrimFloat.infinity;
     arguments_limit := 125000%N |}.

Definition sample_ambient : Ambient float :=
  {| clock := fun k => (1700000000000 + Z.of_nat k)%Z;
     random := fun _ => 0.5%float |}.

Definition start_of_run : World := {| clock_reads := 0; random_draws := 0 |}.

Definition chennai : Location float :=
  {| lat := num_lit 13.0827; lng := num_lit 80.2707; name := "Chennai Coast"%string |}.

(** A reading of kind [t] and value [v] at Chennai. *)
Definition reading (t : SensorType) (v : float) : SensorData float :=
  {| sd_id := "sensor"%string; sd_type := t; sd_location := chennai; sd_value := v;
     sd_unit := ""%string; sd_timestamp := 0%Z; sd_status := normal |}.

(** * Properties *)

(** ** Order on the doubles

    The comparisons of two doubles that are not NaN follow a key read off
    their binary representation. *)
Module FloatOrder.
Import F.

Ltac compare_cases :=
  repeat match goal with
  | |- context [Z.compare ?a ?b] => destruct (Z.compare_spec a b)
  | |- context [Pos.compare_cont Eq ?a ?b] =>
      change (Pos.compare_cont Eq a b) with (Pos.compare a b);
      destruct (Pos.compare_spec a b)
  end.

Ltac keys :=
  unfold lex_lt, lex_le in *;
  repeat match goal with
  | |- context [fkey ?x] => destruct (fkey x) as [[? ?] ?]
  | H : context [fkey ?x] |- _ => destruct (fkey x) as [[? ?] ?]
  end.

Lemma SFltb_key (f g : spec_float) :
  is_nan_spec f = false -> is_nan_spec g = false ->
  (SFltb f g = true <-> lex_lt (key f) (key g)).
Proof.
  unfold SFltb, SFcompare, lex_lt.
  destruct f as [[]|[]| |[] m e], g as [[]|[]| |[] m' e']; simpl; intros Hf Hg;
    try discriminate; compare_cases; simpl; split; intros ?;
    try reflexivity; try discriminate; try lia.
Qed.

Lemma SFleb_key (f g : spec_float) :
  is_nan_spec f = false -> is_nan_spec g = false ->
  (SFleb f g = true <-> lex_le (key f) (key g)).
Proof.
  unfold SFleb, SFcompare, lex_le.
  destruct f as [[]|[]| |[] m e], g as [[]|[]| |[] m' e']; simpl; intros Hf Hg;
    try discriminate; compare_cases; simpl; split; intros ?;
    try reflexivity; try discriminate; try lia.
Qed.

Lemma SFltb_nan (f g : spec_float) :
  SFltb f g = true -> is_nan_spec f = false /\ is_nan_spec g = false.
Proof.
  destruct f as [[]|[]| |[] m e], g as [[]|[]| |[] m' e']; simpl; intros H;
    try discriminate; auto.
Qed.

Lemma SFleb_nan (f g : spec_float) :
  SFleb f g = true -> is_nan_spec f = false /\ is_nan_spec g = false.
Proof.
  destruct f as [[]|[]| |[] m e], g as [[]|[]| |[] m' e']; simpl; intros H;
    try discriminate; auto.
Qed.

Lemma is_nan_Prim2SF (x : float) : PrimFloat.is_nan x = is_nan_spec (Prim2SF x).
Proof.
  unfold PrimFloat.is_nan. rewrite FloatAxioms.eqb_spec. unfold SFeqb, SFcompare.
  destruct (Prim2SF x) as [[]|[]| |[] m e]; simpl; try reflexivity;
    rewrite Z.compare_refl; change (Pos.compare_cont Eq m m) with (Pos.compare m m);
    rewrite Pos.compare_refl; reflexivity.
Qed.

Lemma ltb_key (x y : float) :
  PrimFloat.ltb x y = true <->
  PrimFloat.is_nan x = false /\ PrimFloat.is_nan y = false /\ lex_lt (fkey x) (fkey y).
Proof.
  rewrite FloatAxioms.ltb_spec, !is_nan_Prim2SF. unfold fkey. split.
  - intros H. destruct (SFltb_nan _ _ H) as [Hx Hy]. repeat split; trivial.
    now apply SFltb_key.
  - intros (Hx & Hy & H). now apply SFltb_key.
Qed.

Lemma leb_key (x y : float) :
  PrimFloat.leb x y = true <->
  PrimFloat.is_nan x = false /\ PrimFloat.is_nan y = false /\ lex_le (fkey x) (fkey y).
Proof.
  rewrite FloatAxioms.leb_spec, !is_nan_Prim2SF. unfold fkey. split.
  - intros H. destruct (SFleb_nan _ _ H) as [Hx Hy]. repeat split; trivial.
    now apply SFleb_key.
  - intros (Hx & Hy & H). now apply SFleb_key.
Qed.

Lemma leb_not_gt (x y : float) :
  PrimFloat.leb x y = true -> PrimFloat.ltb y x = false.
Proof.
  intros H. apply leb_key in H. destruct H as (Hx & Hy & H).
  destruct (PrimFloat.ltb y x) eqn:E; trivial.
  apply ltb_key in E. destruct E as (_ & _ & E). keys. lia.
Qed.

Lemma leb_trans (x y z : float) :
  PrimFloat.leb x y = true -> PrimFloat.leb y z = true -> PrimFloat.leb x z = true.
Proof.
  rewrite !leb_key. intros (Hx & Hy & H) (_ & Hz & H'). repeat split; trivial. keys. lia.
Qed.

Lemma leb_refl (x : float) : PrimFloat.is_nan x = false -> PrimFloat.leb x x = true.
Proof. intros H. apply leb_key. repeat split; trivial. keys. lia. Qed.

Lemma ltb_leb (x y : float) : PrimFloat.ltb x y = true -> PrimFloat.leb x y = true.
Proof.
  rewrite ltb_key, leb_key. intros (Hx & Hy & H). repeat split; trivial. keys. lia.
Qed.

Lemma not_ltb_leb (x y : float) :
  PrimFloat.is_nan x = false -> PrimFloat.is_nan y = false ->
  PrimFloat.ltb x y = false -> PrimFloat.leb y x = true.
Proof.
  intros Hx Hy H. apply leb_key. repeat split; trivial.
  assert (~ lex_lt (fkey x) (fkey y)) as H'.
  { intros L. rewrite (proj2 (ltb_key x y)) in H by auto. discriminate. }
  keys. lia.
Qed.

Lemma nan_not_lt (x y : float) :
  PrimFloat.is_nan x = true -> PrimFloat.ltb x y = false /\ PrimFloat.ltb y x = false.
Proof.
  intros H. split.
  - destruct (PrimFloat.ltb x y) eqn:E; trivial.
    apply ltb_key in E. destruct E as (E & _). congruence.
  - destruct (PrimFloat.ltb y x) eqn:E; trivial.
    apply ltb_key in E. destruct E as (_ & E & _). congruence.
Qed.

Lemma some_nan_or_none (l : list float) :
  (exists x, In x l /\ PrimFloat.is_nan x = true) \/
  (forall x, In x l -> PrimFloat.is_nan x = false).
Proof.
  destruct (existsb PrimFloat.is_nan l) eqn:E.
  - left. apply existsb_exists in E. exact E.
  - right. intros x Hx. destruct (PrimFloat.is_nan x) eqn:Ex; trivial.
    assert (existsb PrimFloat.is_nan l = true) by (apply existsb_exists; eauto).
    congruence.
Qed.

End FloatOrder.

(** ** [Math.max] and [Math.min] on doubles *)
Section Extremes.
Import FloatOrder.

Lemma max_cases (x y : float) :
  PrimFloat.is_nan x = false -> PrimFloat.is_nan y = false ->
  (F.max x y = x \/ F.max x y = y) /\
  PrimFloat.leb x (F.max x y) = true /\ PrimFloat.leb y (F.max x y) = true.
Proof.
  intros Hx Hy. unfold F.max. rewrite Hx, Hy. simpl.
  destruct (PrimFloat.ltb x y) eqn:Exy.
  - auto using ltb_leb, leb_refl.
  - destruct (PrimFloat.ltb y x) eqn:Eyx.
    + auto using ltb_leb, leb_refl.
    + destruct (PrimFloat.get_sign x); auto using not_ltb_leb, leb_refl.
Qed.

Lemma min_cases (x y : float) :
  PrimFloat.is_nan x = false -> PrimFloat.is_nan y = false ->
  (F.min x y = x \/ F.min x y = y) /\
  PrimFloat.leb (F.min x y) x = true /\ PrimFloat.leb (F.min x y) y = true.
Proof.
  intros Hx Hy. unfold F.min. rewrite Hx, Hy. simpl.
  destruct (PrimFloat.ltb x y) eqn:Exy.
  - auto using ltb_leb, leb_refl.
  - destruct (PrimFloat.ltb y x) eqn:Eyx.
    + auto using ltb_leb, leb_refl.
    + destruct (PrimFloat.get_sign x); auto using not_ltb_leb, leb_refl.
Qed.

Lemma max_nan (x y : float) :
  PrimFloat.is_nan x = true \/ PrimFloat.is_nan y = true -> PrimFloat.is_nan (F.max x y) = true.
Proof. unfold F.max. intros [H|H]; rewrite H; rewrite ?orb_true_r; reflexivity. Qed.

Lemma min_nan (x y : float) :
  PrimFloat.is_nan x = true \/ PrimFloat.is_nan y = true -> PrimFloat.is_nan (F.min x y) = true.
Proof. unfold F.min. intros [H|H]; rewrite H; rewrite ?orb_true_r; reflexivity. Qed.

(** [Math.max] of values without NaN is one of them, and none is above it. *)
Lemma Math_max_greatest (vs : list float) : forall v : float,
  (forall x, In x (v :: vs) -> PrimFloat.is_nan x = false) ->
  In (Math_max_of v vs) (v :: vs) /\
  forall x, In x (v :: vs) -> PrimFloat.leb x (Math_max_of v vs) = true.
Proof.
  unfold Math_max_of. change (@num_max float float_number) with F.max.
  induction vs as [|y vs IH]; intros v Hn; simpl.
  - split; [auto|]. intros x [<-|[]]. apply leb_refl, Hn. now left.
  - destruct (@max_cases v y) as (Hc & Hv & Hy); try (apply Hn; simpl; auto).
    destruct (IH (F.max v y)) as [Hin Hub].
    { intros x [<-|Hx].
      - destruct Hc as [-> | ->]; apply Hn; simpl; auto.
      - apply Hn. simpl; auto. }
    split.
    + destruct Hin as [Hin|Hin]; [|auto].
      rewrite <- Hin. destruct Hc as [-> | ->]; auto.
    + intros x [<-|[<-|Hx]].
      * eapply leb_trans; [exact Hv|]. apply Hub. now left.
      * eapply leb_trans; [exact Hy|]. apply Hub. now left.
      * apply Hub. now right.
Qed.

Lemma Math_min_least (vs : list float) : forall v : float,
  (forall x, In x (v :: vs) -> PrimFloat.is_nan x = false) ->
  In (Math_min_of v vs) (v :: vs) /\
  forall x, In x (v :: vs) -> PrimFloat.leb (Math_min_of v vs) x = true.
Proof.
  unfold Math_min_of. change (@num_min float float_number) with F.min.
  induction vs as [|y vs IH]; intros v Hn; simpl.
  - split; [auto|]. intros x [<-|[]]. apply leb_refl, Hn. now left.
  - destruct (@min_cases v y) as (Hc & Hv & Hy); try (apply Hn; simpl; auto).
    destruct (IH (F.min v y)) as [Hin Hub].
    { intros x [<-|Hx].
      - destruct Hc as [-> | ->]; apply Hn; simpl; auto.
      - apply Hn. simpl; auto. }
    split.
    + destruct Hin as [Hin|Hin]; [|auto].
      rewrite <- Hin. destruct Hc as [-> | ->]; auto.
    + intros x [<-|[<-|Hx]].
      * eapply leb_trans; [|exact Hv]. apply Hub. now left.
      * eapply leb_trans; [|exact Hy]. apply Hub. now left.
      * apply Hub. now right.
Qed.

(** A NaN among the values makes [Math.max] and [Math.min] NaN. *)
Lemma Math_max_nan (vs : list float) : forall v : float,
  (exists x, In x (v :: vs) /\ PrimFloat.is_nan x = true) ->
  PrimFloat.is_nan (Math_max_of v vs) = true.
Proof.
  unfold Math_max_of. change (@num_max float float_number) with F.max.
  induction vs as [|y vs IH]; intros v (x & Hin & Hx); simpl.
  - destruct Hin as [<-|[]]. exact Hx.
  - apply IH. destruct Hin as [->|[->|Hin]].
    + exists (F.max x y). split; [now left|]. apply max_nan. auto.
    + exists (F.max v x). split; [now left|]. apply max_nan. auto.
    + exists x. split; [now right|trivial].
Qed.

Lemma Math_min_nan (vs : list float) : forall v : float,
  (exists x, In x (v :: vs) /\ PrimFloat.is_nan x = true) ->
  PrimFloat.is_nan (Math_min_of v vs) = true.
Proof.
  unfold Math_min_of. change (@num_min float float_number) with F.min.
  induction vs as [|y vs IH]; intros v (x & Hin & Hx); simpl.
  - destruct Hin as [<-|[]]. exact Hx.
  - apply IH. destruct Hin as [->|[->|Hin]].
    + exists (F.min x y). split; [now left|]. apply min_nan. auto.
    + exists (F.min v x). split; [now left|]. apply min_nan. auto.
    + exists x. split; [now right|trivial].
Qed.

End Extremes.

(** ** Whole numbers on doubles

    The double of a whole number below 2^53 in magnitude holds it exactly,
    with a mantissa of 53 bits; the sign of a difference and of a quotient
    follows that of the whole numbers. *)
Module Whole.
Import F.

Lemma digits_size (p : positive) : digits2_pos p = Pos.size p.
Proof. induction p; simpl; congruence. Qed.

Lemma digits_bounds (p : positive) :
  (2 ^ (Zpos (digits2_pos p) - 1) <= Zpos p < 2 ^ Zpos (digits2_pos p))%Z.
Proof.
  rewrite digits_size. split.
  - pose proof (Pos.size_le p) as H.
    assert (Zpos (2 ^ Pos.size p) <= Zpos p~0)%Z as H' by exact H.
    rewrite Pos2Z.inj_pow in H'.
    replace (Zpos (Pos.size p)) with (Zpos (Pos.size p) - 1 + 1)%Z in H' by lia.
    rewrite Z.pow_add_r in H' by lia. change (2 ^ 1)%Z with 2%Z in H'.
    change (Zpos p~0) with (2 * Zpos p)%Z in H'. lia.
  - pose proof (Pos.size_gt p) as H.
    assert (Zpos p < Zpos (2 ^ Pos.size p))%Z as H' by exact H.
    now rewrite Pos2Z.inj_pow in H'.
Qed.

Lemma iter_xO_value (p d : positive) : Zpos (Pos.iter xO p d) = (Zpos p * 2 ^ Zpos d)%Z.
Proof.
  induction d as [|d IH] using Pos.peano_ind.
  - simpl. lia.
  - rewrite Pos.iter_succ. change (Zpos (Pos.iter xO p d)~0) with (2 * Zpos (Pos.iter xO p d))%Z.
    rewrite IH, Pos2Z.inj_succ, Z.pow_succ_r by lia. lia.
Qed.

Lemma iter_xO_digits (p d : positive) :
  digits2_pos (Pos.iter xO p d) = (digits2_pos p + d)%positive.
Proof.
  induction d as [|d IH] using Pos.peano_ind.
  - simpl. lia.
  - rewrite Pos.iter_succ. simpl. rewrite IH. lia.
Qed.

(** A mantissa of 53 bits with an exponent in range is kept as it is. *)
Lemma binary_round_aux_canonical (s : bool) (m : positive) (e : Z) :
  digits2_pos m = 53%positive -> (-1074 <= e <= 971)%Z ->
  binary_round_aux prec emax s (Zpos m) e loc_Exact = S754_finite s m e.
Proof.
  intros Hd He. unfold binary_round_aux, shr_fexp, Zdigits2, fexp, SpecFloat.emin.
  rewrite Hd. change (3 - emax - prec)%Z with (-1074)%Z. change prec with 53%Z.
  replace (Z.max (53 + e - 53) (-1074) - e)%Z with 0%Z by lia.
  cbn [shr shr_record_of_loc shr_m loc_of_shr_record round_nearest_even].
  unfold Zdigits2. rewrite Hd.
  replace (Z.max (53 + e - 53) (-1074) - e)%Z with 0%Z by lia.
  cbn [shr shr_record_of_loc shr_m]. change (emax - 53)%Z with 971%Z.
  destruct (Z.leb_spec e 971); [reflexivity | lia].
Qed.

Lemma binary_round_whole (s : bool) (p : positive) :
  (Zpos p < 2 ^ 53)%Z ->
  F.whole (binary_round prec emax s p 0) (if s then Zneg p else Zpos p).
Proof.
  intros Hp. pose proof (digits_bounds p) as Hb.
  assert (Zpos (digits2_pos p) <= 53)%Z as Hk.
  { destruct (Z.le_gt_cases (Zpos (digits2_pos p)) 53) as [H|H]; [exact H|].
    assert (2 ^ 53 <= 2 ^ (Zpos (digits2_pos p) - 1))%Z by (apply Z.pow_le_mono_r; lia). lia. }
  unfold binary_round, shl_align, fexp, SpecFloat.emin.
  change (3 - emax - prec)%Z with (-1074)%Z. change prec with 53%Z.
  replace (Z.max (Zpos (digits2_pos p) + 0 - 53) (-1074) - 0)%Z
    with (Zpos (digits2_pos p) - 53)%Z by lia.
  replace (Z.max (Zpos (digits2_pos p) + 0 - 53) (-1074))%Z
    with (Zpos (digits2_pos p) - 53)%Z by lia.
  destruct (Zpos (digits2_pos p) - 53)%Z as [|d|d] eqn:Ed; [| lia |].
  - rewrite binary_round_aux_canonical by lia.
    cbn [F.whole]. split; [lia|]. split; [lia|]. destruct s; simpl; lia.
  - rewrite binary_round_aux_canonical.
    + cbn [F.whole]. split; [rewrite iter_xO_digits; lia|]. split; [lia|].
      change (- Zneg d)%Z with (Zpos d).
      destruct s.
      * change (Zneg (Pos.iter xO p d)) with (- Zpos (Pos.iter xO p d))%Z.
        rewrite iter_xO_value. change (Zneg p) with (- Zpos p)%Z. lia.
      * apply iter_xO_value.
    + rewrite iter_xO_digits. lia.
    + lia.
Qed.

Lemma of_Z_whole (z : Z) : (Z.abs z < 2 ^ 53)%Z -> F.whole (Prim2SF (F.of_Z z)) z.
Proof.
  intros Hz. destruct z as [|p|p]; unfold F.of_Z.
  - vm_compute. reflexivity.
  - rewrite of_uint63_spec, Uint63.of_Z_spec.
    rewrite Z.mod_small by (change Uint63.wB with (2 ^ 63)%Z; simpl in Hz; lia).
    apply (binary_round_whole false). exact Hz.
  - rewrite opp_spec, of_uint63_spec, Uint63.of_Z_spec.
    rewrite Z.mod_small by (change Uint63.wB with (2 ^ 63)%Z; simpl in Hz; lia).
    pose proof (binary_round_whole false Hz) as H.
    cbn [binary_normalize].
    destruct (binary_round prec emax false p 0) as [s|s| |s m e]; cbn [F.whole SFopp] in *;
      try discriminate; try contradiction.
    destruct H as (Hd & He & Hv). split; [exact Hd|]. split; [exact He|].
    destruct s; cbn [negb].
    + exfalso. assert (0 < 2 ^ (- e))%Z by (apply Z.pow_pos_nonneg; lia). nia.
    + change (Zneg m) with (- Zpos m)%Z. rewrite Hv. change (Zneg p) with (- Zpos p)%Z. lia.
Qed.

Lemma shl_align_value (m : positive) (e e' : Z) :
  (e' <= e)%Z ->
  Zpos (fst (shl_align m e e')) = (Zpos m * 2 ^ (e - e'))%Z /\ snd (shl_align m e e') = e'.
Proof.
  intros H. unfold shl_align. destruct (e' - e)%Z as [|d|d] eqn:Ed; [|lia|].
  - cbn [fst snd]. replace (e - e')%Z with 0%Z by lia. split; lia.
  - cbn [fst snd]. rewrite iter_xO_value. replace (e - e')%Z with (Zpos d) by lia. split; lia.
Qed.

Lemma aligned_value (s : bool) (m : positive) (e ez a : Z) :
  F.whole (S754_finite s m e) a -> (ez <= e)%Z ->
  cond_Zopp s (Zpos (fst (shl_align m e ez))) = (a * 2 ^ (- ez))%Z.
Proof.
  intros (_ & He & Hv) Hez. destruct (@shl_align_value m e ez Hez) as [-> _].
  replace (- ez)%Z with (- e + (e - ez))%Z by lia. rewrite Z.pow_add_r by lia.
  unfold cond_Zopp. destruct s.
  - change (Zneg m) with (- Zpos m)%Z in Hv. nia.
  - nia.
Qed.

Lemma binary_round_aux_sign (s : bool) (m e : Z) (l : SpecFloat.location) :
  match binary_round_aux prec emax s m e l with
  | S754_zero s' | S754_infinity s' | S754_finite s' _ _ => s' = s
  | S754_nan => True
  end.
Proof.
  unfold binary_round_aux. destruct (shr_fexp prec emax m e l) as [mrs' e'].
  destruct (shr_fexp prec emax _ e' loc_Exact) as [mrs'' e''].
  destruct (shr_m mrs''); trivial. destruct (Z.leb e'' (emax - prec)); trivial.
Qed.

Lemma binary_normalize_nonpositive (m e : Z) :
  (m <= 0)%Z -> F.nonpositive (binary_normalize prec emax m e false).
Proof.
  intros H. destruct m as [|p|p]; [exact I | lia |].
  cbn [binary_normalize]. unfold binary_round.
  destruct (shl_align p e _) as [mz ez].
  pose proof (binary_round_aux_sign true (Zpos mz) ez loc_Exact) as Hs.
  destruct (binary_round_aux prec emax true (Zpos mz) ez loc_Exact); simpl; auto.
Qed.

Lemma whole_sign (s : bool) (m : positive) (e a : Z) :
  F.whole (S754_finite s m e) a -> (s = true <-> (a < 0)%Z) /\ (s = false <-> (0 < a)%Z).
Proof.
  intros (_ & He & Hv). assert (0 < 2 ^ (- e))%Z by (apply Z.pow_pos_nonneg; lia).
  destruct s.
  - change (Zneg m) with (- Zpos m)%Z in Hv. split; split; intros; try discriminate; try reflexivity; nia.
  - split; split; intros; try discriminate; try reflexivity; nia.
Qed.

(** The difference of two F.whole numbers held by doubles is not above zero
    when the first is not above the second. *)
Lemma sub_whole_nonpositive (x y : spec_float) (a b : Z) :
  F.whole x a -> F.whole y b -> (a <= b)%Z -> F.nonpositive (SF64sub x y).
Proof.
  intros Hx Hy Hab.
  destruct x as [sx|sx| |sx mx ex], y as [sy|sy| |sy my ey]; cbn [F.whole] in Hx, Hy;
    try contradiction.
  - cbn. destruct sx, sy; exact I.
  - cbn. subst a. apply whole_sign in Hy. destruct sy; cbn; [|reflexivity].
    destruct Hy as [[Hy _] _]. specialize (Hy eq_refl). lia.
  - cbn. subst b. apply whole_sign in Hx. destruct sx; cbn; [reflexivity|].
    destruct Hx as [_ [Hx _]]. specialize (Hx eq_refl). lia.
  - unfold SF64sub, SFsub.
    rewrite (@aligned_value sx mx ex (Z.min ex ey) a Hx) by lia.
    rewrite (@aligned_value sy my ey (Z.min ex ey) b Hy) by lia.
    apply binary_normalize_nonpositive.
    destruct Hx as (_ & Hex & _), Hy as (_ & Hey & _).
    assert (0 < 2 ^ (- Z.min ex ey))%Z by (apply Z.pow_pos_nonneg; lia). nia.
Qed.

Lemma div_nonpositive (x : spec_float) (my : positive) (ey : Z) :
  F.nonpositive x -> F.nonpositive (SF64div x (S754_finite false my ey)).
Proof.
  destruct x as [sx|sx| |sx mx ex]; cbn [F.nonpositive]; intros H.
  - exact I.
  - subst. reflexivity.
  - exact I.
  - subst. unfold SF64div, SFdiv.
    destruct (SFdiv_core_binary prec emax (Zpos mx) ex (Zpos my) ey) as [[mz ez] lz].
    pose proof (binary_round_aux_sign (xorb true false) mz ez lz) as Hs.
    destruct (binary_round_aux prec emax (xorb true false) mz ez lz); simpl; auto.
Qed.

Lemma ceil_nonpositive (q : float) :
  F.nonpositive (Prim2SF q) -> F.ceil q = None \/ exists n, F.ceil q = Some n /\ (n <= 0)%Z.
Proof.
  unfold F.ceil. destruct (Prim2SF q) as [s|s| |s m e]; cbn [F.nonpositive]; intros H.
  - right. exists 0%Z. split; [reflexivity | lia].
  - now left.
  - now left.
  - subst. right. eexists. split; [reflexivity|].
    destruct (Z.leb_spec 0 e).
    + assert (0 < 2 ^ e)%Z by (apply Z.pow_pos_nonneg; lia). lia.
    + change (- Zneg m)%Z with (Zpos m).
      assert (0 <= Zpos m / 2 ^ (- e))%Z by (apply Z.div_pos; [lia | apply Z.pow_pos_nonneg; lia]).
      lia.
Qed.

Lemma getTime_valid (date : Date) :
  (Z.abs date <= 8640000000000000)%Z -> F.whole (Prim2SF (getTime date)) date.
Proof.
  intros H. unfold getTime. destruct (Z.leb_spec (Z.abs date) 8640000000000000); [|lia].
  apply of_Z_whole. lia.
Qed.

Lemma getTime_invalid (date : Date) :
  (8640000000000000 < Z.abs date)%Z -> getTime date = PrimFloat.nan.
Proof.
  intros H. unfold getTime. destruct (Z.leb_spec (Z.abs date) 8640000000000000); [lia|].
  reflexivity.
Qed.

(** No day is counted from a date to an earlier one, nor when a date is
    invalid. *)
Lemma daysDiff_backwards (startDate endDate : Date) :
  (endDate <= startDate)%Z -> rounds (daysDiff startDate endDate) = [].
Proof.
  intros H. unfold daysDiff.
  assert (F.nonpositive (Prim2SF ((getTime endDate - getTime startDate) / (1000 * 60 * 60 * 24))%float)) as Hn.
  { rewrite div_spec, sub_spec.
    let d := eval vm_compute in (Prim2SF (1000 * 60 * 60 * 24)%float) in
    change (Prim2SF (1000 * 60 * 60 * 24)%float) with d.
    apply div_nonpositive.
    destruct (Z.le_gt_cases (Z.abs endDate) 8640000000000000) as [He|He];
      [|rewrite (@getTime_invalid endDate He); exact I].
    destruct (Z.le_gt_cases (Z.abs startDate) 8640000000000000) as [Hs|Hs].
    - exact (@sub_whole_nonpositive _ _ _ _ (@getTime_valid endDate He) (@getTime_valid startDate Hs) H).
    - rewrite (@getTime_invalid startDate Hs).
      change (Prim2SF nan) with S754_nan.
      destruct (Prim2SF (getTime endDate)); exact I. }
  destruct (@ceil_nonpositive _ Hn) as [->|(n & -> & Hle)]; [reflexivity|].
  unfold rounds. replace (Z.to_nat n) with 0%nat by lia. reflexivity.
Qed.

End Whole.

(** ** The sign of a difference of doubles *)
Module Sign.
Import Whole.












End Sign.


(** ** The day count of a range of dates *)
Module Quotient.
Import Whole.

Lemma digits_unique (p : positive) (k : Z) :
  (2 ^ (k - 1) <= Zpos p < 2 ^ k)%Z -> Zpos (digits2_pos p) = k.
Proof.
  intros [Hlo Hhi]. pose proof (digits_bounds p) as [Dlo Dhi].
  set (kd := Zpos (digits2_pos p)) in *.
  assert (0 < k)%Z as Hk.
  { destruct (Z.lt_ge_cases 0 k) as [H|H]; [exact H|].
    destruct k as [|k|k]; [simpl in Hhi; lia | lia | simpl in Hhi; lia]. }
  destruct (Z.lt_trichotomy kd k) as [H|[H|H]]; [|exact H|].
  - assert (2 ^ kd <= 2 ^ (k - 1))%Z by (apply Z.pow_le_mono_r; lia). lia.
  - assert (2 ^ k <= 2 ^ (kd - 1))%Z by (apply Z.pow_le_mono_r; lia). lia.
Qed.

(** The first shift of a rounding: none for a mantissa of 53 bits, one bit
    for a mantissa of 54 bits. *)
Lemma shr_fexp_53 (q : positive) (e : Z) (l : SpecFloat.location) :
  (2 ^ 52 <= Zpos q < 2 ^ 53)%Z -> (-1074 <= e)%Z ->
  shr_fexp prec emax (Zpos q) e l = (shr_record_of_loc (Zpos q) l, e).
Proof.
  intros Hq He. unfold shr_fexp, Zdigits2, fexp, SpecFloat.emin.
  rewrite (@digits_unique q 53 Hq).
  change (3 - emax - prec)%Z with (-1074)%Z. change prec with 53%Z.
  replace (Z.max (53 + e - 53) (-1074) - e)%Z with 0%Z by lia. reflexivity.
Qed.

Lemma shr_fexp_54 (q : positive) (e : Z) (l : SpecFloat.location) :
  (2 ^ 53 <= Zpos q < 2 ^ 54)%Z -> (-1075 <= e)%Z ->
  shr_fexp prec emax (Zpos q) e l = (shr_1 (shr_record_of_loc (Zpos q) l), (e + 1)%Z).
Proof.
  intros Hq He. unfold shr_fexp, Zdigits2, fexp, SpecFloat.emin.
  rewrite (@digits_unique q 54 Hq).
  change (3 - emax - prec)%Z with (-1074)%Z. change prec with 53%Z.
  replace (Z.max (54 + e - 53) (-1074) - e)%Z with 1%Z by lia. reflexivity.
Qed.

(** The second shift: of a rounded mantissa, which may have reached 2^53. *)
Lemma shr_fexp_settle (m e : Z) :
  (2 ^ 52 <= m <= 2 ^ 53)%Z -> (-1074 <= e)%Z ->
  exists (mf : positive) (ef : Z),
    shr_fexp prec emax m e loc_Exact
      = ({| shr_m := Zpos mf; shr_r := false; shr_s := false |}, ef) /\
    (e <= ef <= e + 1)%Z /\ (Zpos mf * 2 ^ (ef - e) = m)%Z.
Proof.
  intros Hm He. destruct m as [|p|p]; try (simpl in Hm; lia).
  destruct (Z.eq_dec (Zpos p) (2 ^ 53)) as [E|N].
  - assert (p = 9007199254740992%positive) as -> by (change (2 ^ 53)%Z with 9007199254740992%Z in E; lia).
    rewrite shr_fexp_54 by (change (2 ^ 53)%Z with 9007199254740992%Z;
                            change (2 ^ 54)%Z with 18014398509481984%Z; lia).
    exists 4503599627370496%positive, (e + 1)%Z.
    split; [reflexivity|]. split; [lia|]. replace (e + 1 - e)%Z with 1%Z by lia. reflexivity.
  - rewrite shr_fexp_53 by lia. exists p, e. split; [reflexivity|]. split; [lia|].
    rewrite Z.sub_diag. lia.
Qed.

(** The rounding of a quotient [q] of 53 or 54 bits, read at the exponent
    [e] it came with: [q] or a neighbour, and [q] itself when there is
    nothing to round. *)
Lemma binary_round_aux_near (q : positive) (e : Z) (l : SpecFloat.location) :
  (2 ^ 52 <= Zpos q < 2 ^ 54)%Z -> (-1074 <= e <= 960)%Z ->
  exists (mf : positive) (ef W : Z),
    binary_round_aux prec emax false (Zpos q) e l = S754_finite false mf ef /\
    (e <= ef <= e + 2)%Z /\ (Zpos mf * 2 ^ (ef - e) = W)%Z /\
    ((Zpos q < 2 ^ 53 /\ (W = Zpos q \/ W = Zpos q + 1) /\ (l = loc_Exact -> W = Zpos q))%Z
     \/
     (2 ^ 53 <= Zpos q /\
      ((Z.even (Zpos q) = true /\ W = Zpos q) \/
       (Z.even (Zpos q) = false /\
        (W = Zpos q + 1 \/ (W = Zpos q - 1 /\ l = loc_Exact)))))%Z).
Proof.
  intros Hq He. unfold binary_round_aux.
  destruct (Z.lt_ge_cases (Zpos q) (2 ^ 53)) as [H53|H54].
  - rewrite shr_fexp_53 by lia.
    set (m1 := round_nearest_even (shr_m (shr_record_of_loc (Zpos q) l))
                 (loc_of_shr_record (shr_record_of_loc (Zpos q) l))).
    assert ((m1 = Zpos q \/ m1 = Zpos q + 1) /\ (l = loc_Exact -> m1 = Zpos q))%Z as [Hm Hex].
    { unfold m1.
      destruct l as [|[]];
        cbn [shr_record_of_loc shr_m loc_of_shr_record round_nearest_even].
      - split; auto.
      - destruct (Z.even (Zpos q)); split; auto; discriminate.
      - split; [auto | discriminate].
      - split; [auto | discriminate]. }
    destruct (@shr_fexp_settle m1 e ltac:(lia) ltac:(lia)) as (mf & ef & -> & Hef & Hv).
    cbn [shr_m]. exists mf, ef, m1. change (emax - prec)%Z with 971%Z.
    destruct (Z.leb_spec ef 971); [|lia].
    split; [reflexivity|]. split; [lia|]. split; [exact Hv|]. left. auto.
  - rewrite shr_fexp_54 by lia.
    set (rec := shr_1 (shr_record_of_loc (Zpos q) l)).
    set (m1 := round_nearest_even (shr_m rec) (loc_of_shr_record rec)).
    assert (2 ^ 52 <= m1 <= 2 ^ 53 /\
            ((Z.even (Zpos q) = true /\ 2 * m1 = Zpos q) \/
             (Z.even (Zpos q) = false /\
              (2 * m1 = Zpos q + 1 \/ (2 * m1 = Zpos q - 1 /\ l = loc_Exact)))))%Z as [Hm Hc].
    { unfold m1, rec. destruct q as [p|p|]; [| |simpl in H54; lia].
      - (* odd *)
        assert (Z.even (2 * Zpos p + 1) = false) as Hodd
          by (rewrite Z.even_add, Z.even_mul; reflexivity).
        destruct l as [|[]]; cbn [shr_record_of_loc shr_1 orb shr_m loc_of_shr_record
                                   round_nearest_even];
          change (Zpos p~1) with (2 * Zpos p + 1)%Z in *.
        + destruct (Z.even (Zpos p)); (split; [lia|]); right; (split; [exact Hodd|]).
          * right. split; [lia | reflexivity].
          * left. lia.
        + destruct (Z.even (Zpos p)); (split; [lia|]); right; (split; [exact Hodd|]); left; lia.
        + split; [lia|]. right. split; [exact Hodd|]. left. lia.
        + split; [lia|]. right. split; [exact Hodd|]. left. lia.
      - (* even *)
        destruct l as [|[]]; cbn [shr_record_of_loc shr_1 orb shr_m loc_of_shr_record
                                   round_nearest_even];
          change (Zpos p~0) with (2 * Zpos p)%Z in *;
          (split; [lia|]); left; (split; [rewrite Z.even_mul; reflexivity | lia]). }
    destruct (@shr_fexp_settle m1 (e + 1) ltac:(lia) ltac:(lia)) as (mf & ef & -> & Hef & Hv).
    cbn [shr_m]. exists mf, ef, (2 * m1)%Z. change (emax - prec)%Z with 971%Z.
    destruct (Z.leb_spec ef 971); [|lia].
    split; [reflexivity|]. split; [lia|]. split.
    + replace (ef - e)%Z with (ef - (e + 1) + 1)%Z by lia.
      rewrite Z.pow_add_r by lia. change (2 ^ 1)%Z with 2%Z. lia.
    + right. split; [exact H54|]. destruct Hc as [[Hev Hw]|[Hev Hw]]; [left|right]; split; trivial; lia.
Qed.

(** Shifting out bits that are zero loses nothing. *)
Lemma iter_shr_exact (n : positive) : forall Q : positive,
  iter_pos shr_1 n {| shr_m := Zpos (Pos.iter xO Q n); shr_r := false; shr_s := false |}
  = {| shr_m := Zpos Q; shr_r := false; shr_s := false |}.
Proof.
  induction n as [n IH|n IH|]; intros Q; cbn [iter_pos Pos.iter].
  - cbn [shr_1 orb]. rewrite IH. apply IH.
  - rewrite IH. apply IH.
  - reflexivity.
Qed.

Lemma iter_xO_of_value (P Q d : positive) :
  Zpos P = (Zpos Q * 2 ^ Zpos d)%Z -> P = Pos.iter xO Q d.
Proof. intros H. rewrite <- iter_xO_value in H. now injection H. Qed.

(** A mantissa that is a whole number below 2^53 times a power of two is
    rounded to that whole number. *)
Lemma binary_round_exact (s : bool) (P : positive) (ez : Z) (c : positive) :
  (-52 <= ez <= 0)%Z -> Zpos P = (Zpos c * 2 ^ (- ez))%Z -> (Zpos c < 2 ^ 53)%Z ->
  F.whole (binary_round prec emax s P ez) (if s then Zneg c else Zpos c).
Proof.
  intros Hez HP Hc. pose proof (digits_bounds c) as [Clo Chi].
  set (k := Zpos (digits2_pos c)) in *.
  assert (1 <= k <= 53)%Z as Hk.
  { split; [unfold k; lia|].
    destruct (Z.le_gt_cases k 53) as [H|H]; [exact H|].
    assert (2 ^ 53 <= 2 ^ (k - 1))%Z by (apply Z.pow_le_mono_r; lia). lia. }
  assert (0 < 2 ^ (- ez))%Z as Hpow by (apply Z.pow_pos_nonneg; lia).
  assert (Zpos (digits2_pos P) = k - ez)%Z as HdP.
  { apply digits_unique. rewrite HP.
    replace (k - ez - 1)%Z with (k - 1 + - ez)%Z by lia.
    replace (k - ez)%Z with (k + - ez)%Z by lia.
    rewrite !Z.pow_add_r by lia. nia. }
  (* the whole number with its 53 bits *)
  assert (exists Q : positive, Zpos Q = (Zpos c * 2 ^ (53 - k))%Z /\ digits2_pos Q = 53%positive)
    as (Q & HQ & HdQ).
  { assert (0 < 2 ^ (53 - k))%Z as Hp by (apply Z.pow_pos_nonneg; lia).
    exists (Z.to_pos (Zpos c * 2 ^ (53 - k))).
    assert (Zpos (Z.to_pos (Zpos c * 2 ^ (53 - k))) = Zpos c * 2 ^ (53 - k))%Z as E
      by (apply Z2Pos.id; nia).
    split; [exact E|].
    assert (Zpos (digits2_pos (Z.to_pos (Zpos c * 2 ^ (53 - k)))) = 53)%Z as E'; [|lia].
    apply digits_unique. rewrite E.
    assert (2 ^ (53 - 1) = 2 ^ (k - 1) * 2 ^ (53 - k))%Z as H52
      by (rewrite <- Z.pow_add_r by lia; f_equal; lia).
    assert (2 ^ 53 = 2 ^ k * 2 ^ (53 - k))%Z as H53
      by (rewrite <- Z.pow_add_r by lia; f_equal; lia).
    rewrite H52, H53. nia. }
  assert (F.whole (S754_finite s Q (k - 53)) (if s then Zneg c else Zpos c)) as Hw.
  { cbn [F.whole]. split; [exact HdQ|]. split; [lia|].
    replace (- (k - 53))%Z with (53 - k)%Z by lia.
    destruct s; [change (Zneg Q) with (- Zpos Q)%Z; change (Zneg c) with (- Zpos c)%Z|]; lia. }
  unfold binary_round, shl_align, fexp, SpecFloat.emin.
  change (3 - emax - prec)%Z with (-1074)%Z. change prec with 53%Z.
  rewrite HdP.
  replace (Z.max (k - ez + ez - 53) (-1074))%Z with (k - 53)%Z by lia.
  destruct (k - 53 - ez)%Z as [|dd|dd] eqn:Ed.
  - (* the mantissa has its 53 bits *)
    assert (P = Q) as ->.
    { assert (Zpos P = Zpos Q) as E; [|now injection E].
      rewrite HP, HQ. f_equal. f_equal. lia. }
    replace ez with (k - 53)%Z by lia.
    rewrite binary_round_aux_canonical by (trivial; lia). exact Hw.
  - (* bits to shift out, all zero *)
    assert (P = Pos.iter xO Q dd) as ->.
    { apply iter_xO_of_value. rewrite HP, HQ.
      replace (- ez)%Z with (53 - k + Zpos dd)%Z by lia. rewrite Z.pow_add_r by lia. lia. }
    unfold binary_round_aux, shr_fexp, Zdigits2, fexp, SpecFloat.emin.
    change (3 - emax - 53)%Z with (-1074)%Z.
    rewrite iter_xO_digits, HdQ.
    replace (Z.max (Zpos (53 + dd) + ez - 53) (-1074) - ez)%Z with (Zpos dd) by lia.
    cbn [shr shr_record_of_loc]. rewrite iter_shr_exact.
    cbn [shr_m loc_of_shr_record round_nearest_even]. rewrite HdQ.
    replace (Z.max (53 + (ez + Zpos dd) - 53) (-1074) - (ez + Zpos dd))%Z with 0%Z by lia.
    cbn [shr shr_m]. change (emax - 53)%Z with 971%Z.
    destruct (Z.leb_spec (ez + Zpos dd) 971); [|lia].
    replace (ez + Zpos dd)%Z with (k - 53)%Z by lia. exact Hw.
  - (* bits to add *)
    assert (Pos.iter xO P dd = Q) as E.
    { assert (Zpos (Pos.iter xO P dd) = Zpos Q) as E; [|now injection E].
      rewrite iter_xO_value, HP, HQ.
      replace (53 - k)%Z with (- ez + Zpos dd)%Z by lia. rewrite Z.pow_add_r by lia. lia. }
    cbn [fst snd]. rewrite E.
    rewrite binary_round_aux_canonical by (trivial; lia). exact Hw.
Qed.

(** The difference of two whole numbers held by doubles is held exactly
    when it is below 2^53 in magnitude. *)
Lemma sub_whole_exact (x y : spec_float) (a b : Z) :
  F.whole x a -> F.whole y b -> (Z.abs (a - b) < 2 ^ 53)%Z -> F.whole (SF64sub x y) (a - b).
Proof.
  intros Hx Hy Hab.
  destruct x as [sx|sx| |sx mx ex], y as [sy|sy| |sy my ey]; cbn [F.whole] in Hx, Hy;
    try contradiction.
  - subst. destruct sx, sy; reflexivity.
  - subst a. cbn [SF64sub SFsub F.whole]. destruct Hy as (Hd & He & Hv).
    split; [exact Hd|]. split; [exact He|].
    destruct sy; cbn [negb];
      [change (Zneg my) with (- Zpos my)%Z in Hv | change (Zneg my) with (- Zpos my)%Z]; lia.
  - subst b. cbn [SF64sub SFsub F.whole]. destruct Hx as (Hd & He & Hv).
    split; [exact Hd|]. split; [exact He|]. rewrite Hv. f_equal. lia.
  - unfold SF64sub, SFsub.
    rewrite (@aligned_value sx mx ex (Z.min ex ey) a Hx) by lia.
    rewrite (@aligned_value sy my ey (Z.min ex ey) b Hy) by lia.
    destruct Hx as (_ & Hex & _), Hy as (_ & Hey & _).
    set (ez := Z.min ex ey) in *.
    assert (0 < 2 ^ (- ez))%Z as Hpow by (apply Z.pow_pos_nonneg; lia).
    replace (a * 2 ^ (- ez) - b * 2 ^ (- ez))%Z with ((a - b) * 2 ^ (- ez))%Z by lia.
    destruct (a - b)%Z as [|c|c] eqn:Ec.
    + reflexivity.
    + assert (exists P, Zpos P = (Zpos c * 2 ^ (- ez))%Z) as (P & HP)
        by (exists (Z.to_pos (Zpos c * 2 ^ (- ez))); apply Z2Pos.id; nia).
      rewrite <- HP. cbn [binary_normalize].
      apply (@binary_round_exact false P ez c); [lia | exact HP | simpl in Hab; lia].
    + assert (exists P, Zpos P = (Zpos c * 2 ^ (- ez))%Z) as (P & HP)
        by (exists (Z.to_pos (Zpos c * 2 ^ (- ez))); apply Z2Pos.id; nia).
      replace (Zneg c * 2 ^ (- ez))%Z with (Zneg P) by (change (Zneg P) with (- Zpos P)%Z; lia).
      cbn [binary_normalize].
      apply (@binary_round_exact true P ez c); [lia | exact HP | simpl in Hab; lia].
Qed.

(** The quotient of a whole number of milliseconds by a day, rounded to a
    double, has the ceiling of the exact quotient. *)
Lemma div_day_ceil (m1 : positive) (e1 d : Z) :
  F.whole (S754_finite false m1 e1) d ->
  exists (mf : positive) (ef : Z),
    SF64div (S754_finite false m1 e1) (S754_finite false 5798205849600000 (-26))
      = S754_finite false mf ef /\
    (ef < 0)%Z /\ (- ((- Zpos mf) / 2 ^ (- ef)) = - ((- d) / 86400000))%Z.
Proof.
  intros (Hd1 & He1 & Hv).
  pose proof (digits_bounds m1) as Hm1. rewrite Hd1 in Hm1.
  change (2 ^ (53 - 1))%Z with 4503599627370496%Z in Hm1.
  change (2 ^ 53)%Z with 9007199254740992%Z in Hm1.
  set (X := (Zpos m1 * 134217728)%Z).
  set (q := (X / 86400000)%Z). set (rr := (X mod 86400000)%Z).
  assert (X = 86400000 * q + rr /\ 0 <= rr < 86400000)%Z as [HX Hrr].
  { split; [apply Z.div_mod; lia | apply Z.mod_pos_bound; lia]. }
  (* the quotient of the mantissas *)
  assert (SFdiv_core_binary prec emax (Zpos m1) e1 5798205849600000 (-26)
          = (q, (e1 - 27)%Z, new_location 5798205849600000 (rr * 67108864)%Z)) as Hcore.
  { unfold SFdiv_core_binary, Zdigits2, fexp, SpecFloat.emin. rewrite Hd1.
    change (digits2_pos 5798205849600000) with 53%positive.
    change (3 - emax - prec)%Z with (-1074)%Z. change prec with 53%Z.
    replace (Z.min (Z.max (53 + e1 - (53 + -26) - 53) (-1074)) (e1 - -26))%Z
      with (e1 - 27)%Z by lia.
    replace (e1 - -26 - (e1 - 27))%Z with 53%Z by lia. cbv iota.
    rewrite Z.shiftl_mul_pow2 by lia.
    assert (Zpos m1 * 2 ^ 53 = X * 67108864)%Z as EN
      by (unfold X; change (2 ^ 53)%Z with (134217728 * 67108864)%Z; lia).
    rewrite EN. change 5798205849600000%Z with (86400000 * 67108864)%Z at 1.
    pose proof (Z.div_mul_cancel_r X 86400000 67108864 ltac:(lia) ltac:(lia)) as Hq.
    pose proof (Z.mul_mod_distr_r X 86400000 67108864 ltac:(lia) ltac:(lia)) as Hr.
    unfold Z.div in Hq. unfold Z.modulo in Hr.
    destruct (Z.div_eucl (X * 67108864) (86400000 * 67108864)) as [q' r'].
    fold (X / 86400000)%Z in Hq. fold (X mod 86400000)%Z in Hr.
    subst q' r'. reflexivity. }
  unfold SF64div, SFdiv. rewrite Hcore. cbn [xorb].
  set (l := new_location 5798205849600000 (rr * 67108864)).
  assert ((rr = 0)%Z <-> l = loc_Exact) as Hl.
  { unfold l, new_location. change (Z.even 5798205849600000) with true. cbv iota.
    unfold new_location_even. destruct (Z.eqb_spec (rr * 67108864) 0) as [E|E].
    - split; [reflexivity | lia].
    - split; [lia | discriminate]. }
  clearbody l.
  assert (4503599627370496 <= q < 18014398509481984)%Z as Hq by (unfold X in HX; lia).
  destruct q as [|qp|qp] eqn:Eq; [lia | | lia].
  destruct (@binary_round_aux_near qp (e1 - 27) l) as (mf & ef & W & -> & Hef & HW & Hnear).
  { change (2 ^ 52)%Z with 4503599627370496%Z. change (2 ^ 54)%Z with 18014398509481984%Z. lia. }
  { lia. }
  exists mf, ef. split; [reflexivity|]. split; [lia|].
  (* the day count, and the day count times the scale *)
  set (k := (- (- d / 86400000))%Z).
  assert (86400000 * (k - 1) < d <= 86400000 * k)%Z as Hk.
  { pose proof (Z.div_mod (- d) 86400000 ltac:(lia)) as Hdm.
    pose proof (Z.mod_pos_bound (- d) 86400000 ltac:(lia)) as Hb. unfold k. lia. }
  set (P2 := (2 ^ (26 - e1))%Z).
  assert (67108864 <= P2)%Z as HP2.
  { unfold P2. change 67108864%Z with (2 ^ 26)%Z. apply Z.pow_le_mono_r; lia. }
  assert (X = d * (2 * P2))%Z as HXd.
  { unfold X, P2. rewrite Hv. replace (26 - e1)%Z with (- e1 + 26)%Z by lia.
    rewrite Z.pow_add_r by lia. change (2 ^ 26)%Z with 67108864%Z. lia. }
  set (a := (2 ^ (- ef))%Z). set (b := (2 ^ (ef - (e1 - 27)))%Z) in *.
  assert (0 < a /\ 0 < b)%Z as [Ha Hb] by (split; apply Z.pow_pos_nonneg; lia).
  assert (a * b = 2 * P2)%Z as Hab.
  { unfold a, b, P2. rewrite <- Z.pow_add_r by lia.
    replace (- ef + (ef - (e1 - 27)))%Z with (1 + (26 - e1))%Z by lia.
    rewrite Z.pow_add_r by lia. reflexivity. }
  (* the rounded quotient lies in the last of the k days *)
  assert ((k - 1) * (2 * P2) < W <= k * (2 * P2))%Z as HWk.
  { assert (X <= 86400000 * (k * (2 * P2)))%Z as Hup by nia.
    assert (86400000 * ((k - 1) * (2 * P2)) + 2 * P2 <= X)%Z as Hlo by nia.
    set (K2 := (k * P2)%Z) in *.
    replace (k * (2 * P2))%Z with (2 * K2)%Z in * by (unfold K2; lia).
    replace ((k - 1) * (2 * P2))%Z with (2 * K2 - 2 * P2)%Z in * by (unfold K2; lia).
    clearbody K2. clear HXd Hab Hcore Hv Hk. clearbody X q rr a b P2 k.
    assert (rr = 0 -> l = loc_Exact)%Z as Hl1 by apply Hl.
    assert (l = loc_Exact -> rr = 0)%Z as Hl2 by apply Hl.
    pose proof (Zmod_even (Zpos qp)) as Hev.
    assert (Zpos qp <= 2 * K2)%Z as Hq1 by lia.
    assert (2 * K2 - 2 * P2 <= Zpos qp)%Z as Hq2 by (clear Hev; lia).
    pose proof (Z.div_mod (Zpos qp) 2 ltac:(lia)) as Hq3.
    destruct Hnear as [(H53 & [HWq|HWq] & Hex)|(H54 & [[Heven HWq]|[Hodd [HWq|[HWq Hexact]]]])].
    - lia.
    - destruct (Z.eq_dec rr 0) as [E0|N0]; [specialize (Hex (Hl1 E0)); lia|]. lia.
    - lia.
    - rewrite Hodd in Hev. lia.
    - specialize (Hl2 Hexact). rewrite Hodd in Hev. lia. }
  rewrite <- Hab in HWk. rewrite <- HW in HWk. fold b in HWk.
  assert ((k - 1) * a < Zpos mf <= k * a)%Z as Hmf by nia.
  assert (- Zpos mf / a = - k)%Z as ->; [|fold k; lia].
  symmetry. apply (Z.div_unique_pos (- Zpos mf) a (- k) (k * a - Zpos mf)); lia.
Qed.

(** Between valid dates less than 2^53 milliseconds apart, the day count that
    the doubles give is the exact ceiling. *)
Lemma daysDiff_exact (startDate endDate : Date) :
  (Z.abs startDate <= 8640000000000000)%Z -> (Z.abs endDate <= 8640000000000000)%Z ->
  (0 < endDate - startDate < 2 ^ 53)%Z ->
  daysDiff startDate endDate = Some (- ((- (endDate - startDate)) / 86400000))%Z.
Proof.
  intros Hs He Hd. unfold daysDiff, F.ceil.
  rewrite div_spec, sub_spec.
  let d := eval vm_compute in (Prim2SF (1000 * 60 * 60 * 24)%float) in
  change (Prim2SF (1000 * 60 * 60 * 24)%float) with d.
  assert (Z.abs (endDate - startDate) < 2 ^ 53)%Z as Hb by lia.
  pose proof (@sub_whole_exact _ _ _ _ (@getTime_valid endDate He) (@getTime_valid startDate Hs) Hb)
    as Hw.
  destruct (SF64sub (Prim2SF (getTime endDate)) (Prim2SF (getTime startDate)))
    as [s|s| |s m e]; cbn [F.whole] in Hw; try contradiction; [lia|].
  pose proof (@whole_sign _ _ _ _ Hw) as [[Hneg _] _].
  destruct s; [specialize (Hneg eq_refl); lia|].
  destruct (@div_day_ceil _ _ _ Hw) as (mf & ef & -> & Hef & Hc).
  destruct (Z.leb_spec 0 ef); [lia|]. f_equal. exact Hc.
Qed.

(** So the loop runs once for each day, begun ones included. *)
Lemma rounds_exact (startDate endDate : Date) :
  (Z.abs startDate <= 8640000000000000)%Z -> (Z.abs endDate <= 8640000000000000)%Z ->
  (0 <= endDate - startDate < 2 ^ 53)%Z ->
  rounds (daysDiff startDate endDate)
  = seq 0 (Z.to_nat (- ((- (endDate - startDate)) / 86400000))).
Proof.
  intros Hs He Hd. destruct (Z.eq_dec startDate endDate) as [E|N].
  - subst endDate. rewrite daysDiff_backwards by lia.
    replace (startDate - startDate)%Z with 0%Z by lia. reflexivity.
  - rewrite (@daysDiff_exact startDate endDate Hs He) by lia. reflexivity.
Qed.

(** Between the first and the last valid date the count is two hundred
    million days. *)
Lemma daysDiff_widest :
  daysDiff (-8640000000000000)%Z 8640000000000000%Z = Some 200000000%Z.
Proof. vm_compute. reflexivity. Qed.

End Quotient.

(** ** The day count is a number or NaN *)
Module Finite.
Import F Whole.

Lemma shr_1_bounds (mrs : shr_record) :
  (0 <= shr_m mrs)%Z -> (0 <= shr_m (shr_1 mrs) <= shr_m mrs)%Z.
Proof.
  destruct mrs as [m r s]. destruct m as [|[p|p|]|p]; cbn [shr_1 shr_m]; lia.
Qed.

Lemma iter_shr_bounds (n : positive) : forall mrs : shr_record,
  (0 <= shr_m mrs)%Z -> (0 <= shr_m (iter_pos shr_1 n mrs) <= shr_m mrs)%Z.
Proof.
  induction n as [n IH|n IH|]; intros mrs H; cbn [iter_pos].
  - pose proof (shr_1_bounds mrs H) as H1.
    pose proof (IH (shr_1 mrs) (proj1 H1)) as H2.
    pose proof (IH _ (proj1 H2)) as H3. lia.
  - pose proof (IH mrs H) as H2. pose proof (IH _ (proj1 H2)) as H3. lia.
  - now apply shr_1_bounds.
Qed.

Lemma shr_fexp_bounds (m e : Z) (l : SpecFloat.location) :
  (0 <= m)%Z ->
  (0 <= shr_m (fst (shr_fexp prec emax m e l)) <= m)%Z /\
  snd (shr_fexp prec emax m e l) = Z.max e (Z.max (Zdigits2 m + e - 53) (-1074)).
Proof.
  intros Hm. unfold shr_fexp, shr, fexp, SpecFloat.emin.
  change (3 - emax - prec)%Z with (-1074)%Z. change prec with 53%Z.
  assert (shr_m (shr_record_of_loc m l) = m) as Em by (destruct l as [|[]]; reflexivity).
  destruct (Z.max (Zdigits2 m + e - 53) (-1074) - e)%Z as [|p|p] eqn:E; cbn [fst snd].
  - rewrite Em. lia.
  - pose proof (iter_shr_bounds p (shr_record_of_loc m l)) as H. rewrite Em in H.
    specialize (H Hm). lia.
  - rewrite Em. lia.
Qed.

Lemma digits_succ (p : positive) :
  (digits2_pos (Pos.succ p) <= Pos.succ (digits2_pos p))%positive.
Proof.
  induction p as [p IH|p IH|]; cbn [Pos.succ digits2_pos]; lia.
Qed.

Lemma Zdigits2_le (a b : Z) : (0 <= a <= b)%Z -> (Zdigits2 a <= Zdigits2 b)%Z.
Proof.
  intros H. destruct a as [|p|p]; [|destruct b as [|q|q]|]; cbn [Zdigits2]; try lia.
  - destruct b; cbn [Zdigits2]; lia.
  - pose proof (digits_bounds p) as [Hp _]. pose proof (digits_bounds q) as [_ Hq].
    destruct (Z.le_gt_cases (Zpos (digits2_pos p)) (Zpos (digits2_pos q))) as [Hle|Hgt];
      [exact Hle|].
    assert (2 ^ Zpos (digits2_pos q) <= 2 ^ (Zpos (digits2_pos p) - 1))%Z
      by (apply Z.pow_le_mono_r; lia).
    lia.
Qed.

Lemma Zdigits2_below (m k : Z) : (0 <= m < 2 ^ k)%Z -> (0 <= k)%Z -> (Zdigits2 m <= k)%Z.
Proof.
  intros H Hk. destruct m as [|p|p]; cbn [Zdigits2]; [lia| |lia].
  pose proof (digits_bounds p) as [Hp _].
  destruct (Z.le_gt_cases (Zpos (digits2_pos p)) k) as [Hle|Hgt]; [exact Hle|].
  assert (2 ^ k <= 2 ^ (Zpos (digits2_pos p) - 1))%Z by (apply Z.pow_le_mono_r; lia).
  lia.
Qed.

Lemma round_nearest_even_bounds (m : Z) (l : SpecFloat.location) :
  (m <= round_nearest_even m l <= m + 1)%Z.
Proof.
  destruct l as [|[]]; cbn [round_nearest_even]; try lia. destruct (Z.even m); lia.
Qed.

Lemma Zdigits2_succ (m : Z) : (0 <= m)%Z -> (Zdigits2 (m + 1) <= Zdigits2 m + 1)%Z.
Proof.
  intros H. destruct m as [|p|p]; [cbn; lia| |lia].
  replace (Zpos p + 1)%Z with (Zpos (Pos.succ p)) by lia. cbn [Zdigits2].
  pose proof (digits_succ p). lia.
Qed.

Lemma binary_round_aux_number (s : bool) (m e : Z) (l : SpecFloat.location) :
  (0 <= m)%Z -> (Zdigits2 m <= 106)%Z -> (e <= 800)%Z ->
  number (Z.max (e + 107) (-1020)) (binary_round_aux prec emax s m e l).
Proof.
  intros Hm Hd He. unfold binary_round_aux.
  pose proof (shr_fexp_bounds e l Hm) as [Hm1 He1].
  destruct (shr_fexp prec emax m e l) as [mrs' e']. cbn [fst snd] in Hm1, He1.
  pose proof (round_nearest_even_bounds (shr_m mrs') (loc_of_shr_record mrs')) as Hr.
  set (m2 := round_nearest_even (shr_m mrs') (loc_of_shr_record mrs')) in *.
  assert (0 <= m2)%Z as Hm2 by lia.
  pose proof (shr_fexp_bounds e' loc_Exact Hm2) as [Hm3 He3].
  destruct (shr_fexp prec emax m2 e' loc_Exact) as [mrs'' e'']. cbn [fst snd] in Hm3, He3.
  assert (Zdigits2 m2 <= 107)%Z as Hd2.
  { pose proof (@Zdigits2_le m2 (shr_m mrs' + 1) ltac:(lia)).
    pose proof (@Zdigits2_succ (shr_m mrs') ltac:(lia)).
    pose proof (@Zdigits2_le (shr_m mrs') m ltac:(lia)). lia. }
  destruct (shr_m mrs'') as [|p|p]; [exact I| |lia].
  change (emax - prec)%Z with 971%Z.
  destruct (Z.leb_spec e'' 971); cbn [number]; lia.
Qed.
Lemma number_le (b b' : Z) (f : spec_float) : (b <= b')%Z -> number b f -> number b' f.
Proof. intros H. destruct f; cbn [number]; trivial. lia. Qed.

Lemma binary_round_number (s : bool) (p : positive) (e : Z) :
  (Zpos (digits2_pos p) <= 106)%Z -> (e <= 800)%Z ->
  number (Z.max (e + 107) (-1020)) (binary_round prec emax s p e).
Proof.
  intros Hd He. unfold binary_round, shl_align, fexp, SpecFloat.emin.
  change (3 - emax - prec)%Z with (-1074)%Z. change prec with 53%Z.
  destruct (Z.max (Zpos (digits2_pos p) + e - 53) (-1074) - e)%Z as [|d|d] eqn:E.
  - apply binary_round_aux_number; [lia | exact Hd | exact He].
  - apply binary_round_aux_number; [lia | exact Hd | exact He].
  - eapply number_le; [|apply binary_round_aux_number].
    + lia.
    + lia.
    + cbn [Zdigits2]. rewrite iter_xO_digits. lia.
    + lia.
Qed.

(** The difference of two whole numbers held by doubles is a number. *)
Lemma sub_whole_number (x y : spec_float) (a b : Z) :
  F.whole x a -> F.whole y b -> number 107 (SF64sub x y).
Proof.
  intros Hx Hy.
  destruct x as [sx|sx| |sx mx ex], y as [sy|sy| |sy my ey]; cbn [F.whole] in Hx, Hy;
    try contradiction.
  - destruct sx, sy; exact I.
  - cbn. lia.
  - cbn. lia.
  - unfold SF64sub, SFsub.
    rewrite (@aligned_value sx mx ex (Z.min ex ey) a Hx) by lia.
    rewrite (@aligned_value sy my ey (Z.min ex ey) b Hy) by lia.
    destruct Hx as (Hdx & Hex & Hvx), Hy as (Hdy & Hey & Hvy).
    pose proof (digits_bounds mx) as [_ Hmx]. pose proof (digits_bounds my) as [_ Hmy].
    rewrite Hdx in Hmx. rewrite Hdy in Hmy.
    change (2 ^ 53)%Z with 9007199254740992%Z in Hmx, Hmy.
    assert (1 <= 2 ^ (- ex))%Z as Hpx by (apply Z.lt_pred_le, Z.pow_pos_nonneg; lia).
    assert (1 <= 2 ^ (- ey))%Z as Hpy by (apply Z.lt_pred_le, Z.pow_pos_nonneg; lia).
    assert (Z.abs a < 9007199254740992)%Z as Ha.
    { destruct sx; [change (Zneg mx) with (- Zpos mx)%Z in Hvx|]; nia. }
    assert (Z.abs b < 9007199254740992)%Z as Hb.
    { destruct sy; [change (Zneg my) with (- Zpos my)%Z in Hvy|]; nia. }
    set (ez := Z.min ex ey) in *.
    assert (0 < 2 ^ (- ez) <= 4503599627370496)%Z as Hpow.
    { split; [apply Z.pow_pos_nonneg; lia|].
      change 4503599627370496%Z with (2 ^ 52)%Z. apply Z.pow_le_mono_r; lia. }
    set (P := (2 ^ (- ez))%Z) in *.
    assert (Z.abs (a * P - b * P) < 2 ^ 106)%Z as Hd.
    { change (2 ^ 106)%Z with (18014398509481984 * 4503599627370496)%Z. nia. }
    destruct (a * P - b * P)%Z as [|p|p]; cbn [binary_normalize].
    + exact I.
    + eapply number_le; [|apply binary_round_number]; [lia| |lia].
      apply (@Zdigits2_below (Zpos p) 106); simpl in Hd; lia.
    + eapply number_le; [|apply binary_round_number]; [lia| |lia].
      apply (@Zdigits2_below (Zpos p) 106); simpl in Hd; lia.
Qed.

(** So is its quotient by the milliseconds of a day. *)
Lemma div_day_number (s : bool) (m1 : positive) (e1 : Z) :
  (Zpos (digits2_pos m1) <= 53)%Z -> (e1 <= 107)%Z ->
  number 400 (SF64div (S754_finite s m1 e1) (S754_finite false 5798205849600000 (-26))).
Proof.
  intros Hd He. unfold SF64div, SFdiv, SFdiv_core_binary, fexp, SpecFloat.emin.
  change (3 - emax - prec)%Z with (-1074)%Z. change prec with 53%Z.
  change (Zdigits2 (Zpos 5798205849600000)) with 53%Z. cbn [Zdigits2].
  set (d1 := Zpos (digits2_pos m1)) in *.
  set (e' := Z.min (Z.max (d1 + e1 - (53 + -26) - 53) (-1074)) (e1 - -26)).
  set (m' := match (e1 - -26 - e')%Z with
             | Z0 => Zpos m1
             | Zpos _ => Z.shiftl (Zpos m1) (e1 - -26 - e')
             | Zneg _ => 0%Z
             end).
  assert (0 <= e1 - -26 - e' /\ d1 + (e1 - -26 - e') <= 106)%Z as [Hs Hds] by (unfold e'; lia).
  pose proof (digits_bounds m1) as [_ Hm1]. fold d1 in Hm1.
  assert (0 <= m' < 2 ^ 106)%Z as Hm'.
  { assert (2 ^ (d1 + (e1 - -26 - e')) <= 2 ^ 106)%Z as Hp by (apply Z.pow_le_mono_r; lia).
    unfold m'. destruct (e1 - -26 - e')%Z as [|sh|sh] eqn:Es.
    - rewrite Z.add_0_r in Hp. lia.
    - rewrite Z.shiftl_mul_pow2 by lia. rewrite Z.pow_add_r in Hp by lia.
      assert (0 < 2 ^ Zpos sh)%Z by (apply Z.pow_pos_nonneg; lia). nia.
    - lia. }
  pose proof (Z_div_mod m' 5798205849600000 ltac:(lia)) as Hdm.
  destruct (Z.div_eucl m' 5798205849600000) as [q r]. destruct Hdm as [Hq Hr].
  assert (0 <= q <= m')%Z as Hqb by nia.
  eapply number_le; [|apply binary_round_aux_number].
  - unfold e'. lia.
  - lia.
  - apply Zdigits2_below; lia.
  - unfold e'. lia.
Qed.

(** The day count between two valid dates is a number, and NaN when a date
    is not valid: it is never an infinity. *)
Lemma daysDiff_number (startDate endDate : Date) :
  (Z.abs startDate <= 8640000000000000)%Z -> (Z.abs endDate <= 8640000000000000)%Z ->
  exists n, daysDiff startDate endDate = Some n.
Proof.
  intros Hs He. unfold daysDiff, F.ceil. rewrite div_spec.
  let d := eval vm_compute in (Prim2SF (1000 * 60 * 60 * 24)%float) in
  change (Prim2SF (1000 * 60 * 60 * 24)%float) with d.
  pose proof (Prim2SF_valid (getTime endDate - getTime startDate)) as Hv.
  rewrite sub_spec in *.
  pose proof (@sub_whole_number _ _ _ _ (@getTime_valid endDate He) (@getTime_valid startDate Hs))
    as Hn.
  destruct (SF64sub (Prim2SF (getTime endDate)) (Prim2SF (getTime startDate)))
    as [s|s| |s m e]; cbn [number] in Hn; try contradiction.
  - cbn. eauto.
  - assert (Zpos (digits2_pos m) <= 53)%Z as Hd.
    { cbn [valid_binary] in Hv. unfold bounded, canonical_mantissa, fexp, SpecFloat.emin in Hv.
      apply andb_true_iff in Hv. destruct Hv as [Hc _]. apply Z.eqb_eq in Hc.
      change (3 - emax - prec)%Z with (-1074)%Z in Hc. change prec with 53%Z in Hc. lia. }
    pose proof (@div_day_number s m e Hd Hn) as Hq.
    destruct (SF64div (S754_finite s m e) (S754_finite false 5798205849600000 (-26)));
      cbn [number] in Hq; try contradiction; eauto.
Qed.

Lemma daysDiff_invalid (startDate endDate : Date) :
  (8640000000000000 < Z.abs startDate)%Z \/ (8640000000000000 < Z.abs endDate)%Z ->
  daysDiff startDate endDate = None.
Proof.
  intros H. unfold daysDiff, F.ceil. rewrite div_spec, sub_spec.
  let d := eval vm_compute in (Prim2SF (1000 * 60 * 60 * 24)%float) in
  change (Prim2SF (1000 * 60 * 60 * 24)%float) with d.
  assert (SF64sub (Prim2SF (getTime endDate)) (Prim2SF (getTime startDate)) = S754_nan) as ->;
    [|reflexivity].
  destruct H as [H|H]; rewrite (@getTime_invalid _ H); change (Prim2SF nan) with S754_nan.
  - destruct (Prim2SF (getTime endDate)); reflexivity.
  - reflexivity.
Qed.

End Finite.
(** ** The code over any numbers *)
Section Generic.
Variable num : Type.
Context {Num : Number num} {Lib : Builtins num} {Env : Ambient num}.
Open Scope string_scope.

(** *** Loops *)

(** The results of [forEach] are those of its body, one after the other. *)
Lemma forEach_cons (A C : Type) (f : A -> M (list C)) (a : A) (l : list A) (w : World) :
  forEach f (a :: l) w =
  (fst (f a w) ++ fst (forEach f l (snd (f a w))), snd (forEach f l (snd (f a w))))%list.
Proof.
  simpl. unfold bind, ret. destruct (f a w) as [r w1]. simpl.
  destruct (forEach f l w1) as [rs w2]. reflexivity.
Qed.

(** When, under a view [v] of the results, what each step hands on is a
    function [g] of its argument, so is the whole. *)
Lemma forEach_view (A C D : Type) (f : A -> M (list C)) (v : C -> D) (g : A -> list D)
  (l : list A) :
  (forall a w, map v (fst (f a w)) = g a) ->
  forall w, map v (fst (forEach f l w)) = flat_map g l.
Proof.
  intros Hf. induction l as [|a l IH]; intros w.
  - reflexivity.
  - rewrite forEach_cons. simpl. rewrite map_app, Hf, IH. reflexivity.
Qed.

(** [forEach] hands on what its body hands on for each element, in order. *)
Lemma forEach_parts (A C : Type) (f : A -> M (list C)) (l : list A) : forall w,
  exists parts : list (list C),
    fst (forEach f l w) = List.concat parts /\
    Forall2 (fun a part => exists w', part = fst (f a w')) l parts.
Proof.
  induction l as [|a l IH]; intros w.
  - exists []. split; [reflexivity | constructor].
  - destruct (IH (snd (f a w))) as (parts & E & H).
    exists (fst (f a w) :: parts). split.
    + rewrite forEach_cons. simpl. now rewrite E.
    + constructor; [now exists w | exact H].
Qed.

(** *** Strings *)

Lemma lower_ascii_eqb (a b : ascii) :
  Ascii.eqb a b = true -> Ascii.eqb (Str.lower_ascii a) (Str.lower_ascii b) = true.
Proof. intros H. apply Ascii.eqb_eq in H. subst. apply Ascii.eqb_refl. Qed.

Lemma prefix_toLowerCase (p : string) : forall s,
  Str.prefix p s = true -> Str.prefix (Str.toLowerCase p) (Str.toLowerCase s) = true.
Proof.
  induction p as [|a p IH]; intros [|b s]; simpl; trivial.
  intros H. apply andb_true_iff in H. destruct H as [Hab Hp].
  now rewrite (lower_ascii_eqb _ _ Hab), IH.
Qed.

(** A message that holds a word holds its lower-case form once lowered. *)
Lemma includes_toLowerCase (sub s : string) :
  Str.includes s sub = true ->
  Str.includes (Str.toLowerCase s) (Str.toLowerCase sub) = true.
Proof.
  induction s as [|c s IH]; simpl; intros H.
  - apply orb_true_iff in H. destruct H as [H|H]; [|discriminate].
    apply prefix_toLowerCase in H. simpl in H. now rewrite H.
  - apply orb_true_iff in H. destruct H as [H|H].
    + apply prefix_toLowerCase in H. simpl in H. now rewrite H.
    + rewrite (IH H). apply orb_true_r.
Qed.

(** *** The data-source stub *)

(** C7. [detectThreats] raises, for each reading in order, a storm_surge
    alert when it is a tide_gauge reading above 2.5 (critical above 3, else
    high), then a cyclone alert when it is a weather_station reading above 60
    (critical above 80, else high), at the reading's location, and no other
    alert. *)
Theorem detectThreats_alerts (sensorData : list (SensorData num)) (w : World) :
  map (@alert_kind num) (fst (detectThreats sensorData w))
  = flat_map (@expected_threats num _) sensorData.
Proof.
  unfold detectThreats. apply forEach_view.
  intros a w0. unfold threatsOf, expected_threats, bind, ret, Date_now.
  destruct (SensorType_eqb (sd_type a) tide_gauge && num_ltb (num_lit 2.5) (sd_value a));
  destruct (SensorType_eqb (sd_type a) weather_station && num_ltb (num_lit 60) (sd_value a));
  reflexivity.
Qed.

(** C6. [authenticateUser] answers by the email alone: the NDMA emergency
    manager for rajesh@emergency.gov.in, nobody for unknown@x.com, the same
    for any two passwords, and in general the first user of the roster with
    that email, or nobody when the roster has none. *)
Theorem authenticateUser_ignores_password (email password : string) :
  authenticateUser "rajesh@emergency.gov.in" password =
    Some {| user_id := "user_001";
            user_name := "Dr. Rajesh Kumar";
            user_email := "rajesh@emergency.gov.in";
            user_role := "emergency_manager";
            user_organization := "National Disaster Management Authority";
            user_permissions := ["view_all"; "create_alerts"; "manage_users"] |}
  /\ authenticateUser "unknown@x.com" password = None
  /\ (forall password', authenticateUser email password' = authenticateUser email password)
  /\ match authenticateUser email password with
     | Some user =>
         user_email user = email /\
         exists before after,
           mockUsers = (before ++ user :: after)%list /\
           forall u, In u before -> user_email u <> email
     | None => forall u, In u mockUsers -> user_email u <> email
     end.
Proof.
  split; [reflexivity|]. split; [reflexivity|]. split; [reflexivity|].
  unfold authenticateUser, mockUsers. cbn [find user_email].
  destruct (String.eqb_spec "rajesh@emergency.gov.in" email) as [E1|N1].
  - split; [exact E1|]. exists []. eexists. split; [reflexivity|]. intros u [].
  - destruct (String.eqb_spec "priya@coastal.ngo" email) as [E2|N2].
    + split; [exact E2|]. eexists [_]. exists []. split; [reflexivity|].
      intros u [<-|[]]. exact N1.
    + intros u [<-|[<-|[]]]; assumption.
Qed.

(** *** getHistoricalData *)

(** The readings are dated a whole number of days after the start, one for
    each round of the loop. *)
Lemma getHistoricalData_timestamps (startDate endDate : Date) (w : World) :
  timestamps (fst (getHistoricalData startDate endDate w))
  = map (fun i => (startDate + Z.of_nat i * (1000 * 60 * 60 * 24))%Z)
        (rounds (daysDiff startDate endDate)).
Proof.
  unfold timestamps, getHistoricalData.
  rewrite forEach_view
    with (g := fun i => [(startDate + Z.of_nat i * (1000 * 60 * 60 * 24))%Z]).
  - induction (rounds _) as [|i l IH]; cbn [flat_map map app]; [reflexivity | now rewrite IH].
  - intros i w0. unfold historicalReading, bind, ret, Math_random. simpl. f_equal. lia.
Qed.

(** C5. Between two valid dates, the first before the second and less than
    2^53 milliseconds before it, [getHistoricalData] gives as many readings
    as there are days, begun ones included, from the first to the second; the
    i-th is dated i days after the first, so the dates increase strictly. *)
Theorem getHistoricalData_days (startDate endDate : Date) (w : World) :
  (Z.abs startDate <= 8640000000000000)%Z -> (Z.abs endDate <= 8640000000000000)%Z ->
  (startDate < endDate)%Z -> (endDate - startDate < 2 ^ 53)%Z ->
  let data := fst (getHistoricalData startDate endDate w) in
  let day := (1000 * 60 * 60 * 24)%Z in
  exists n : nat,
    ((Z.of_nat n - 1) * day < endDate - startDate <= Z.of_nat n * day)%Z /\
    List.length data = n /\
    map (@sd_timestamp num) data = map (fun i => (startDate + Z.of_nat i * day)%Z) (seq 0 n) /\
    StronglySorted Z.lt (map (@sd_timestamp num) data).
Proof.
  intros Hs He Hlt Hb data day.
  set (n := Z.to_nat (- ((- (endDate - startDate)) / 86400000))).
  assert (map (@sd_timestamp num) data
          = map (fun i => (startDate + Z.of_nat i * day)%Z) (seq 0 n)) as E.
  { unfold data. fold (timestamps (fst (getHistoricalData startDate endDate w))).
    rewrite getHistoricalData_timestamps.
    rewrite (@Quotient.rounds_exact startDate endDate Hs He) by lia. reflexivity. }
  exists n. split; [|split; [|split]].
  - unfold n, day.
    pose proof (Z.div_mod (- (endDate - startDate)) 86400000 ltac:(lia)) as Hdm.
    pose proof (Z.mod_pos_bound (- (endDate - startDate)) 86400000 ltac:(lia)) as Hm.
    set (q := (- (endDate - startDate) / 86400000)%Z) in *.
    assert (q < 0)%Z by lia.
    rewrite Z2Nat.id by lia. lia.
  - rewrite <- (length_map (@sd_timestamp num)), E, length_map, length_seq. reflexivity.
  - exact E.
  - rewrite E. clear. generalize 0%nat. induction n as [|n IH]; intros k; simpl.
    + constructor.
    + constructor; [apply IH|]. apply Forall_forall. intros x Hx.
      apply in_map_iff in Hx. destruct Hx as (i & <- & Hi). apply in_seq in Hi.
      unfold day. lia.
Qed.

(** *** The push channel *)

Lemma generateMockSensorData_first (w : World) :
  exists mockData rest, fst (generateMockSensorData (num:=num) w) = mockData :: rest.
Proof.
  unfold generateMockSensorData, locations. rewrite forEach_cons.
  assert (exists a rest, fst (mockReadings (num:=num)
            {| lat := num_lit 13.0827; lng := num_lit 80.2707; name := "Chennai Coast" |} w)
          = a :: rest) as (a & rest & E).
  { unfold mockReadings, bind, ret, Math_random, Date_now. cbn [fst].
    eexists. eexists. reflexivity. }
  cbn [fst]. rewrite E. eexists. eexists. reflexivity.
Qed.

(** The reading timer hands one reading to [onDataUpdate] each time it
    runs; the alert timer hands it none. *)
Lemma run_handler_readings (h : Handler) (w : World) :
  List.length (filter (@is_reading num) (fst (run_handler h w))) =
  match h with pushReading => 1%nat | pushAlert => 0%nat end.
Proof.
  destruct h; unfold run_handler, bind.
  - destruct (generateMockSensorData_first w) as (d & rest & E).
    destruct (generateMockSensorData w) as [data w']. simpl in E. subst data. reflexivity.
  - unfold Math_random. simpl.
    destruct (num_ltb (num_lit 0.95) (random (random_draws w))); [|reflexivity].
    unfold generateMockAlerts, bind, ret, Date_now. reflexivity.
Qed.

Lemma forEach_readings (l : list Timer) : forall w,
  List.length (filter (@is_reading num)
                 (fst (forEach (fun timer => run_handler (handler timer)) l w))) =
  List.length (filter (fun timer => match handler timer with
                                    | pushReading => true | pushAlert => false end) l).
Proof.
  induction l as [|tm l IH]; intros w.
  - reflexivity.
  - rewrite forEach_cons. simpl fst. rewrite filter_app, length_app, IH, run_handler_readings.
    simpl. destruct (handler tm); reflexivity.
Qed.

Lemma subscribe_app (starts : list Z) : forall timers,
  fold_left (fun timers now => connectWebSocket now timers) starts timers =
  (timers ++ flat_map (fun now => connectWebSocket now []) starts)%list.
Proof.
  induction starts as [|s starts IH]; intros timers; simpl.
  - now rewrite app_nil_r.
  - rewrite IH. unfold connectWebSocket. simpl. now rewrite <- app_assoc.
Qed.

Lemma due_readings_subscribed (t : Z) (starts : list Z) :
  List.length (filter (fun timer => match handler timer with
                                    | pushReading => true | pushAlert => false end)
                 (filter (due t) (flat_map (fun now => connectWebSocket now []) starts))) =
  List.length (filter (fun now => (now <? t)%Z && ((t - now) mod 5000 =? 0)%Z) starts).
Proof.
  induction starts as [|s starts IH]; [reflexivity|].
  cbn [flat_map]. rewrite !filter_app, !length_app, IH.
  unfold connectWebSocket. cbn [app filter]. unfold due. cbn [started period handler].
  destruct ((s <? t)%Z && ((t - s) mod 5000 =? 0)%Z);
    destruct ((s <? t)%Z && ((t - s) mod 10000 =? 0)%Z); reflexivity.
Qed.

(** At any instant, as many readings are delivered as there were calls of
    [connectWebSocket] a positive multiple of 5000 ms earlier. *)
Lemma readings_delivered_subscribed (starts : list Z) (t : Z) (w : World) :
  readings_delivered (num:=num) (subscribe starts) t w =
  List.length (filter (fun now => (now <? t)%Z && ((t - now) mod 5000 =? 0)%Z) starts).
Proof.
  unfold readings_delivered, tick. rewrite forEach_readings.
  unfold subscribe. rewrite subscribe_app. cbn [app].
  apply due_readings_subscribed.
Qed.

(** C8, as the code has it.  [connectWebSocket] keeps no record of earlier
    calls: after n calls at the time [now], n readings are delivered at each
    of the instants [now + 5000 * k], one for each call. *)
Theorem connectWebSocket_delivers_per_subscription (n : nat) (now k : Z) (w : World) :
  (1 <= k)%Z ->
  readings_delivered (num:=num) (subscribe (repeat now n)) (now + 5000 * k) w = n.
Proof.
  intros Hk. rewrite readings_delivered_subscribed.
  assert ((now <? now + 5000 * k)%Z && ((now + 5000 * k - now) mod 5000 =? 0)%Z = true) as E.
  { apply andb_true_iff. split; [apply Z.ltb_lt; lia|].
    apply Z.eqb_eq. replace (now + 5000 * k - now)%Z with (k * 5000)%Z by lia.
    apply Z.mod_mul. lia. }
  induction n as [|n IH]; [reflexivity|].
  cbn [repeat filter]. rewrite E. cbn [List.length]. now rewrite IH.
Qed.

(** *** The alert panel *)

(** C10. With the filter "all" the panel lists the alerts as they are; with
    any other filter it lists, in their order, the alerts whose severity is
    the filter, and only those. *)
Theorem filteredAlerts_by_severity (filterSeverity : string) (alerts : list (ThreatAlert num)) :
  (filterSeverity = "all" -> filteredAlerts filterSeverity alerts = alerts) /\
  (filterSeverity <> "all" ->
   filteredAlerts filterSeverity alerts =
     filter (fun a => String.eqb (Severity_string (ta_severity a)) filterSeverity) alerts /\
   (forall a, In a (filteredAlerts filterSeverity alerts) <->
              In a alerts /\ Severity_string (ta_severity a) = filterSeverity)).
Proof.
  unfold filteredAlerts. split.
  - intros ->. reflexivity.
  - intros H. apply String.eqb_neq in H. rewrite H. split; [reflexivity|].
    intros a. rewrite filter_In, String.eqb_eq. reflexivity.
Qed.

(** *** The threat heuristic *)

Lemma push_keys (acc : Groups num) (key : string) (sensor : SensorData num) :
  map fst (push acc key sensor) = map fst acc.
Proof.
  induction acc as [|[k v] acc IH]; simpl; trivial.
  destruct (String.eqb k key); simpl; congruence.
Qed.

Lemma reduce_groups_keys (data : list (SensorData num)) : forall acc groups,
  reduce_groups data acc = Returned groups ->
  forall key, In key (map fst groups) ->
    In key (map fst acc) \/ exists s, In s data /\ name (sd_location s) = key.
Proof.
  induction data as [|s data IH]; intros acc groups H key Hk; simpl in H.
  - injection H as <-. now left.
  - unfold group_sensor in H.
    destruct (own acc (name (sd_location s))).
    + destruct (IH _ _ H key Hk) as [Hin|(s' & Hs' & E)].
      * rewrite push_keys in Hin. now left.
      * right. exists s'. simpl. auto.
    + destruct (inherited (name (sd_location s))); [discriminate|].
      destruct (IH _ _ H key Hk) as [Hin|(s' & Hs' & E)].
      * rewrite push_keys, map_app in Hin. apply in_app_or in Hin.
        destruct Hin as [Hin|[<-|[]]]; [now left|].
        right. exists s. simpl. auto.
      * right. exists s'. simpl. auto.
Qed.

Lemma insert_by_index_In (e x : N * (string * list (SensorData num))) l :
  In x (insert_by_index e l) -> x = e \/ In x l.
Proof.
  induction l as [|e' l IH]; simpl.
  - intros [<-|[]]. now left.
  - destruct (fst e <? fst e')%N; simpl.
    + intros [<-|H]; auto.
    + intros [<-|H]; auto. destruct (IH H); auto.
Qed.

Lemma Object_entries_In (o : Groups num) (e : string * list (SensorData num)) :
  In e (Object_entries o) -> In e o.
Proof.
  unfold Object_entries. intros H. apply in_app_or in H. destruct H as [H|H].
  - apply in_map_iff in H. destruct H as ([n e'] & <- & H). simpl.
    assert (forall l x, In x (fold_right (@insert_by_index num) [] l) -> In x l) as Hs.
    { induction l as [|a l IH]; simpl; [tauto|]. intros x Hx.
      apply insert_by_index_In in Hx. destruct Hx; auto. }
    apply Hs in H. apply in_flat_map in H. destruct H as (e0 & He0 & H).
    destruct (Str.array_index (fst e0)); [|destruct H].
    destruct H as [H|[]]. injection H as _ <-. exact He0.
  - apply filter_In in H. tauto.
Qed.

(** *** [new Set] and the grouping by location *)

Lemma own_In (acc : Groups num) (key : string) (sensors : list (SensorData num)) :
  own acc key = Some sensors -> In key (map fst acc).
Proof.
  induction acc as [|[k v] acc IH]; simpl; [discriminate|].
  destruct (String.eqb_spec k key) as [->|]; auto.
Qed.

Lemma reduce_groups_throws (data : list (SensorData num)) : forall acc,
  Forall (fun key => inherited key = false) (map fst acc) ->
  (reduce_groups data acc = Thrown "TypeError: acc[key].push is not a function" <->
   exists s, In s data /\ inherited (name (sd_location s)) = true) /\
  (forall e, reduce_groups data acc = Thrown e ->
             e = "TypeError: acc[key].push is not a function").
Proof.
  induction data as [|s data IH]; intros acc Hacc.
  - simpl. split; [|discriminate]. split; [discriminate|]. intros (s & [] & _).
  - cbn [reduce_groups]. unfold group_sensor.
    destruct (own acc (name (sd_location s))) as [v|] eqn:Eo.
    + assert (inherited (name (sd_location s)) = false) as Hs.
      { apply own_In in Eo. rewrite Forall_forall in Hacc. now apply Hacc. }
      destruct (IH (push acc (name (sd_location s)) s)) as [IH1 IH2].
      { now rewrite push_keys. }
      split; [|exact IH2]. rewrite IH1. split.
      * intros (s' & Hs' & E). exists s'. split; [now right | exact E].
      * intros (s' & [<-|Hs'] & E); [congruence|]. now exists s'.
    + destruct (inherited (name (sd_location s))) eqn:Hs.
      * split; [|intros e [= <-]; reflexivity]. split; [|reflexivity].
        intros _. exists s. split; [now left | exact Hs].
      * destruct (IH (push (acc ++ [(name (sd_location s), [])])%list (name (sd_location s)) s))
          as [IH1 IH2].
        { rewrite push_keys, map_app. apply Forall_app. split; [exact Hacc|].
          constructor; [exact Hs | constructor]. }
        split; [|exact IH2]. rewrite IH1. split.
        -- intros (s' & Hs' & E). exists s'. split; [now right | exact E].
        -- intros (s' & [<-|Hs'] & E); [congruence|]. now exists s'.
Qed.

Lemma existsb_eqb_In (x : string) (l : list string) :
  existsb (String.eqb x) l = true <-> In x l.
Proof.
  rewrite existsb_exists. split.
  - intros (y & Hy & E). apply String.eqb_eq in E. now subst.
  - intros H. exists x. split; [exact H | apply String.eqb_refl].
Qed.

Lemma distinct_In (l : list string) : forall seen x,
  In x (distinct seen l) <-> In x l /\ ~ In x seen.
Proof.
  induction l as [|y l IH]; intros seen x; simpl.
  - tauto.
  - destruct (existsb (String.eqb y) seen) eqn:E.
    + apply existsb_eqb_In in E. rewrite IH. split.
      * tauto.
      * intros [[<-|H] Hn]; [contradiction | tauto].
    + assert (~ In y seen) as Hy.
      { intros H. apply existsb_eqb_In in H. congruence. }
      simpl. rewrite IH. simpl. split.
      * intros [<-|(H & Hn)]; [tauto|]. split; [tauto|]. intros H'. apply Hn. now right.
      * intros [[<-|H] Hn]; [now left|].
        destruct (String.eqb_spec y x) as [->|Hne]; [now left|]. right. split; [exact H|].
        intros [->|H']; [congruence | contradiction].
Qed.

Lemma distinct_NoDup (l : list string) : forall seen, NoDup (distinct seen l).
Proof.
  induction l as [|y l IH]; intros seen; simpl.
  - constructor.
  - destruct (existsb (String.eqb y) seen); [apply IH|].
    constructor; [|apply IH]. rewrite distinct_In. simpl. tauto.
Qed.

Lemma distinct_snoc (l : list string) : forall seen x,
  distinct seen (l ++ [x])%list =
  (distinct seen l ++
   if existsb (String.eqb x) seen || existsb (String.eqb x) l then [] else [x])%list.
Proof.
  induction l as [|y l IH]; intros seen x; simpl.
  - rewrite orb_false_r. destruct (existsb (String.eqb x) seen); reflexivity.
  - destruct (existsb (String.eqb y) seen) eqn:E.
    + rewrite IH. f_equal.
      destruct (String.eqb_spec x y) as [->|Hne]; [|reflexivity].
      now rewrite E.
    + simpl. rewrite IH. simpl. f_equal. f_equal.
      destruct (String.eqb x y), (existsb (String.eqb x) seen); reflexivity.
Qed.

Lemma reduce_groups_app (d1 d2 : list (SensorData num)) : forall acc,
  reduce_groups (d1 ++ d2) acc =
  match reduce_groups d1 acc with
  | Returned acc' => reduce_groups d2 acc'
  | Thrown e => Thrown e
  end.
Proof.
  induction d1 as [|s d1 IH]; intros acc; simpl; [reflexivity|].
  destruct (group_sensor acc s); [apply IH | reflexivity].
Qed.

Lemma own_map (f : string -> list (SensorData num)) (key : string) (keys : list string) :
  own (map (fun k => (k, f k)) keys) key =
  if existsb (String.eqb key) keys then Some (f key) else None.
Proof.
  induction keys as [|k keys IH]; simpl; [reflexivity|].
  rewrite (String.eqb_sym key k).
  destruct (String.eqb_spec k key) as [->|]; simpl; [reflexivity | exact IH].
Qed.

Lemma push_absent (acc : Groups num) (key : string) (s : SensorData num) :
  ~ In key (map fst acc) -> push acc key s = acc.
Proof.
  induction acc as [|[k v] acc IH]; simpl; [reflexivity|]. intros H.
  destruct (String.eqb_spec k key) as [->|]; [tauto|]. f_equal. apply IH. tauto.
Qed.

Lemma push_app_absent (acc tail : Groups num) (key : string) (s : SensorData num) :
  ~ In key (map fst acc) -> push (acc ++ tail)%list key s = (acc ++ push tail key s)%list.
Proof.
  induction acc as [|[k v] acc IH]; simpl; [reflexivity|]. intros H.
  destruct (String.eqb_spec k key) as [->|]; [tauto|]. f_equal. apply IH. tauto.
Qed.

Lemma push_map (f : string -> list (SensorData num)) (key : string) (s : SensorData num)
  (keys : list string) :
  NoDup keys ->
  push (map (fun k => (k, f k)) keys) key s =
  map (fun k => (k, if String.eqb k key then (f k ++ [s])%list else f k)) keys.
Proof.
  induction keys as [|k keys IH]; intros Hnd; simpl; [reflexivity|].
  inversion Hnd as [|? ? Hk Hnd']; subst.
  destruct (String.eqb_spec k key) as [->|Hne].
  - f_equal. apply map_ext_in. intros k' Hk'.
    destruct (String.eqb_spec k' key) as [->|]; [contradiction | reflexivity].
  - f_equal. now apply IH.
Qed.

Lemma at_location_snoc (key : string) (data : list (SensorData num)) (s : SensorData num) :
  at_location key (data ++ [s])%list =
  (at_location key data ++ if String.eqb (name (sd_location s)) key then [s] else [])%list.
Proof. unfold at_location. rewrite filter_app. reflexivity. Qed.

Lemma at_location_absent (key : string) (data : list (SensorData num)) :
  ~ In key (names data) -> at_location key data = [].
Proof.
  unfold at_location, names. induction data as [|s data IH]; simpl; [reflexivity|].
  intros H. destruct (String.eqb_spec (name (sd_location s)) key) as [E|]; [tauto|].
  apply IH. tauto.
Qed.

(** Without a location named like an inherited property, the grouping
    returns the groups by location. *)
Lemma reduce_groups_groups_of (sensorData : list (SensorData num)) :
  (forall s, In s sensorData -> inherited (name (sd_location s)) = false) ->
  reduce_groups sensorData [] = Returned (groups_of sensorData).
Proof.
  intros Hn.
  induction sensorData as [|s data IH] using rev_ind; [reflexivity|].
    rewrite reduce_groups_app, IH by (intros x Hx; apply Hn, in_or_app; now left).
    cbn [reduce_groups]. unfold group_sensor, groups_of at 1.
    set (key := name (sd_location s)).
    rewrite own_map.
    assert (names (data ++ [s])%list = (names data ++ [key])%list) as En
      by (unfold names; now rewrite map_app).
    destruct (existsb (String.eqb key) (distinct [] (names data))) eqn:E.
    + f_equal. unfold groups_of. rewrite push_map by apply distinct_NoDup.
      rewrite En, distinct_snoc. simpl existsb.
      assert (existsb (String.eqb key) (names data) = true) as E'.
      { apply existsb_eqb_In. apply existsb_eqb_In in E. apply distinct_In in E. tauto. }
      rewrite E', app_nil_r. apply map_ext. intros k. f_equal.
      rewrite at_location_snoc. fold key. rewrite (String.eqb_sym k key).
      destruct (String.eqb key k); [reflexivity | now rewrite app_nil_r].
    + assert (~ In key (names data)) as Hk.
      { intros H. assert (In key (distinct [] (names data))) as H'
          by (apply distinct_In; simpl; tauto).
        apply existsb_eqb_In in H'. congruence. }
      assert (inherited key = false) as Hi by (apply Hn, in_or_app; right; now left).
      rewrite Hi. f_equal. fold (groups_of data).
      rewrite push_app_absent.
      2:{ unfold groups_of. rewrite map_map. simpl. rewrite map_id.
          rewrite distinct_In. tauto. }
      cbn [push]. rewrite String.eqb_refl.
      unfold groups_of. rewrite En, distinct_snoc. simpl existsb.
      assert (existsb (String.eqb key) (names data) = false) as E'.
      { destruct (existsb (String.eqb key) (names data)) eqn:E''; trivial.
        apply existsb_eqb_In in E''. contradiction. }
      rewrite E', map_app. cbn [map]. f_equal.
      * apply map_ext_in. intros k Hkin. f_equal. rewrite at_location_snoc. fold key.
        destruct (String.eqb_spec key k) as [<-|]; [|now rewrite app_nil_r].
        apply distinct_In in Hkin. tauto.
      * cbn [orb map]. rewrite at_location_snoc, at_location_absent by exact Hk.
        fold key. now rewrite String.eqb_refl.
Qed.

(** *** Loops that may throw *)

Lemma collect_returned (A C : Type) (f : A -> Outcome (list C)) (l : list A) : forall r,
  collect f l = Returned r <->
  exists parts, Forall2 (fun a part => f a = Returned part) l parts /\ r = List.concat parts.
Proof.
  induction l as [|a l IH]; intros r; simpl.
  - split.
    + intros [= <-]. exists []. split; [constructor | reflexivity].
    + intros (parts & H & ->). inversion H. reflexivity.
  - split.
    + destruct (f a) as [found|e] eqn:Ea; [|discriminate].
      destruct (collect f l) as [rest|e] eqn:El; [|discriminate].
      intros [= <-]. destruct (proj1 (IH rest) eq_refl) as (parts & H & ->).
      exists (found :: parts). split; [constructor; assumption | reflexivity].
    + intros (parts & H & ->). inversion H as [|? part ? parts' Hp Hr]; subst.
      rewrite Hp. rewrite (proj2 (IH (List.concat parts'))); [reflexivity|].
      exists parts'. split; [exact Hr | reflexivity].
Qed.

Lemma collect_thrown (A C : Type) (f : A -> Outcome (list C)) (l : list A) (e : string) :
  collect f l = Thrown e -> exists a, In a l /\ f a = Thrown e.
Proof.
  induction l as [|a l IH]; simpl; [discriminate|].
  destruct (f a) as [found|e'] eqn:Ea.
  - destruct (collect f l) as [rest|e'']; [discriminate|].
    intros [= ->]. destruct (IH eq_refl) as (a' & Ha' & E). exists a'. auto.
  - intros [= ->]. exists a. auto.
Qed.

Lemma collect_returns (A C : Type) (f : A -> Outcome (list C)) (l : list A) :
  (forall a, In a l -> exists found, f a = Returned found) ->
  exists r, collect f l = Returned r.
Proof.
  intros H. destruct (collect f l) as [r|e] eqn:E; [now exists r|].
  apply collect_thrown in E. destruct E as (a & Ha & E).
  destruct (H a Ha) as (found & E'). congruence.
Qed.

(** *** One location *)

(** What the wind block hands on: nothing without wind reading, else a
    prediction for the highest value when it is above 60; it throws when the
    wind values are more than a call takes. *)
Lemma windAnomalies_cases (loc : string) (sensors : list (SensorData num)) :
  match windAnomalies loc sensors with
  | Returned wind =>
      (N.of_nat (List.length (of_type weather_station sensors)) <= arguments_limit)%N /\
      wind = match map (@sd_value num) (of_type weather_station sensors) with
             | [] => []
             | v :: vs => if num_ltb (num_lit 60) (Math_max_of v vs)
                          then [cyclonicActivity loc (Math_max_of v vs)] else []
             end
      \/ of_type weather_station sensors = [] /\ wind = []
  | Thrown e =>
      e = RangeError /\
      (arguments_limit < N.of_nat (List.length (of_type weather_station sensors)))%N
  end.
Proof.
  unfold windAnomalies, Math_max. rewrite length_map.
  destruct (of_type weather_station sensors) as [|s l] eqn:E.
  - right. split; reflexivity.
  - cbn [List.length Nat.ltb Nat.leb map].
    destruct (N.leb_spec (N.of_nat (S (List.length l))) arguments_limit) as [Hle|Hgt].
    + left. split; [exact Hle|]. reflexivity.
    + split; [reflexivity | exact Hgt].
Qed.

Lemma qualityAnomalies_cases (loc : string) (sensors : list (SensorData num)) :
  match qualityAnomalies loc sensors with
  | Returned quality =>
      (N.of_nat (List.length (of_type water_quality sensors)) <= arguments_limit)%N /\
      quality = match map (@sd_value num) (of_type water_quality sensors) with
                | [] => []
                | v :: vs => if num_ltb (Math_min_of v vs) (num_lit 40)
                             then [waterPollution loc (Math_min_of v vs)] else []
                end
      \/ of_type water_quality sensors = [] /\ quality = []
  | Thrown e =>
      e = RangeError /\
      (arguments_limit < N.of_nat (List.length (of_type water_quality sensors)))%N
  end.
Proof.
  unfold qualityAnomalies, Math_min. rewrite length_map.
  destruct (of_type water_quality sensors) as [|s l] eqn:E.
  - right. split; reflexivity.
  - cbn [List.length Nat.ltb Nat.leb map].
    destruct (N.leb_spec (N.of_nat (S (List.length l))) arguments_limit) as [Hle|Hgt].
    + left. split; [exact Hle|]. reflexivity.
    + split; [reflexivity | exact Hgt].
Qed.

(** The wind block hands on at most one prediction, of Cyclonic Activity at
    the location; the water-quality block at most one, of Water
    Pollution. *)
Lemma windAnomalies_one (loc : string) (sensors : list (SensorData num)) (wind : list (MLPrediction num)) :
  windAnomalies loc sensors = Returned wind ->
  wind = [] \/ exists maxWind, wind = [cyclonicActivity loc maxWind].
Proof.
  intros E. pose proof (windAnomalies_cases loc sensors) as H. rewrite E in H.
  destruct H as [[_ ->]|[_ ->]]; [|now left].
  destruct (map _ _); [now left|]. destruct (num_ltb _ _); [right; eauto | now left].
Qed.

Lemma qualityAnomalies_one (loc : string) (sensors : list (SensorData num))
  (quality : list (MLPrediction num)) :
  qualityAnomalies loc sensors = Returned quality ->
  quality = [] \/ exists minQuality, quality = [waterPollution loc minQuality].
Proof.
  intros E. pose proof (qualityAnomalies_cases loc sensors) as H. rewrite E in H.
  destruct H as [[_ ->]|[_ ->]]; [|now left].
  destruct (map _ _); [now left|]. destruct (num_ltb _ _); [right; eauto | now left].
Qed.

Lemma tideAnomalies_In (loc : string) (sensors : list (SensorData num)) (p : MLPrediction num) :
  In p (tideAnomalies loc sensors) ->
  exists sensor, In sensor (of_type tide_gauge sensors) /\
                 In p (tideAnomaly loc (of_type tide_gauge sensors) sensor).
Proof.
  unfold tideAnomalies. destruct (0 <? _)%nat; [|intros []].
  intros H. apply in_flat_map in H. exact H.
Qed.

Lemma locationAnomalies_returned (entry : string * list (SensorData num))
  (found : list (MLPrediction num)) :
  locationAnomalies entry = Returned found <->
  exists wind quality,
    windAnomalies (fst entry) (snd entry) = Returned wind /\
    qualityAnomalies (fst entry) (snd entry) = Returned quality /\
    found = (tideAnomalies (fst entry) (snd entry) ++ wind ++ quality)%list.
Proof.
  destruct entry as [loc sensors]. unfold locationAnomalies. cbn [fst snd].
  destruct (windAnomalies loc sensors) as [wind|e].
  - destruct (qualityAnomalies loc sensors) as [quality|e].
    + split.
      * intros [= <-]. exists wind, quality. auto.
      * intros (w' & q' & [= <-] & [= <-] & ->). reflexivity.
    + split; [discriminate|]. intros (w' & q' & _ & H & _). discriminate.
  - split; [discriminate|]. intros (w' & q' & H & _). discriminate.
Qed.

Lemma locationAnomalies_location (entry : string * list (SensorData num))
  (found : list (MLPrediction num)) (p : MLPrediction num) :
  locationAnomalies entry = Returned found -> In p found -> location p = fst entry.
Proof.
  intros E H. apply locationAnomalies_returned in E.
  destruct E as (wind & quality & Ew & Eq & ->).
  apply in_app_or in H. destruct H as [H|H]; [|apply in_app_or in H; destruct H as [H|H]].
  - apply tideAnomalies_In in H. destruct H as (s & _ & H). unfold tideAnomaly in H.
    destruct (num_ltb _ _); [|destruct H]. destruct H as [<-|[]]. reflexivity.
  - apply windAnomalies_one in Ew. destruct Ew as [->|(m & ->)]; [destruct H|].
    destruct H as [<-|[]]. reflexivity.
  - apply qualityAnomalies_one in Eq. destruct Eq as [->|(m & ->)]; [destruct H|].
    destruct H as [<-|[]]. reflexivity.
Qed.

(** What [detectAnomalies] returns is what the loop body hands on for each
    location group, one after the other. *)
Lemma detectAnomalies_returned (data : list (SensorData num)) (anomalies : list (MLPrediction num)) :
  detectAnomalies data = Returned anomalies <->
  exists groups parts,
    reduce_groups data [] = Returned groups /\
    Forall2 (fun entry part => locationAnomalies entry = Returned part)
            (Object_entries groups) parts /\
    anomalies = List.concat parts.
Proof.
  unfold detectAnomalies. destruct (reduce_groups data []) as [groups|e].
  - rewrite collect_returned. split.
    + intros (parts & H & ->). exists groups, parts. auto.
    + intros (g & parts & [= <-] & H & ->). exists parts. auto.
  - split; [discriminate|]. intros (g & parts & H & _). discriminate.
Qed.

Lemma Forall2_concat_In (A C : Type) (R : A -> list C -> Prop) (l : list A)
  (parts : list (list C)) (x : C) :
  Forall2 R l parts -> In x (List.concat parts) ->
  exists a part, In a l /\ R a part /\ In x part.
Proof.
  induction 1 as [|a part l parts Ha _ IH]; simpl; [intros []|].
  intros H. apply in_app_or in H. destruct H as [H|H].
  - exists a, part. auto.
  - destruct (IH H) as (a' & part' & Ha' & HR & Hx). exists a', part'. auto.
Qed.

(** Every prediction is for the location of some reading. *)
Lemma detectAnomalies_locations (data : list (SensorData num)) (anomalies : list (MLPrediction num)) :
  detectAnomalies data = Returned anomalies ->
  forall p, In p anomalies -> exists s, In s data /\ name (sd_location s) = location p.
Proof.
  intros H p Hp. apply detectAnomalies_returned in H.
  destruct H as (groups & parts & E & HF & ->).
  destruct (@Forall2_concat_In _ _ _ _ _ _ HF Hp) as (entry & part & He & Hpart & Hin).
  apply (locationAnomalies_location entry p Hpart) in Hin. apply Object_entries_In in He.
  destruct (reduce_groups_keys _ _ E (fst entry)) as [[]|(s & Hs & Hn)].
  - apply in_map. exact He.
  - exists s. split; [exact Hs | congruence].
Qed.

(** Returning, the grouping has met no location named like an inherited
    property, and its groups are the groups by location. *)
Lemma reduce_groups_returned (data : list (SensorData num)) (groups : Groups num) :
  reduce_groups data [] = Returned groups ->
  (forall s, In s data -> inherited (name (sd_location s)) = false) /\
  groups = groups_of data.
Proof.
  intros E.
  assert (forall s, In s data -> inherited (name (sd_location s)) = false) as Hn.
  { intros s Hs. destruct (inherited (name (sd_location s))) eqn:Hi; trivial.
    destruct (@reduce_groups_throws data []) as [H _]; [constructor|].
    assert (reduce_groups data [] = Thrown "TypeError: acc[key].push is not a function") as E'
      by (apply H; now exists s).
    congruence. }
  split; [exact Hn|]. rewrite (reduce_groups_groups_of _ Hn) in E. congruence.
Qed.

Lemma detectAnomalies_by_group (data : list (SensorData num)) (anomalies : list (MLPrediction num)) :
  detectAnomalies data = Returned anomalies ->
  exists parts,
    Forall2 (fun entry part => locationAnomalies entry = Returned part)
            (Object_entries (groups_of data)) parts /\
    anomalies = List.concat parts.
Proof.
  intros H. apply detectAnomalies_returned in H. destruct H as (groups & parts & E & HF & ->).
  apply reduce_groups_returned in E. destruct E as [_ ->]. exists parts. auto.
Qed.

(** *** The kinds of prediction *)

Lemma filter_all (A : Type) (f : A -> bool) (l : list A) :
  Forall (fun x => f x = true) l -> filter f l = l.
Proof. induction 1 as [|x l Hx _ IH]; simpl; [reflexivity|]. now rewrite Hx, IH. Qed.

Lemma filter_none (A : Type) (f : A -> bool) (l : list A) :
  Forall (fun x => f x = false) l -> filter f l = [].
Proof. induction 1 as [|x l Hx _ IH]; simpl; [reflexivity|]. now rewrite Hx, IH. Qed.

Lemma filter_concat (A : Type) (f : A -> bool) (parts : list (list A)) :
  filter f (List.concat parts) = List.concat (map (filter f) parts).
Proof. induction parts as [|p l IH]; simpl; [reflexivity|]. now rewrite filter_app, IH. Qed.

Lemma Forall2_map_r (A C D : Type) (R : A -> C -> Prop) (R' : A -> D -> Prop) (g : C -> D)
  (l : list A) (parts : list C) :
  (forall a part, In a l -> R a part -> R' a (g part)) ->
  Forall2 R l parts -> Forall2 R' l (map g parts).
Proof.
  intros H HF. induction HF as [|a part l parts Ha _ IH]; simpl; constructor.
  - apply H; [now left | exact Ha].
  - apply IH. intros a' part' Hin. apply H. now right.
Qed.

Lemma tideAnomalies_types (loc : string) (sensors : list (SensorData num)) :
  Forall (fun p => threatType p = "Storm Surge Risk" \/ threatType p = "Unusual Low Tide")
         (tideAnomalies loc sensors).
Proof.
  apply Forall_forall. intros p Hp. apply tideAnomalies_In in Hp.
  destruct Hp as (s & _ & Hp). unfold tideAnomaly in Hp.
  destruct (num_ltb _ _); [|destruct Hp]. destruct Hp as [<-|[]]. cbn [threatType].
  destruct (num_ltb _ _); auto.
Qed.

(** Of what the loop body hands on for a location, the tide block's part,
    the wind block's and the water-quality block's are told apart by the
    kind. *)
Lemma locationAnomalies_kinds (entry : string * list (SensorData num))
  (found : list (MLPrediction num)) :
  locationAnomalies entry = Returned found ->
  windAnomalies (fst entry) (snd entry) = Returned (of_kind "Cyclonic Activity" found) /\
  qualityAnomalies (fst entry) (snd entry) = Returned (of_kind "Water Pollution" found) /\
  tideAnomalies (fst entry) (snd entry) = of_tide found.
Proof.
  intros E. apply locationAnomalies_returned in E.
  destruct E as (wind & quality & Ew & Eq & ->). rewrite Ew, Eq.
  pose proof (tideAnomalies_types (fst entry) (snd entry)) as Ht.
  assert (Forall (fun p => threatType p = "Cyclonic Activity") wind) as Hw.
  { apply windAnomalies_one in Ew. destruct Ew as [->|(m & ->)]; repeat constructor. }
  assert (Forall (fun p => threatType p = "Water Pollution") quality) as Hq.
  { apply qualityAnomalies_one in Eq. destruct Eq as [->|(m & ->)]; repeat constructor. }
  unfold of_kind, of_tide. rewrite !filter_app.
  split; [|split].
  - rewrite (@filter_none _ _ (tideAnomalies (fst entry) (snd entry))),
            (@filter_all _ _ wind), (@filter_none _ _ quality).
    + now rewrite app_nil_r.
    + eapply Forall_impl; [|exact Hq]. intros p ->. reflexivity.
    + eapply Forall_impl; [|exact Hw]. intros p ->. reflexivity.
    + eapply Forall_impl; [|exact Ht]. intros p [-> | ->]; reflexivity.
  - rewrite (@filter_none _ _ (tideAnomalies (fst entry) (snd entry))),
            (@filter_none _ _ wind), (@filter_all _ _ quality).
    + reflexivity.
    + eapply Forall_impl; [|exact Hq]. intros p ->. reflexivity.
    + eapply Forall_impl; [|exact Hw]. intros p ->. reflexivity.
    + eapply Forall_impl; [|exact Ht]. intros p [-> | ->]; reflexivity.
  - rewrite (@filter_all _ _ (tideAnomalies (fst entry) (snd entry))),
            (@filter_none _ _ wind), (@filter_none _ _ quality).
    + now rewrite app_nil_r.
    + eapply Forall_impl; [|exact Hq]. intros p ->. reflexivity.
    + eapply Forall_impl; [|exact Hw]. intros p ->. reflexivity.
    + eapply Forall_impl; [|exact Ht]. intros p [-> | ->]; reflexivity.
Qed.

(** *** Readings with an offset on the tide values *)












Lemma groups_of_In (data : list (SensorData num)) (group : string * list (SensorData num)) :
  In group (Object_entries (groups_of data)) -> In group (groups_of data).
Proof. apply Object_entries_In. Qed.








Lemma alertsFor_likely (sensorData : list (SensorData num)) (prediction : MLPrediction num)
  (w : World) :
  num_ltb (num_lit 0.7) (probability prediction) = true ->
  (exists s, In s sensorData /\ name (sd_location s) = location prediction) ->
  exists threat, fst (alertsFor sensorData prediction w) = [threat] /\
                 name (ta_location threat) = location prediction.
Proof.
  intros Hp (s & Hs & Hn). unfold alertsFor. rewrite Hp.
  destruct (find _ sensorData) as [s'|] eqn:E.
  - apply find_some in E. destruct E as [_ E]. apply String.eqb_eq in E.
    unfold threatOf, bind, ret, Date_now, Math_random. cbn [fst].
    eexists. split; [reflexivity|]. exact E.
  - apply (find_none _ _ E) in Hs. apply String.eqb_neq in Hs. contradiction.
Qed.

(** The alert for a likely prediction, spelt out. *)
Lemma alertsFor_raised (sensorData : list (SensorData num)) (prediction : MLPrediction num)
  (s : SensorData num) (w : World) :
  num_ltb (num_lit 0.7) (probability prediction) = true ->
  find (fun s => String.eqb (name (sd_location s)) (location prediction)) sensorData = Some s ->
  fst (alertsFor sensorData prediction w) = [raised prediction (sd_location s) w].
Proof.
  intros Hp Hs. unfold alertsFor. rewrite Hp, Hs.
  unfold threatOf, raised, bind, ret, Date_now, Math_random. reflexivity.
Qed.

Lemma find_location (sensorData : list (SensorData num)) (place : string) :
  (exists s, In s sensorData /\ name (sd_location s) = place) ->
  exists s, find (fun s => String.eqb (name (sd_location s)) place) sensorData = Some s.
Proof.
  intros (s & Hs & Hn).
  destruct (find (fun s => String.eqb (name (sd_location s)) place) sensorData) as [s'|] eqn:E.
  - now exists s'.
  - apply (find_none _ _ E) in Hs. apply String.eqb_neq in Hs. contradiction.
Qed.

(** [forEach_parts], with each element known to be in the list. *)
Lemma forEach_parts_in (A C : Type) (f : A -> M (list C)) (l : list A) : forall w,
  exists parts : list (list C),
    fst (forEach f l w) = List.concat parts /\
    Forall2 (fun a part => In a l /\ exists w', part = fst (f a w')) l parts.
Proof.
  induction l as [|a l IH]; intros w.
  - exists []. split; [reflexivity | constructor].
  - destruct (IH (snd (f a w))) as (parts & E & H).
    exists (fst (f a w) :: parts). split.
    + rewrite forEach_cons. simpl. now rewrite E.
    + constructor; [split; [now left | now exists w]|].
      eapply Forall2_impl; [|exact H]. intros a' part' [Hin Hw]. split; [now right | exact Hw].
Qed.

Lemma alertsFor_unlikely (sensorData : list (SensorData num)) (prediction : MLPrediction num)
  (w : World) :
  num_ltb (num_lit 0.7) (probability prediction) = false ->
  fst (alertsFor sensorData prediction w) = [].
Proof. intros Hp. unfold alertsFor. rewrite Hp. reflexivity. Qed.

(** *** More values than a call takes *)

Lemma windAnomalies_too_many (loc : string) (sensors : list (SensorData num)) :
  (arguments_limit < N.of_nat (List.length (of_type weather_station sensors)))%N ->
  windAnomalies loc sensors = Thrown RangeError.
Proof.
  intros H. unfold windAnomalies, Math_max. cbv zeta. rewrite length_map.
  destruct (Nat.ltb_spec 0 (List.length (of_type weather_station sensors))); [|lia].
  destruct (N.leb_spec (N.of_nat (List.length (of_type weather_station sensors)))
              arguments_limit); [lia | reflexivity].
Qed.

Lemma qualityAnomalies_too_many (loc : string) (sensors : list (SensorData num)) :
  (arguments_limit < N.of_nat (List.length (of_type water_quality sensors)))%N ->
  qualityAnomalies loc sensors = Thrown RangeError.
Proof.
  intros H. unfold qualityAnomalies, Math_min. cbv zeta. rewrite length_map.
  destruct (Nat.ltb_spec 0 (List.length (of_type water_quality sensors))); [|lia].
  destruct (N.leb_spec (N.of_nat (List.length (of_type water_quality sensors)))
              arguments_limit); [lia | reflexivity].
Qed.

Lemma distinct_seen (seen l : list string) :
  (forall x, In x l -> In x seen) -> distinct seen l = [].
Proof.
  induction l as [|x l IH]; intros H; [reflexivity|]. cbn [distinct].
  rewrite (proj2 (existsb_eqb_In x seen)) by (apply H; now left).
  apply IH. intros y Hy. apply H. now right.
Qed.

(** Readings of one place make one group. *)
Lemma groups_of_one_location (key : string) (data : list (SensorData num)) :
  data <> [] -> (forall s, In s data -> name (sd_location s) = key) ->
  groups_of data = [(key, data)].
Proof.
  intros Hne Hk. unfold groups_of.
  assert (at_location key data = data) as Ea.
  { unfold at_location. apply filter_all. apply Forall_forall. intros s Hs.
    rewrite (Hk s Hs). apply String.eqb_refl. }
  destruct data as [|s data]; [now elim Hne|].
  unfold names. cbn [map distinct existsb]. rewrite (Hk s) by now left.
  rewrite distinct_seen.
  - cbn [map]. now rewrite Ea.
  - intros x Hx. apply in_map_iff in Hx. destruct Hx as (s' & <- & Hs').
    left. symmetry. apply Hk. now right.
Qed.

Lemma detectAnomalies_one_location (key : string) (data : list (SensorData num)) (e : string) :
  data <> [] -> (forall s, In s data -> name (sd_location s) = key) ->
  inherited key = false -> Str.array_index key = None ->
  locationAnomalies (key, data) = Thrown e ->
  detectAnomalies data = Thrown e.
Proof.
  intros Hne Hk Hi Ha He. unfold detectAnomalies.
  rewrite reduce_groups_groups_of by (intros s Hs; now rewrite (Hk s Hs)).
  rewrite (groups_of_one_location Hne Hk).
  unfold Object_entries. cbn [flat_map filter fst app]. rewrite Ha.
  cbn [fold_right map app collect]. now rewrite He.
Qed.

(** *** Thrown with and without an offset *)





End Generic.

(** ** The code on doubles *)
Section Doubles.
Context {Lib : Builtins float} {Env : Ambient float}.
Import FloatOrder.
Open Scope string_scope.

(** C2. When the heuristic returns its predictions, the alerts handed to
    [onThreatDetected] are, prediction after prediction: for a prediction of
    probability above 0.7, exactly one alert, made of the prediction (its
    kind in lower case with underscores, the severity by its probability, the
    description quoting kind and probability), at the location of the first
    reading named as the prediction, which exists, with the clock and a random
    number for the id and the times; for a prediction of probability at most
    0.7, or NaN, none.  When the heuristic throws, no alert is handed on. *)
Theorem runPredictions_alerts (sensorData : list (SensorData float)) (w : World) :
  match detectAnomalies sensorData with
  | Returned anomalies =>
      exists parts : list (list (ThreatAlert float)),
        onThreatDetected (fst (runPredictions sensorData w)) = List.concat parts /\
        Forall2
          (fun prediction part =>
             (num_ltb (num_lit 0.7) (probability prediction) = true ->
              exists s w',
                find (fun s => String.eqb (name (sd_location s)) (location prediction))
                     sensorData = Some s /\
                part = [raised prediction (sd_location s) w']) /\
             (num_leb (probability prediction) (num_lit 0.7) = true -> part = []) /\
             (num_ltb (num_lit 0.7) (probability prediction) = false -> part = []))
          anomalies parts
  | Thrown _ => onThreatDetected (fst (runPredictions sensorData w)) = []
  end.
Proof.
  unfold runPredictions.
  destruct (detectAnomalies sensorData) as [anomalies|e] eqn:Ed; [|reflexivity].
  destruct (forEach_parts_in (alertsFor sensorData) anomalies w) as (parts & E & H).
  exists parts. split.
  - unfold bind, ret. destruct (forEach (alertsFor sensorData) anomalies w) as [threats w'].
    exact E.
  - eapply Forall2_impl; [|exact H]. intros p part [Hin (w' & ->)]. split; [|split].
    + intros Hp.
      destruct (find_location sensorData (detectAnomalies_locations _ Ed p Hin)) as (s & Hs).
      exists s, w'. split; [exact Hs|]. now apply alertsFor_raised.
    + intros Hp. apply alertsFor_unlikely. now apply leb_not_gt.
    + intros Hp. now apply alertsFor_unlikely.
Qed.

(** *** The wind block and the water-quality block *)

Lemma windAnomalies_greatest (loc : string) (sensors : list (SensorData float))
  (wind : list (MLPrediction float)) :
  windAnomalies loc sensors = Returned wind ->
  match map (@sd_value float) (of_type weather_station sensors) with
  | [] => wind = []
  | v :: vs =>
      ((exists x, In x (v :: vs) /\ PrimFloat.is_nan x = true) /\ wind = [])
      \/
      (exists maxWind,
         In maxWind (v :: vs) /\
         (forall x, In x (v :: vs) -> num_leb x maxWind = true) /\
         wind = (if num_ltb (num_lit 60) maxWind then [cyclonicActivity loc maxWind] else []) /\
         (maxWind = num_lit 60 -> wind = []))
  end.
Proof.
  intros E. pose proof (windAnomalies_cases loc sensors) as H. rewrite E in H.
  destruct H as [[_ ->]|[Hnil ->]]; [|rewrite Hnil; reflexivity].
  destruct (map (@sd_value float) (of_type weather_station sensors)) as [|v vs]; [reflexivity|].
  destruct (some_nan_or_none (v :: vs)) as [Hnan|Hok].
  - left. split; [exact Hnan|].
    apply Math_max_nan in Hnan. apply (nan_not_lt _ (num_lit 60)) in Hnan.
    destruct Hnan as [_ Hnan]. cbn [num_ltb float_number]. rewrite Hnan. reflexivity.
  - right. destruct (Math_max_greatest Hok) as [Hin Hub].
    exists (Math_max_of v vs). split; [exact Hin|]. split; [exact Hub|]. split; [reflexivity|].
    intros ->. reflexivity.
Qed.

Lemma qualityAnomalies_least (loc : string) (sensors : list (SensorData float))
  (quality : list (MLPrediction float)) :
  qualityAnomalies loc sensors = Returned quality ->
  match map (@sd_value float) (of_type water_quality sensors) with
  | [] => quality = []
  | v :: vs =>
      ((exists x, In x (v :: vs) /\ PrimFloat.is_nan x = true) /\ quality = [])
      \/
      (exists minQuality,
         In minQuality (v :: vs) /\
         (forall x, In x (v :: vs) -> num_leb minQuality x = true) /\
         quality = (if num_ltb minQuality (num_lit 40)
                    then [waterPollution loc minQuality] else []) /\
         (minQuality = num_lit 40 -> quality = []))
  end.
Proof.
  intros E. pose proof (qualityAnomalies_cases loc sensors) as H. rewrite E in H.
  destruct H as [[_ ->]|[Hnil ->]]; [|rewrite Hnil; reflexivity].
  destruct (map (@sd_value float) (of_type water_quality sensors)) as [|v vs]; [reflexivity|].
  destruct (some_nan_or_none (v :: vs)) as [Hnan|Hok].
  - left. split; [exact Hnan|].
    apply Math_min_nan in Hnan. apply (nan_not_lt _ (num_lit 40)) in Hnan.
    destruct Hnan as [Hnan _]. cbn [num_ltb float_number]. rewrite Hnan. reflexivity.
  - right. destruct (Math_min_least Hok) as [Hin Hub].
    exists (Math_min_of v vs). split; [exact Hin|]. split; [exact Hub|]. split; [reflexivity|].
    intros ->. reflexivity.
Qed.

(** C3, as the code has it.  When [detectAnomalies] returns, its Cyclonic
    Activity predictions are, location group after location group: for a
    group with wind readings none of which is NaN, one prediction exactly
    when the greatest wind value is above 60, with probability
    min((max - 60) / 40, 0.95) and confidence min((max - 50) / 50, 0.9), and
    none when it is 60; none for a group without wind reading or with a NaN
    among its wind values. *)
Theorem detectAnomalies_cyclonic_above_60
  (sensorData : list (SensorData float)) (anomalies : list (MLPrediction float)) :
  detectAnomalies sensorData = Returned anomalies ->
  exists parts : list (list (MLPrediction float)),
    of_kind "Cyclonic Activity" anomalies = List.concat parts /\
    Forall2
      (fun group part =>
         match map (@sd_value float) (of_type weather_station (snd group)) with
         | [] => part = []
         | v :: vs =>
             ((exists x, In x (v :: vs) /\ PrimFloat.is_nan x = true) /\ part = [])
             \/
             (exists maxWind,
                In maxWind (v :: vs) /\
                (forall x, In x (v :: vs) -> num_leb x maxWind = true) /\
                part = (if num_ltb (num_lit 60) maxWind
                        then [cyclonicActivity (fst group) maxWind] else []) /\
                (maxWind = num_lit 60 -> part = []))
         end)
      (Object_entries (groups_of sensorData)) parts.
Proof.
  intros H. destruct (detectAnomalies_by_group _ H) as (found & HF & ->).
  exists (map (of_kind "Cyclonic Activity") found). split; [apply filter_concat|].
  revert HF. apply Forall2_map_r. intros group part _ E.
  apply locationAnomalies_kinds in E. destruct E as (Ew & _ & _).
  exact (windAnomalies_greatest _ _ Ew).
Qed.

(** C4, as the code has it.  When [detectAnomalies] returns, its Water
    Pollution predictions are, location group after location group: for a
    group with water-quality readings none of which is NaN, one prediction
    exactly when the least value is below 40, with probability
    min((40 - min) / 40, 0.95) and confidence min((50 - min) / 50, 0.85), and
    none when it is 40; none for a group without water-quality reading or
    with a NaN among its values. *)
Theorem detectAnomalies_pollution_below_40
  (sensorData : list (SensorData float)) (anomalies : list (MLPrediction float)) :
  detectAnomalies sensorData = Returned anomalies ->
  exists parts : list (list (MLPrediction float)),
    of_kind "Water Pollution" anomalies = List.concat parts /\
    Forall2
      (fun group part =>
         match map (@sd_value float) (of_type water_quality (snd group)) with
         | [] => part = []
         | v :: vs =>
             ((exists x, In x (v :: vs) /\ PrimFloat.is_nan x = true) /\ part = [])
             \/
             (exists minQuality,
                In minQuality (v :: vs) /\
                (forall x, In x (v :: vs) -> num_leb minQuality x = true) /\
                part = (if num_ltb minQuality (num_lit 40)
                        then [waterPollution (fst group) minQuality] else []) /\
                (minQuality = num_lit 40 -> part = []))
         end)
      (Object_entries (groups_of sensorData)) parts.
Proof.
  intros H. destruct (detectAnomalies_by_group _ H) as (found & HF & ->).
  exists (map (of_kind "Water Pollution") found). split; [apply filter_concat|].
  revert HF. apply Forall2_map_r. intros group part _ E.
  apply locationAnomalies_kinds in E. destruct E as (_ & Eq & _).
  exact (qualityAnomalies_least _ _ Eq).
Qed.

(** *** The tide block under an offset *)







(** *** The chatbot's tide answer *)

Lemma of_type_none (t : SensorType) (sensorData : list (SensorData float)) :
  (forall s, In s sensorData -> sd_type s <> t) -> of_type t sensorData = [].
Proof.
  intros H. unfold of_type. apply filter_none. apply Forall_forall. intros s Hs.
  specialize (H s Hs). destruct (sd_type s), t; simpl; trivial; now elim H.
Qed.

(** C9, as the code has it.  For a message that holds "tide" or "water
    level" the call returns the tide answer and throws nothing, whatever the
    readings: the average it quotes is the sum of the tide_gauge values
    divided by their number, with no guard.  With no tide_gauge reading that
    is 0 / 0, which is NaN: the answer quotes NaN and calls all gauges
    normal. *)
Theorem generateResponse_tide_average
  (sensorData : list (SensorData float)) (alerts : list (ThreatAlert float))
  (userMessage : string) (w : World) :
  Str.includes userMessage "tide" = true \/ Str.includes userMessage "water level" = true ->
  let tideData := of_type tide_gauge sensorData in
  let average :=
    num_div (fold_left (fun sum s => num_add sum (sd_value s)) tideData (num_lit 0))
            (num_of_nat (List.length tideData)) in
  fst (generateResponse sensorData alerts userMessage w) =
    Returned
      ("Current average tide level is " ++ Number_toFixed 2 average ++ " meters. "
       ++ (if existsb (fun s => negb (Status_eqb (sd_status s) normal)) tideData
           then "Some stations are showing abnormal readings that require attention."
           else "All tide gauges are operating within normal parameters."))
  /\ ((forall s, In s sensorData -> sd_type s <> tide_gauge) ->
      PrimFloat.is_nan average = true /\
      fst (generateResponse sensorData alerts userMessage w) =
        Returned ("Current average tide level is " ++ Number_toFixed 2 PrimFloat.nan
                  ++ " meters. All tide gauges are operating within normal parameters.")).
Proof.
  intros H tideData average.
  assert (fst (generateResponse sensorData alerts userMessage w)
          = Returned (tideResponse sensorData)) as E.
  { unfold generateResponse.
    assert (Str.includes (Str.toLowerCase userMessage) "tide"
            || Str.includes (Str.toLowerCase userMessage) "water level" = true) as E.
    { apply orb_true_iff.
      destruct H as [H|H]; [left|right]; apply includes_toLowerCase in H; exact H. }
    rewrite E. reflexivity. }
  split; [exact E|].
  intros Hn. rewrite E. unfold average, tideData, tideResponse, avgTide.
  rewrite (of_type_none _ Hn). split; reflexivity.
Qed.

End Doubles.
(** ** The code at particular inputs *)

(** The number of readings is the number of rounds of the loop. *)
Lemma getHistoricalData_length (num : Type) (Num : Number num) (Lib : Builtins num)
  (Env : Ambient num) (startDate endDate : Date) (w : World) :
  List.length (fst (getHistoricalData startDate endDate w))
  = List.length (rounds (daysDiff startDate endDate)).
Proof.
  rewrite <- (length_map (@sd_timestamp num)).
  fold (timestamps (fst (getHistoricalData startDate endDate w))).
  rewrite getHistoricalData_timestamps. apply length_map.
Qed.


(** C3 fails on the code.  One reading more than a call takes as arguments
    (125001 for an engine that takes 125000), each a wind of 70 at one place:
    the greatest wind is above 60, and the spread call [Math.max(...)] throws
    a RangeError, so that [detectAnomalies] throws and no prediction is
    emitted. *)
Lemma detectAnomalies_cyclonic_not_emitted :
  num_ltb (num_lit 60) 70%float = true /\
  forall Lib : Builtins float,
    let sensorData := repeat (reading weather_station 70) (S (N.to_nat arguments_limit)) in
    (forall s, In s sensorData -> s = reading weather_station 70) /\
    detectAnomalies sensorData = Thrown RangeError.
Proof.
  split; [vm_compute; reflexivity|]. intros Lib sensorData.
  assert (forall s, In s sensorData -> s = reading weather_station 70) as Hs
    by (intros s Hs; exact (repeat_spec _ _ _ Hs)).
  split; [exact Hs|].
  apply (@detectAnomalies_one_location float _ Lib "Chennai Coast" sensorData).
  - discriminate.
  - intros s Hin. now rewrite (Hs s Hin).
  - reflexivity.
  - reflexivity.
  - unfold locationAnomalies. rewrite windAnomalies_too_many; [reflexivity|].
    unfold of_type. rewrite filter_all.
    + unfold sensorData. rewrite repeat_length. lia.
    + apply Forall_forall. intros s Hin. now rewrite (Hs s Hin).
Qed.

(** C4 fails where a cap binds.  A least water-quality value of 5 gives the
    confidence 0.85, below (50 - 5) / 50 = 0.9, and a least value of 0 gives
    the probability 0.95, below (40 - 0) / 40 = 1.  It fails too for one
    reading more than a call takes as arguments, each a quality of 30 at one
    place: the spread call [Math.min(...)] throws a RangeError and no
    prediction is emitted. *)
Lemma qualityAnomalies_capped :
  (exists p, detectAnomalies (Lib := sample_runtime) [reading water_quality 5] = Returned [p] /\
             threatType p = "Water Pollution"%string /\ confidence p = num_lit 0.85) /\
  (exists p, detectAnomalies (Lib := sample_runtime) [reading water_quality 0] = Returned [p] /\
             threatType p = "Water Pollution"%string /\ probability p = num_lit 0.95) /\
  num_div (num_sub (num_lit 50) 5%float) (num_lit 50) = num_lit 0.9 /\
  num_div (num_sub (num_lit 40) 0%float) (num_lit 40) = num_lit 1 /\
  @num_ltb float _ (num_lit 0.85) (num_lit 0.9) = true /\
  @num_ltb float _ (num_lit 0.95) (num_lit 1) = true /\
  num_ltb 30%float (num_lit 40) = true /\
  forall Lib : Builtins float,
    let sensorData := repeat (reading water_quality 30) (S (N.to_nat arguments_limit)) in
    (forall s, In s sensorData -> s = reading water_quality 30) /\
    detectAnomalies sensorData = Thrown RangeError.
Proof.
  split; [vm_compute; eexists; repeat split; reflexivity|].
  split; [vm_compute; eexists; repeat split; reflexivity|].
  do 5 (split; [vm_compute; reflexivity|]).
  intros Lib sensorData.
  assert (forall s, In s sensorData -> s = reading water_quality 30) as Hs
    by (intros s Hs; exact (repeat_spec _ _ _ Hs)).
  split; [exact Hs|].
  apply (@detectAnomalies_one_location float _ Lib "Chennai Coast" sensorData).
  - discriminate.
  - intros s Hin. now rewrite (Hs s Hin).
  - reflexivity.
  - reflexivity.
  - unfold locationAnomalies.
    assert (windAnomalies "Chennai Coast" sensorData = Returned []) as ->.
    { unfold windAnomalies. cbv zeta.
      assert (of_type weather_station sensorData = []) as ->; [|reflexivity].
      unfold of_type. apply filter_none. apply Forall_forall. intros s Hin.
      now rewrite (Hs s Hin). }
    rewrite qualityAnomalies_too_many; [reflexivity|].
    unfold of_type. rewrite filter_all.
    + unfold sensorData. rewrite repeat_length. lia.
    + apply Forall_forall. intros s Hin. now rewrite (Hs s Hin).
Qed.

(** C5 fails on doubles.  The valid dates -4500000000000000 and
    4507199308800001 are 9007199308800001 ms apart, which is more than
    104249992 days: the days, begun ones included, are 104249993.  The
    difference of the time values is rounded to 9007199308800000, the
    quotient is 104249992 and so is the number of readings. *)
Lemma getHistoricalData_days_rounded :
  let startDate := (-4500000000000000)%Z in
  let endDate := 4507199308800001%Z in
  (Z.abs startDate <= 8640000000000000)%Z /\ (Z.abs endDate <= 8640000000000000)%Z /\
  (startDate < endDate)%Z /\
  (104249992 * (1000 * 60 * 60 * 24) < endDate - startDate
   <= 104249993 * (1000 * 60 * 60 * 24))%Z /\
  forall w : World,
    Z.of_nat (List.length (fst (@getHistoricalData float _ sample_runtime sample_ambient
                                  startDate endDate w))) = 104249992%Z.
Proof.
  cbv zeta. split; [lia|]. split; [lia|]. split; [lia|]. split; [lia|].
  intros w. rewrite getHistoricalData_length.
  assert (daysDiff (-4500000000000000)%Z 4507199308800001%Z = Some 104249992%Z) as ->
    by (vm_compute; reflexivity).
  unfold rounds. rewrite length_seq. apply Z2Nat.id. lia.
Qed.

(** C8 fails on the code.  After two calls of [connectWebSocket] at time 0,
    two reading timers are due at 5000 ms and [onDataUpdate] is called twice
    there; after one call, once. *)
Lemma resubscription_delivers_twice :
  map handler (filter (due 5000) (connectWebSocket 0 (connectWebSocket 0 [])))
  = [pushReading; pushReading] /\
  (forall (Env : Ambient float) (w : World),
     readings_delivered (connectWebSocket 0 []) 5000 w = 1%nat /\
     readings_delivered (connectWebSocket 0 (connectWebSocket 0 [])) 5000 w = 2%nat).
Proof.
  split; [reflexivity|]. intros Env w. split.
  - apply (readings_delivered_subscribed [0%Z] 5000 w).
  - apply (readings_delivered_subscribed [0%Z; 0%Z] 5000 w).
Qed.

(** C9 fails on the code.  With no tide_gauge reading the division is 0 / 0
    and no error is raised: the call returns, and the answer quotes NaN. *)
Lemma generateResponse_tide_without_gauge :
  (forall s, In s [reading weather_station 30] -> sd_type s <> tide_gauge) /\
  fst (@generateResponse float _ sample_runtime sample_ambient
         [reading weather_station 30] [] "What is the tide now?" start_of_run)
  = Returned ("Current average tide level is NaN meters. "
              ++ "All tide gauges are operating within normal parameters.")%string /\
  forall e,
    fst (@generateResponse float _ sample_runtime sample_ambient
           [reading weather_station 30] [] "What is the tide now?" start_of_run)
    <> Thrown e.
Proof.
  split; [intros s [<-|[]]; discriminate|].
  assert (fst (@generateResponse float _ sample_runtime sample_ambient
                 [reading weather_station 30] [] "What is the tide now?" start_of_run)
          = Returned ("Current average tide level is NaN meters. "
                      ++ "All tide gauges are operating within normal parameters.")%string)
    as E by (vm_compute; reflexivity).
  split; [exact E|]. intros e. rewrite E. discriminate.
Qed.


Lemma detectAnomalies_cyclonic_above_60_witness :
  exists anomalies,
    detectAnomalies (Lib := sample_runtime) [reading weather_station 70] = Returned anomalies /\
    exists parts : list (list (MLPrediction float)),
      of_kind "Cyclonic Activity" anomalies = List.concat parts /\
      List.length parts
      = List.length (Object_entries (groups_of [reading weather_station 70])).
Proof.
  assert (exists anomalies,
            detectAnomalies (Lib := sample_runtime) [reading weather_station 70]
            = Returned anomalies)
    as [anomalies H] by (vm_compute; eexists; reflexivity).
  exists anomalies. split; [exact H|].
  destruct (@detectAnomalies_cyclonic_above_60 sample_runtime
              [reading weather_station 70] anomalies H) as (parts & E & HF).
  exists parts. split; [exact E|]. symmetry. exact (Forall2_length HF).
Defined.

Lemma detectAnomalies_pollution_below_40_witness :
  exists anomalies,
    detectAnomalies (Lib := sample_runtime) [reading water_quality 30] = Returned anomalies /\
    exists parts : list (list (MLPrediction float)),
      of_kind "Water Pollution" anomalies = List.concat parts /\
      List.length parts
      = List.length (Object_entries (groups_of [reading water_quality 30])).
Proof.
  assert (exists anomalies,
            detectAnomalies (Lib := sample_runtime) [reading water_quality 30]
            = Returned anomalies)
    as [anomalies H] by (vm_compute; eexists; reflexivity).
  exists anomalies. split; [exact H|].
  destruct (@detectAnomalies_pollution_below_40 sample_runtime
              [reading water_quality 30] anomalies H) as (parts & E & HF).
  exists parts. split; [exact E|]. symmetry. exact (Forall2_length HF).
Defined.

Lemma getHistoricalData_days_witness :
  (Z.abs 0 <= 8640000000000000)%Z /\ (Z.abs 259200001 <= 8640000000000000)%Z /\
  (0 < 259200001)%Z /\ (259200001 - 0 < 2 ^ 53)%Z /\
  exists n : nat,
    ((Z.of_nat n - 1) * (1000 * 60 * 60 * 24) < 259200001 - 0
     <= Z.of_nat n * (1000 * 60 * 60 * 24))%Z /\
    List.length (fst (@getHistoricalData float _ sample_runtime sample_ambient
                        0%Z 259200001%Z start_of_run)) = n.
Proof.
  assert (Z.abs 0 <= 8640000000000000)%Z as Hs by (vm_compute; discriminate).
  assert (Z.abs 259200001 <= 8640000000000000)%Z as He by (vm_compute; discriminate).
  assert (0 < 259200001)%Z as Hlt by reflexivity.
  assert (259200001 - 0 < 2 ^ 53)%Z as Hb by reflexivity.
  split; [exact Hs|]. split; [exact He|]. split; [exact Hlt|]. split; [exact Hb|].
  destruct (@getHistoricalData_days float _ sample_runtime sample_ambient 0%Z 259200001%Z
              start_of_run Hs He Hlt Hb) as (n & H1 & H2 & _).
  exists n. split; [exact H1 | exact H2].
Defined.

Lemma connectWebSocket_delivers_per_subscription_witness :
  (1 <= 3)%Z /\
  readings_delivered (Env := sample_ambient) (subscribe (repeat 1000%Z 2)) (1000 + 5000 * 3)
    start_of_run = 2%nat.
Proof.
  split; [lia|].
  apply (@connectWebSocket_delivers_per_subscription float _ sample_ambient 2 1000 3
           start_of_run).
  lia.
Defined.

Lemma generateResponse_tide_average_witness :
  Str.includes "What is the tide now?" "tide" = true /\
  fst (@generateResponse float _ sample_runtime sample_ambient
         [reading tide_gauge 2] [] "What is the tide now?" start_of_run)
  = Returned ("Current average tide level is # meters. "
              ++ "All tide gauges are operating within normal parameters.")%string.
Proof.
  split; [reflexivity|].
  exact (proj1 (@generateResponse_tide_average sample_runtime sample_ambient
                  [reading tide_gauge 2] [] "What is the tide now?" start_of_run
                  (or_introl eq_refl))).
Defined.

(** * Further properties *)

Section Further.
Variable num : Type.
Context {Num : Number num} {Lib : Builtins num} {Env : Ambient num}.
Variable toLocaleTimeString : Date -> string.
Variable JSON_stringify : User -> string.
Open Scope string_scope.

(** *** Loops, continued *)

Lemma forEach_view_in (A C D : Type) (f : A -> M (list C)) (v : C -> D) (g : A -> list D)
  (l : list A) :
  (forall a, In a l -> forall w, map v (fst (f a w)) = g a) ->
  forall w, map v (fst (forEach f l w)) = flat_map g l.
Proof.
  induction l as [|a l IH]; intros Hf w.
  - reflexivity.
  - rewrite forEach_cons. simpl. rewrite map_app, Hf by now left.
    rewrite IH; [reflexivity|]. intros b Hb. apply Hf. now right.
Qed.

Lemma forEach_Forall (A C : Type) (f : A -> M (list C)) (P : C -> Prop) (l : list A) :
  (forall a w, In a l -> Forall P (fst (f a w))) ->
  forall w, Forall P (fst (forEach f l w)).
Proof.
  induction l as [|a l IH]; intros Hf w.
  - constructor.
  - rewrite forEach_cons. simpl. apply Forall_app. split.
    + apply Hf. now left.
    + apply IH. intros b w' Hb. apply Hf. now right.
Qed.

(** The clock readings and random draws of a loop add up. *)
Lemma forEach_world (A C : Type) (f : A -> M (list C)) (c r : A -> nat) (l : list A) :
  (forall a w, clock_reads (snd (f a w)) = (clock_reads w + c a)%nat /\
               random_draws (snd (f a w)) = (random_draws w + r a)%nat) ->
  forall w, clock_reads (snd (forEach f l w)) = (clock_reads w + list_sum (map c l))%nat /\
            random_draws (snd (forEach f l w)) = (random_draws w + list_sum (map r l))%nat.
Proof.
  intros Hf. induction l as [|a l IH]; intros w.
  - simpl. split; lia.
  - rewrite forEach_cons. cbn [snd]. simpl map. simpl list_sum.
    destruct (IH (snd (f a w))) as [-> ->]. destruct (Hf a w) as [-> ->]. split; lia.
Qed.

(** *** detectThreats *)

Lemma threatsOf_one (d : SensorData num) (w : World) :
  List.length (fst (threatsOf d w)) = (if threatening d then 1 else 0)%nat /\
  clock_reads (snd (threatsOf d w)) = (clock_reads w + if threatening d then 3 else 0)%nat /\
  random_draws (snd (threatsOf d w)) = random_draws w.
Proof.
  unfold threatsOf, threatening, bind, ret, Date_now.
  destruct (num_ltb (num_lit 2.5) (sd_value d)), (num_ltb (num_lit 60) (sd_value d)),
    (sd_type d); simpl; repeat split; lia.
Qed.

(** X8. [detectThreats] raises one alert for each reading that is a tide
    reading above 2.5 or a wind reading above 60 and none for the others, so
    never more alerts than readings; it reads the clock three times for each
    alert and draws no random number. *)
Theorem detectThreats_one_per_reading (sensorData : list (SensorData num)) (w : World) :
  let threats := fst (detectThreats sensorData w) in
  let w' := snd (detectThreats sensorData w) in
  List.length threats = List.length (filter (@threatening num _) sensorData) /\
  (List.length threats <= List.length sensorData)%nat /\
  clock_reads w' = (clock_reads w + 3 * List.length threats)%nat /\
  random_draws w' = random_draws w.
Proof.
  cbv zeta. unfold detectThreats.
  assert (forall l w0,
    List.length (fst (forEach (@threatsOf num _ _ _) l w0)) = List.length (filter (@threatening num _) l) /\
    clock_reads (snd (forEach (@threatsOf num _ _ _) l w0))
      = (clock_reads w0 + 3 * List.length (filter (@threatening num _) l))%nat /\
    random_draws (snd (forEach (@threatsOf num _ _ _) l w0)) = random_draws w0) as H.
  { induction l as [|d l IH]; intros w0.
    - simpl. repeat split; lia.
    - rewrite forEach_cons. cbn [fst snd filter]. rewrite length_app.
      destruct (threatsOf_one d w0) as (H1 & H2 & H3).
      destruct (IH (snd (threatsOf d w0))) as (I1 & I2 & I3).
      rewrite H1, I1, I2, I3, H2, H3.
      destruct (threatening d); simpl; repeat split; lia. }
  destruct (H sensorData w) as (H1 & H2 & H3).
  rewrite H1, H2, H3. repeat split; trivial. apply filter_length_le.
Qed.

(** *** Grouping by location *)

(** When the loop body throws, it is for the arguments of a call. *)
Lemma locationAnomalies_thrown (entry : string * list (SensorData num)) (e : string) :
  locationAnomalies entry = Thrown e ->
  e = RangeError /\ (arguments_limit < N.of_nat (List.length (snd entry)))%N.
Proof.
  destruct entry as [loc sensors]. unfold locationAnomalies. cbn [snd].
  assert (forall t, N.of_nat (List.length (of_type t sensors))
                    <= N.of_nat (List.length sensors))%N as Hle.
  { intros t. unfold of_type. pose proof (filter_length_le (fun s => SensorType_eqb (sd_type s) t) sensors).
    lia. }
  pose proof (windAnomalies_cases loc sensors) as Hw.
  pose proof (qualityAnomalies_cases loc sensors) as Hq.
  destruct (windAnomalies loc sensors) as [wind|e'].
  - destruct (qualityAnomalies loc sensors) as [quality|e']; [discriminate|].
    intros [= ->]. destruct Hq as [-> Hq]. split; [reflexivity|].
    specialize (Hle water_quality). lia.
  - intros [= ->]. destruct Hw as [-> Hw]. split; [reflexivity|].
    specialize (Hle weather_station). lia.
Qed.

Lemma at_location_length (key : string) (data : list (SensorData num)) :
  (List.length (at_location key data) <= List.length data)%nat.
Proof. unfold at_location. apply filter_length_le. Qed.

(** X2. [detectAnomalies] throws a TypeError exactly when some reading is at
    a location named like a property every object inherits (constructor,
    toString, ...): the grouping finds that property instead of an array.
    The run then sets no predictions, raises no alert and logs one error.
    With no such name the heuristic returns when the readings are no more
    than a call takes as arguments, and whatever it throws is the RangeError
    of a call with too many arguments. *)
Theorem detectAnomalies_throws_on_inherited_name (sensorData : list (SensorData num)) (w : World) :
  ((exists s, In s sensorData /\ inherited (name (sd_location s)) = true) <->
   detectAnomalies sensorData = Thrown "TypeError: acc[key].push is not a function") /\
  (detectAnomalies sensorData = Thrown "TypeError: acc[key].push is not a function" ->
   fst (runPredictions sensorData w) =
     {| setPredictions := [];
        onThreatDetected := [];
        console_error :=
          ["ML prediction error: TypeError: acc[key].push is not a function"] |}) /\
  ((forall s, In s sensorData -> inherited (name (sd_location s)) = false) ->
   ((N.of_nat (List.length sensorData) <= arguments_limit)%N ->
    exists anomalies, detectAnomalies sensorData = Returned anomalies) /\
   (forall e, detectAnomalies sensorData = Thrown e ->
              e = RangeError /\
              (arguments_limit < N.of_nat (List.length sensorData))%N)).
Proof.
  destruct (@reduce_groups_throws _ sensorData []) as [H1 H2]; [constructor|].
  assert (forall groups e,
            reduce_groups sensorData [] = Returned groups ->
            collect (@locationAnomalies num _ _) (Object_entries groups) = Thrown e ->
            e = RangeError /\ (arguments_limit < N.of_nat (List.length sensorData))%N) as Hc.
  { intros groups e Eg Ec. apply collect_thrown in Ec. destruct Ec as (entry & Hin & Ee).
    apply locationAnomalies_thrown in Ee. destruct Ee as [-> Hlim]. split; [reflexivity|].
    apply Object_entries_In in Hin. apply reduce_groups_returned in Eg.
    destruct Eg as [_ ->]. unfold groups_of in Hin. apply in_map_iff in Hin.
    destruct Hin as (key & <- & _). cbn [snd] in Hlim.
    pose proof (at_location_length key sensorData). lia. }
  split; [|split].
  - rewrite <- H1. unfold detectAnomalies.
    destruct (reduce_groups sensorData []) as [g|e] eqn:Eg.
    + split; [discriminate|]. intros Ec. destruct (Hc g _ eq_refl Ec) as [E _].
      discriminate E.
    + split; intros H; injection H as ->; reflexivity.
  - intros E. unfold runPredictions. rewrite E. reflexivity.
  - intros Hn.
    assert (exists g, reduce_groups sensorData [] = Returned g) as (g & Eg).
    { destruct (reduce_groups sensorData []) as [g|e] eqn:E; [now exists g|].
      pose proof (H2 e eq_refl) as ->. destruct (proj1 H1 eq_refl) as (s & Hs & Hi).
      rewrite (Hn s Hs) in Hi. discriminate. }
    unfold detectAnomalies. rewrite Eg. split.
    + intros Hlim.
      destruct (collect (@locationAnomalies num _ _) (Object_entries g)) as [r|e] eqn:Ec;
        [now exists r|].
      destruct (Hc g e Eg Ec) as [_ Hgt]. lia.
    + intros e Ec. exact (Hc g e Eg Ec).
Qed.

(** *** The alerts of a run *)

(** X1. When the heuristic returns, a run stores its predictions once, logs
    nothing, and raises one alert for each prediction of probability above
    0.7, in order and at the location the prediction names: as many alerts
    as the panel counts as High Risk Alerts.  When it throws, only the error
    is logged. *)
Theorem runPredictions_one_alert_per_high_risk (sensorData : list (SensorData num)) (w : World) :
  match detectAnomalies sensorData with
  | Returned anomalies =>
      let calls := fst (runPredictions sensorData w) in
      setPredictions calls = [anomalies] /\
      console_error calls = [] /\
      map (fun a => name (ta_location a)) (onThreatDetected calls)
        = map (@location num) (filter (@likely num _) anomalies) /\
      List.length (onThreatDetected calls) = highRiskAlerts anomalies
  | Thrown e =>
      fst (runPredictions sensorData w)
        = {| setPredictions := []; onThreatDetected := [];
             console_error := ["ML prediction error: " ++ e] |}
  end.
Proof.
  unfold runPredictions.
  destruct (detectAnomalies sensorData) as [anomalies|e] eqn:E; [|reflexivity].
  cbv zeta. unfold bind, ret.
  destruct (forEach (alertsFor sensorData) anomalies w) as [threats w'] eqn:Ef.
  cbn [fst setPredictions console_error onThreatDetected].
  assert (map (fun a => name (ta_location a)) threats
          = map (@location num) (filter (@likely num _) anomalies)) as Hm.
  { replace threats with (fst (forEach (alertsFor sensorData) anomalies w)) by now rewrite Ef.
    rewrite forEach_view_in with (g := fun p => if likely p then [location p] else []).
    - clear. induction anomalies as [|p l IH]; simpl; [reflexivity|].
      destruct (likely p); simpl; now rewrite IH.
    - intros p Hp w0. unfold likely. destruct (num_ltb (num_lit 0.7) (probability p)) eqn:El.
      + destruct (@alertsFor_likely num _ _ _ sensorData p w0 El) as (threat & -> & Hn).
        * eapply detectAnomalies_locations; eassumption.
        * simpl. now rewrite Hn.
      + now rewrite alertsFor_unlikely. }
  repeat split; trivial.
  unfold highRiskAlerts. fold (@likely num _).
  rewrite <- (length_map (fun a => name (ta_location a))), Hm, length_map. reflexivity.
Qed.

(** X3. When no location is named like an inherited property, the grouping
    returns one group for each location name, in the order the names first
    occur and without repetition, and the group of a name holds the readings
    at that name in their order; every reading is in the group of its
    location. *)
Theorem reduce_groups_by_location (sensorData : list (SensorData num)) :
  (forall s, In s sensorData -> inherited (name (sd_location s)) = false) ->
  reduce_groups sensorData [] = Returned (groups_of sensorData) /\
  NoDup (map fst (groups_of sensorData)) /\
  (forall s, In s sensorData ->
     exists sensors, In (name (sd_location s), sensors) (groups_of sensorData) /\ In s sensors).
Proof.
  intros Hn. split; [|split].
  - now apply reduce_groups_groups_of.
  - unfold groups_of. rewrite map_map. simpl. rewrite map_id. apply distinct_NoDup.
  - intros s Hs. exists (at_location (name (sd_location s)) sensorData). split.
    + unfold groups_of. apply in_map_iff. exists (name (sd_location s)). split; [reflexivity|].
      apply distinct_In. split; [|tauto]. unfold names. apply in_map_iff. now exists s.
    + unfold at_location. apply filter_In. split; [exact Hs | apply String.eqb_refl].
Qed.

(** *** The kinds of prediction *)

Lemma locationAnomalies_threatType (entry : string * list (SensorData num))
  (found : list (MLPrediction num)) :
  locationAnomalies entry = Returned found ->
  Forall (fun p => In (threatType p)
                     ["Storm Surge Risk"; "Unusual Low Tide"; "Cyclonic Activity";
                      "Water Pollution"])
         found.
Proof.
  intros E. apply locationAnomalies_returned in E.
  destruct E as (wind & quality & Ew & Eq & ->).
  apply Forall_app. split; [|apply Forall_app; split].
  - eapply Forall_impl; [|apply tideAnomalies_types]. intros p [-> | ->]; simpl; tauto.
  - apply windAnomalies_one in Ew. destruct Ew as [->|(m & ->)]; [constructor|].
    constructor; [simpl; tauto | constructor].
  - apply qualityAnomalies_one in Eq. destruct Eq as [->|(m & ->)]; [constructor|].
    constructor; [simpl; tauto | constructor].
Qed.

Lemma detectAnomalies_threatType (data : list (SensorData num)) (anomalies : list (MLPrediction num)) :
  detectAnomalies data = Returned anomalies ->
  Forall (fun p => In (threatType p)
                     ["Storm Surge Risk"; "Unusual Low Tide"; "Cyclonic Activity";
                      "Water Pollution"]) anomalies.
Proof.
  intros H. destruct (detectAnomalies_by_group _ H) as (parts & HF & ->).
  clear H. apply Forall_concat.
  induction HF as [|entry part l parts He _ IH]; [constructor|]. constructor; [|exact IH].
  now apply locationAnomalies_threatType with (entry := entry).
Qed.

(** X5. Every alert a run raises has one of the types storm_surge_risk,
    unusual_low_tide, cyclonic_activity and water_pollution, none of which
    is a type the alert record declares, so the alert panel shows it with its
    fallback icon; its severity is never low and its one affected area is
    its location. *)
Theorem runPredictions_alert_types (sensorData : list (SensorData num)) (w : World) :
  Forall (fun threat =>
            In (ta_type threat)
               ["storm_surge_risk"; "unusual_low_tide"; "cyclonic_activity"; "water_pollution"]
            /\ ~ In (ta_type threat)
                 ["storm_surge"; "erosion"; "pollution"; "cyclone"; "tsunami"]
            /\ getThreatIcon (ta_type threat) = "⚠️"
            /\ ta_severity threat <> low
            /\ ta_affectedAreas threat = [name (ta_location threat)])
         (onThreatDetected (fst (runPredictions sensorData w))).
Proof.
  unfold runPredictions.
  destruct (detectAnomalies sensorData) as [anomalies|e] eqn:E; [|constructor].
  apply detectAnomalies_threatType in E.
  unfold bind, ret.
  destruct (forEach (alertsFor sensorData) anomalies w) as [threats w'] eqn:Ef.
  cbn [fst onThreatDetected].
  replace threats with (fst (forEach (alertsFor sensorData) anomalies w)) by now rewrite Ef.
  apply forEach_Forall. intros p w0 Hp.
  rewrite Forall_forall in E. specialize (E p Hp).
  unfold alertsFor. destruct (num_ltb _ _); [|constructor].
  destruct (find _ sensorData); [|constructor].
  unfold threatOf, bind, ret, Date_now, Math_random. cbn [fst].
  constructor; [|constructor]. cbn [ta_type ta_severity ta_affectedAreas ta_location].
  assert (ta_sev : (if num_ltb (num_lit 0.9) (probability p) then critical
                    else if num_ltb (num_lit 0.8) (probability p) then high else medium) <> low).
  { destruct (num_ltb (num_lit 0.9) (probability p)); [discriminate|].
    destruct (num_ltb (num_lit 0.8) (probability p)); discriminate. }
  simpl in E. destruct E as [<-|[<-|[<-|[<-|[]]]]]; repeat split; trivial;
    try (vm_compute; tauto);
    try (intros H; vm_compute in H; repeat destruct H as [H|H]; try discriminate H; exact H).
Qed.

(** *** The mock readings *)

Lemma list_sum_const (A : Type) (k : nat) (l : list A) :
  list_sum (map (fun _ => k) l) = (List.length l * k)%nat.
Proof. induction l as [|a l IH]; simpl; [reflexivity | rewrite IH; lia]. Qed.

Lemma mockReadings_kinds (place : Location num) (w : World) :
  map (fun d => (sd_type d, sd_location d)) (fst (mockReadings place w))
    = [(tide_gauge, place); (weather_station, place); (water_quality, place)] /\
  Forall (@status_fits num) (fst (mockReadings place w)) /\
  clock_reads (snd (mockReadings place w)) = (clock_reads w + 3)%nat /\
  random_draws (snd (mockReadings place w)) = (random_draws w + 6)%nat.
Proof.
  unfold mockReadings, bind, ret, Math_random, Date_now. cbn [fst snd map].
  split; [reflexivity|]. split; [|split; cbn [clock_reads random_draws]; lia].
  repeat constructor; unfold status_fits; cbn [sd_type sd_status];
    match goal with |- (if ?b then _ else _) <> _ => destruct b; discriminate end.
Qed.

(** X6. Whatever the random draws, [generateMockSensorData] gives fifteen
    readings: for each of the five locations in turn a tide, a wind and a
    water-quality reading at that location, tide and water-quality readings
    never critical and wind readings never warning; it reads the clock
    fifteen times and draws thirty random numbers. *)
Theorem generateMockSensorData_pattern (w : World) :
  let data := fst (generateMockSensorData (num:=num) w) in
  let w' := snd (generateMockSensorData (num:=num) w) in
  map (fun d => (sd_type d, sd_location d)) data
    = flat_map (fun place => [(tide_gauge, place); (weather_station, place);
                              (water_quality, place)]) (@locations num _) /\
  List.length data = 15%nat /\
  Forall (fun d => In (sd_location d) (@locations num _) /\ status_fits d) data /\
  clock_reads w' = (clock_reads w + 15)%nat /\
  random_draws w' = (random_draws w + 30)%nat.
Proof.
  cbv zeta. unfold generateMockSensorData.
  pose proof (eq_refl : List.length (@locations num _) = 5%nat) as Hlen.
  revert Hlen. generalize (@locations num _). intros places Hlen.
  assert (map (fun d => (sd_type d, sd_location d))
              (fst (forEach (@mockReadings num _ _) places w))
          = flat_map (fun place => [(tide_gauge, place); (weather_station, place);
                                    (water_quality, place)]) places) as Hk.
  { apply forEach_view. intros place w0. apply (proj1 (mockReadings_kinds place w0)). }
    split; [exact Hk|]. split; [|split].
  - pose proof (f_equal (@List.length _) Hk) as Hl. rewrite length_map in Hl. rewrite Hl.
    rewrite flat_map_concat_map, length_concat, map_map. cbn [List.length]. 
    rewrite list_sum_const, Hlen. reflexivity.
  - apply Forall_forall. intros d Hd. split.
    + assert (In (sd_type d, sd_location d)
                 (map (fun d => (sd_type d, sd_location d))
                      (fst (forEach (@mockReadings num _ _) places w)))) as Hin
        by (apply in_map_iff; now exists d).
      rewrite Hk in Hin. apply in_flat_map in Hin. destruct Hin as (place & Hp & Hin).
      destruct Hin as [H|[H|[H|[]]]]; injection H as _ <-; exact Hp.
    + revert d Hd. apply Forall_forall. apply forEach_Forall.
      intros place w0 _. apply (proj1 (proj2 (mockReadings_kinds place w0))).
  - destruct (@forEach_world _ _ (@mockReadings num _ _) (fun _ => 3%nat) (fun _ => 6%nat)
                places (fun place w0 => proj2 (proj2 (mockReadings_kinds place w0))) w)
      as [-> ->].
    rewrite !list_sum_const, Hlen. split; lia.
Qed.

(** *** The push channel, continued *)

(** X7. Whatever timers are set, the push channel only ever hands on the tide
    reading of Chennai Coast (the first mock reading) and the alert
    alert_001. *)
Theorem tick_delivers_chennai_only (timers : list Timer) (t : Z) (w : World) :
  Forall (@pushed num) (fst (tick (num:=num) timers t w)).
Proof.
  unfold tick. apply forEach_Forall. intros timer w0 _.
  destruct (handler timer); unfold run_handler, bind.
  - unfold generateMockSensorData, locations. rewrite forEach_cons.
    unfold mockReadings at 1. unfold bind, ret, Math_random, Date_now. cbn [fst snd app].
    constructor; [|constructor]. unfold pushed.
    cbn [sd_id sd_type sd_location sd_unit name]. repeat split; reflexivity.
  - unfold Math_random. cbn [fst snd].
    destruct (num_ltb _ _); [|constructor].
    unfold generateMockAlerts, bind, ret, Date_now. cbn [fst].
    constructor; [|constructor]. unfold pushed.
    cbn [ta_id ta_type ta_severity ta_location name]. repeat split; reflexivity.
Qed.

(** *** getHistoricalData, continued *)

(** X9. When the end date is not after the start date, [getHistoricalData]
    gives no reading and draws no random number. *)
Theorem getHistoricalData_empty_range (startDate endDate : Date) (w : World) :
  (endDate <= startDate)%Z ->
  getHistoricalData (num:=num) startDate endDate w = ([], w).
Proof.
  intros H. unfold getHistoricalData. rewrite (Whole.daysDiff_backwards H). reflexivity.
Qed.

(** X10. Cutting a range of valid dates, less than 2^53 milliseconds long,
    a whole number of days after its start cuts the readings: the dates for
    the whole range are those for the first part followed by those for the
    rest. *)
Theorem getHistoricalData_splits_at_whole_days
  (startDate endDate : Date) (k : nat) (w w1 w2 : World) :
  let midDate := (startDate + Z.of_nat k * (1000 * 60 * 60 * 24))%Z in
  (Z.abs startDate <= 8640000000000000)%Z -> (Z.abs endDate <= 8640000000000000)%Z ->
  (endDate - startDate < 2 ^ 53)%Z ->
  (midDate <= endDate)%Z ->
  timestamps (fst (getHistoricalData startDate endDate w))
  = (timestamps (fst (getHistoricalData startDate midDate w1))
     ++ timestamps (fst (getHistoricalData midDate endDate w2)))%list.
Proof.
  intros midDate Hs He Hb H. rewrite !getHistoricalData_timestamps.
  assert (Z.abs midDate <= 8640000000000000)%Z as Hm by (unfold midDate in *; lia).
  rewrite (@Quotient.rounds_exact startDate endDate Hs He) by (unfold midDate in *; lia).
  rewrite (@Quotient.rounds_exact startDate midDate Hs Hm) by (unfold midDate in *; lia).
  rewrite (@Quotient.rounds_exact midDate endDate Hm He) by (unfold midDate in *; lia).
  set (rest := (- (- (endDate - midDate) / 86400000))%Z).
  assert (0 <= rest)%Z as Hnn.
  { unfold rest. assert (- (endDate - midDate) / 86400000 <= 0)%Z; [|lia].
    apply Z.div_le_upper_bound; lia. }
  assert (- (- (midDate - startDate) / 86400000) = Z.of_nat k)%Z as ->.
  { unfold midDate.
    replace (- (startDate + Z.of_nat k * (1000 * 60 * 60 * 24) - startDate))%Z
      with (- Z.of_nat k * 86400000)%Z by lia.
    rewrite Z.div_mul by lia. lia. }
  assert (- (- (endDate - startDate) / 86400000) = Z.of_nat k + rest)%Z as ->.
  { unfold rest.
    replace (- (endDate - startDate))%Z
      with (- (endDate - midDate) + (- Z.of_nat k) * 86400000)%Z by (unfold midDate; lia).
    rewrite Z.div_add by lia. lia. }
  rewrite Nat2Z.id, Z2Nat.inj_add, Nat2Z.id by lia.
  rewrite seq_app, map_app. f_equal.
  generalize (Z.to_nat rest) as n. intros n.
  change (0 + k)%nat with k. replace k with (0 + k)%nat at 1 by reflexivity.
  generalize 0%nat as a. induction n as [|n IH]; intros a; cbn [seq map]; [reflexivity|].
  f_equal; [unfold midDate; lia|]. apply (IH (S a)).
Qed.

(** *** The alert panel, continued *)

(** X12. The active alerts are the alerts the filter shows for critical or
    for high; their number is the sum of the two, and with the alerts shown
    for low and for medium they make up all alerts. *)
Theorem activeAlerts_are_critical_or_high (alerts : list (ThreatAlert num)) :
  (forall a, In a (activeAlerts alerts) <->
             In a (filteredAlerts "critical" alerts) \/ In a (filteredAlerts "high" alerts)) /\
  List.length (activeAlerts alerts)
    = (List.length (filteredAlerts "critical" alerts)
       + List.length (filteredAlerts "high" alerts))%nat /\
  (List.length (filteredAlerts "low" alerts) + List.length (filteredAlerts "medium" alerts)
   + List.length (activeAlerts alerts) = List.length alerts)%nat.
Proof.
  unfold activeAlerts, filteredAlerts. cbn [String.eqb Ascii.eqb Bool.eqb andb].
  split; [|split].
  - intros a. rewrite !filter_In. rewrite orb_true_iff. tauto.
  - induction alerts as [|a l IH]; [reflexivity|]. cbn [filter].
    destruct (ta_severity a); cbn; lia.
  - induction alerts as [|a l IH]; [reflexivity|]. cbn [filter].
    destruct (ta_severity a); cbn; lia.
Qed.

(** X13. Clicking a channel flips it and no other: it is selected afterwards
    exactly when it was not before.  A selection without repetition stays
    so, two clicks restore the selected channels, and restore the list
    itself when the channel was not selected. *)
Theorem toggleChannel_flips (channel : string) (prev : list string) :
  (forall c, In c (toggleChannel channel prev) <->
             (c <> channel /\ In c prev) \/ (c = channel /\ ~ In channel prev)) /\
  (NoDup prev -> NoDup (toggleChannel channel prev)) /\
  (forall c, In c (toggleChannel channel (toggleChannel channel prev)) <-> In c prev) /\
  (~ In channel prev -> toggleChannel channel (toggleChannel channel prev) = prev).
Proof.
  assert (forall l c, In c (toggleChannel channel l) <->
             (c <> channel /\ In c l) \/ (c = channel /\ ~ In channel l)) as Hin.
  { intros l c. unfold toggleChannel.
    destruct (existsb (String.eqb channel) l) eqn:E.
    - apply existsb_eqb_In in E. rewrite filter_In, negb_true_iff, String.eqb_neq. tauto.
    - assert (~ In channel l) as Hn by (intros H; apply existsb_eqb_In in H; congruence).
      rewrite in_app_iff. simpl. split.
      + intros [H|[<-|[]]]; [left; split; [intros ->; contradiction | exact H] | tauto].
      + intros [[_ H]|[-> _]]; auto. }
  split; [exact (Hin prev)|]. split; [|split].
  - intros Hnd. unfold toggleChannel.
    destruct (existsb (String.eqb channel) prev) eqn:E.
    + now apply NoDup_filter.
    + assert (~ In channel prev) as Hn by (intros H; apply existsb_eqb_In in H; congruence).
      apply NoDup_app; [exact Hnd | repeat constructor; tauto |].
      intros x Hx [<-|[]]. contradiction.
  - intros c. rewrite !Hin.
    destruct (in_dec string_dec channel prev);
      destruct (String.eqb_spec c channel) as [->|Hne]; tauto.
  - intros Hn. unfold toggleChannel at 2.
    assert (existsb (String.eqb channel) prev = false) as ->.
    { destruct (existsb (String.eqb channel) prev) eqn:E; trivial.
      apply existsb_eqb_In in E. contradiction. }
    unfold toggleChannel.
    assert (existsb (String.eqb channel) (prev ++ [channel]) = true) as ->.
    { apply existsb_eqb_In, in_or_app. right. now left. }
    rewrite filter_app. cbn [filter]. rewrite String.eqb_refl. cbn [negb]. rewrite app_nil_r.
    apply forallb_filter_id. apply forallb_forall. intros x Hx.
    apply negb_true_iff, String.eqb_neq. intros ->. contradiction.
Qed.

(** X14. [handleSendNotification] sends exactly when an alert is selected,
    the message is not empty and a channel is selected; it then clears the
    message and the channels and keeps the alert, and otherwise changes
    nothing.  Called again right after, it sends nothing. *)
Theorem handleSendNotification_sends_once (st : Dialog num) :
  let (calls, st') := handleSendNotification st in
  (calls <> [] <->
   (exists alert, selectedAlert st = Some alert) /\ notificationMessage st <> ""
   /\ selectedChannels st <> []) /\
  (calls <> [] ->
   selectedAlert st' = selectedAlert st /\ notificationMessage st' = ""
   /\ selectedChannels st' = []) /\
  (calls = [] -> st' = st) /\
  fst (handleSendNotification st') = [].
Proof.
  unfold handleSendNotification.
  destruct st as [[alert|] message channels]; cbn [selectedAlert notificationMessage selectedChannels].
  - destruct (String.eqb_spec message "") as [->|Em]; cbn [negb andb].
    + cbn. intuition congruence.
    + destruct channels as [|c l]; cbn.
      * destruct (String.eqb_spec message ""); [contradiction|]. cbn.
        intuition congruence.
      * intuition (try congruence; try discriminate). eexists; reflexivity.
  - cbn. intuition (try congruence).
    match goal with H : exists _, None = Some _ |- _ => destruct H as [a H]; discriminate end.
Qed.

(** *** The charts *)

Lemma Status_eqb_eq (a b : Status) : Status_eqb a b = true <-> a = b.
Proof. destruct a, b; simpl; split; congruence. Qed.

Lemma count_status_keys (acc : list (Status * nat)) (status : Status) :
  NoDup (map fst acc) -> NoDup (map fst (count_status acc status)) /\
  (forall st, In st (map fst (count_status acc status)) <-> st = status \/ In st (map fst acc)).
Proof.
  induction acc as [|[st n] acc IH]; intros Hnd; simpl.
  - split; [constructor; [simpl; tauto | constructor] | intros st; split; [intros [H|[]]; auto | intros [H|[]]; auto]].
  - inversion Hnd as [|? ? Hst Hnd']; subst. destruct (IH Hnd') as [IH1 IH2].
    destruct (Status_eqb st status) eqn:E.
    + apply Status_eqb_eq in E. subst. simpl. split; [exact Hnd |].
      intros st; intuition (subst; auto).
    + simpl. split.
      * constructor; [|exact IH1]. rewrite IH2. intros [->|H]; [|contradiction].
        assert (Status_eqb status status = true) by now apply Status_eqb_eq. congruence.
      * intros st'. rewrite IH2. intuition (subst; auto).
Qed.

Lemma count_status_count (acc : list (Status * nat)) (status st : Status) :
  count_of (count_status acc status) st =
  (count_of acc st + if Status_eqb status st then 1 else 0)%nat.
Proof.
  induction acc as [|[st0 n] acc IH]; simpl.
  - destruct (Status_eqb status st); reflexivity.
  - destruct (Status_eqb st0 status) eqn:E; simpl.
    + apply Status_eqb_eq in E. subst. destruct (Status_eqb status st); lia.
    + destruct (Status_eqb st0 st) eqn:E'; [|exact IH].
      apply Status_eqb_eq in E'. subst. destruct st, status; simpl in *; try discriminate; lia.
Qed.

Lemma count_status_positive (acc : list (Status * nat)) (status : Status) :
  Forall (fun e => (0 < snd e)%nat) acc ->
  Forall (fun e => (0 < snd e)%nat) (count_status acc status).
Proof.
  induction acc as [|[st n] acc IH]; intros H; simpl.
  - repeat constructor.
  - inversion H; subst. destruct (Status_eqb st status); constructor; simpl in *; auto; lia.
Qed.

Lemma threatDistribution_acc (sensorData : list (SensorData num)) : forall acc,
  NoDup (map fst acc) -> Forall (fun e => (0 < snd e)%nat) acc ->
  let d := fold_left (fun acc sensor => count_status acc (sd_status sensor)) sensorData acc in
  NoDup (map fst d) /\ Forall (fun e => (0 < snd e)%nat) d /\
  forall st, count_of d st = (count_of acc st + with_status st sensorData)%nat.
Proof.
  induction sensorData as [|s l IH]; intros acc Hnd Hpos; cbv zeta; simpl.
  - split; [exact Hnd|]. split; [exact Hpos|]. intros st. unfold with_status. simpl. lia.
  - destruct (IH (count_status acc (sd_status s))) as (H1 & H2 & H3).
    + now apply count_status_keys.
    + now apply count_status_positive.
    + split; [exact H1|]. split; [exact H2|]. intros st. rewrite H3, count_status_count.
      unfold with_status. simpl. destruct (Status_eqb (sd_status s) st); simpl; lia.
Qed.

Lemma sum_counts (d : list (Status * nat)) :
  NoDup (map fst d) ->
  list_sum (map snd d)
  = (count_of d normal + count_of d warning + count_of d critical_status)%nat.
Proof.
  induction d as [|[st n] d IH]; intros Hnd; simpl; [reflexivity|].
  inversion Hnd as [|? ? Hst Hnd']; subst. rewrite (IH Hnd').
  assert (forall st', ~ In st' (map fst d) -> count_of d st' = 0%nat) as Hz.
  { clear. induction d as [|[s0 n0] d IH]; simpl; intros st' H; [reflexivity|].
    destruct (Status_eqb s0 st') eqn:E; [apply Status_eqb_eq in E; tauto|]. apply IH. tauto. }
  destruct st; simpl; rewrite (Hz _ Hst); lia.
Qed.

(** X16. The status distribution lists each status that occurs once, with
    the number of readings of that status, never zero; the counts add up to
    the number of readings. *)
Theorem threatDistribution_counts (sensorData : list (SensorData num)) :
  let d := threatDistribution sensorData in
  NoDup (map fst d) /\
  Forall (fun e => (0 < snd e)%nat) d /\
  (forall st, count_of d st = with_status st sensorData) /\
  list_sum (map snd d) = List.length sensorData.
Proof.
  cbv zeta. unfold threatDistribution.
  destruct (@threatDistribution_acc sensorData []) as (H1 & H2 & H3);
    [constructor | constructor |].
  cbv zeta in *. repeat split; trivial.
  rewrite sum_counts by exact H1. rewrite !H3. simpl. unfold with_status.
  clear. induction sensorData as [|s l IH]; simpl; [reflexivity|].
  destruct (sd_status s); simpl; lia.
Qed.

(** X17. A chart shows the values of the last twenty readings of its kind, in
    their order, and all of them when there are at most twenty. *)
Theorem processChartData_last_20 (data : list (SensorData num)) (type : SensorType) :
  let points := processChartData toLocaleTimeString data type in
  let all := of_type type data in
  (List.length points = Nat.min 20 (List.length all)) /\
  map (@cp_value num) points = map (@sd_value num) (skipn (List.length all - 20) all) /\
  ((List.length all <= 20)%nat -> map (@cp_value num) points = map (@sd_value num) all).
Proof.
  cbv zeta. unfold processChartData, slice_last, of_type.
  set (all := filter _ data). rewrite length_map, length_skipn, length_map.
  rewrite skipn_map, map_map. cbn [cp_value]. repeat split; try lia.
  intros H. replace (List.length all - 20)%nat with 0%nat by lia. reflexivity.
Qed.

(** *** Sessions *)

(** X19. [login] succeeds exactly when the roster has a user with the email,
    whatever the password; that user is then the session's user, is stored
    under coastal_user, and has exactly the permissions of the roster entry.
    A failed login leaves the session as it was.  After [logout] no
    permission is granted and nothing is stored. *)
Theorem login_logout_session (email password : string) (st : Session) :
  let (ok, st') := login JSON_stringify email password st in
  (ok = true <-> exists u, In u mockUsers /\ user_email u = email) /\
  (ok = true -> exists u,
     In u mockUsers /\ user_email u = email /\ user st' = Some u /\
     coastal_user st' = Some (JSON_stringify u) /\
     forall permission, hasPermission st' permission = true <-> In permission (user_permissions u)) /\
  (ok = false -> st' = st) /\
  (forall permission, hasPermission (logout st') permission = false) /\
  coastal_user (logout st') = None.
Proof.
  unfold login. destruct (authenticateUser email password) as [u|] eqn:E.
  - unfold authenticateUser in E. apply find_some in E. destruct E as [Hu He].
    apply String.eqb_eq in He.
    split; [split; [intros _; now exists u | reflexivity]|].
    split.
    { intros _. exists u. split; [exact Hu|]. split; [exact He|]. split; [reflexivity|].
      split; [reflexivity|]. intros p. unfold hasPermission. cbn [user].
      apply existsb_eqb_In. }
    split; [discriminate|]. split; reflexivity.
  - unfold authenticateUser in E.
    split.
    { split; [discriminate|].
      intros (u & Hu & He). apply (find_none _ _ E) in Hu. apply String.eqb_neq in Hu.
      contradiction. }
    split; [discriminate|]. split; [reflexivity|]. split; reflexivity.
Qed.

(** X15. The number of affected areas counts each area name once, however
    many alerts list it; it is at most the number of areas listed and is zero
    only when no alert lists an area. *)
Theorem totalAffectedAreas_counts_names_once (alerts : list (ThreatAlert num)) :
  let areas := flat_map (@ta_affectedAreas num) alerts in
  totalAffectedAreas alerts = List.length (nodup string_dec areas) /\
  (totalAffectedAreas alerts <= List.length areas)%nat /\
  (totalAffectedAreas alerts = 0%nat <-> areas = []).
Proof.
  cbv zeta. unfold totalAffectedAreas.
  set (areas := flat_map (@ta_affectedAreas num) alerts).
  assert (Permutation (distinct [] areas) (nodup string_dec areas)) as HP.
  { apply NoDup_Permutation; [apply distinct_NoDup | apply NoDup_nodup |].
    intros x. rewrite distinct_In, nodup_In. simpl. tauto. }
  split; [now apply Permutation_length|]. split.
  - apply NoDup_incl_length; [apply distinct_NoDup|].
    intros x Hx. apply distinct_In in Hx. tauto.
  - split.
    + intros H. destruct areas as [|a l]; [reflexivity|].
      assert (In a (distinct [] (a :: l))) as Hin by (apply distinct_In; simpl; tauto).
      destruct (distinct [] (a :: l)); [destruct Hin | discriminate].
    + intros ->. reflexivity.
Qed.

Lemma trainingSample_row (w : World) :
  map (fun _ => tt) (fst (trainingSample (num:=num) w)) = [tt] /\
  Forall (fun row => List.length (fst row) = 4%nat /\ one_hot_or_none (snd row))
         (fst (trainingSample (num:=num) w)) /\
  clock_reads (snd (trainingSample (num:=num) w)) = (clock_reads w + 0)%nat /\
  random_draws (snd (trainingSample (num:=num) w)) = (random_draws w + 4)%nat.
Proof.
  unfold trainingSample, bind, ret, Math_random. cbn [fst snd map clock_reads random_draws].
  split; [reflexivity|]. split; [|split; lia].
  constructor; [|constructor]. cbn [fst snd]. split; [reflexivity|].
  unfold one_hot_or_none.
  repeat match goal with |- context [if ?b then _ else _] => destruct b end;
    simpl; tauto.
Qed.

(** X18. The training data has a thousand rows, each with four inputs and an
    output row that names one threat or none; making it takes four thousand
    random draws. *)
Theorem generateTrainingData_rows (w : World) :
  let rows := fst (generateTrainingData (num:=num) w) in
  List.length rows = 1000%nat /\
  Forall (fun row => List.length (fst row) = 4%nat /\ one_hot_or_none (snd row)) rows /\
  random_draws (snd (generateTrainingData (num:=num) w)) = (random_draws w + 4000)%nat.
Proof.
  cbv zeta. unfold generateTrainingData. split; [|split].
  - rewrite <- (length_map (fun _ => tt) (fst _)).
    rewrite forEach_view with (g := fun _ : nat => [tt]).
    + rewrite flat_map_concat_map, length_concat, map_map. cbn [List.length].
      rewrite list_sum_const, length_seq. reflexivity.
    + intros a w0. apply trainingSample_row.
  - apply forEach_Forall. intros a w0 _. apply trainingSample_row.
  - destruct (@forEach_world _ _ (fun _ : nat => trainingSample (num:=num))
                (fun _ => 0%nat) (fun _ => 4%nat) (seq 0 1000)
                (fun _ w0 => proj2 (proj2 (trainingSample_row w0))) w) as [_ ->].
    rewrite list_sum_const, length_seq. reflexivity.
Qed.

End Further.

Section FurtherDoubles.
Context {Lib : Builtins float} {Env : Ambient float}.
Import FloatOrder.
Open Scope string_scope.

(** [Math.min(x, c)] is never above a cap [c] that is a number. *)
Lemma min_capped (x c c' : float) :
  PrimFloat.leb c c' = true -> PrimFloat.ltb c' (F.min x c) = false.
Proof.
  intros Hc. destruct (PrimFloat.is_nan x) eqn:Ex.
  - assert (PrimFloat.is_nan (F.min x c) = true) as Hn by (apply min_nan; now left).
    apply (nan_not_lt _ c') in Hn. tauto.
  - assert (PrimFloat.is_nan c = false) as Ec by (apply leb_key in Hc; tauto).
    destruct (@min_cases x c Ex Ec) as (_ & _ & H).
    apply leb_not_gt. eapply leb_trans; eassumption.
Qed.

Lemma locationAnomalies_capped (entry : string * list (SensorData float))
  (found : list (MLPrediction float)) :
  locationAnomalies entry = Returned found ->
  Forall (fun p => num_ltb (num_lit 0.95) (probability p) = false /\
                   num_ltb (num_lit 0.9) (confidence p) = false)
         found.
Proof.
  intros E. apply locationAnomalies_returned in E.
  destruct E as (wind & quality & Ew & Eq & ->).
  apply Forall_app. split; [|apply Forall_app; split].
  - apply Forall_forall. intros p Hp. apply tideAnomalies_In in Hp.
    destruct Hp as (s & _ & Hp). unfold tideAnomaly in Hp.
    destruct (num_ltb _ _); [|destruct Hp]. destruct Hp as [<-|[]].
    split; apply min_capped; vm_compute; reflexivity.
  - apply windAnomalies_one in Ew. destruct Ew as [->|(m & ->)]; constructor; [|constructor].
    split; apply min_capped; vm_compute; reflexivity.
  - apply qualityAnomalies_one in Eq. destruct Eq as [->|(m & ->)]; constructor; [|constructor].
    split; apply min_capped; vm_compute; reflexivity.
Qed.

(** X4. On doubles no prediction has a probability above 0.95 or a
    confidence above 0.9: every one is a [Math.min] with such a cap. *)
Theorem detectAnomalies_capped (sensorData : list (SensorData float)) :
  match detectAnomalies sensorData with
  | Returned anomalies =>
      Forall (fun p => num_ltb (num_lit 0.95) (probability p) = false /\
                       num_ltb (num_lit 0.9) (confidence p) = false) anomalies
  | Thrown _ => True
  end.
Proof.
  destruct (detectAnomalies sensorData) as [anomalies|e] eqn:H; [|exact I].
  destruct (detectAnomalies_by_group _ H) as (parts & HF & ->).
  clear H. apply Forall_concat.
  induction HF as [|entry part l parts He _ IH]; [constructor|]. constructor; [|exact IH].
  now apply locationAnomalies_capped with (entry := entry).
Qed.

(** X11. On doubles, when no reading is a tide reading the average tide is
    0 / 0, which is NaN, and the chatbot answers with that number and reports
    all gauges normal: nothing is raised. *)
Theorem tideResponse_without_tide_reading (sensorData : list (SensorData float)) :
  (forall s, In s sensorData -> sd_type s <> tide_gauge) ->
  PrimFloat.is_nan (avgTide (of_type tide_gauge sensorData)) = true /\
  tideResponse sensorData =
    "Current average tide level is " ++ Number_toFixed 2 PrimFloat.nan
    ++ " meters. All tide gauges are operating within normal parameters.".
Proof.
  intros H.
  assert (of_type tide_gauge sensorData = []) as E.
  { unfold of_type. induction sensorData as [|s l IH]; simpl; [reflexivity|].
    destruct (sd_type s) eqn:Et; simpl; try (apply IH; intros x Hx; apply H; now right).
    exfalso. apply (H s); [now left | exact Et]. }
  unfold tideResponse. rewrite E. split; reflexivity.
Qed.

End FurtherDoubles.

(** ** Further properties at particular inputs *)

Lemma reduce_groups_by_location_witness :
  (forall s, In s [reading tide_gauge 2; reading weather_station 30] ->
             inherited (name (sd_location s)) = false) /\
  reduce_groups [reading tide_gauge 2; reading weather_station 30] []
  = Returned [("Chennai Coast"%string, [reading tide_gauge 2; reading weather_station 30])].
Proof.
  assert (forall s, In s [reading tide_gauge 2; reading weather_station 30] ->
                    inherited (name (sd_location s)) = false) as H.
  { intros s [<-|[<-|[]]]; reflexivity. }
  split; [exact H|].
  exact (proj1 (@reduce_groups_by_location float
                  [reading tide_gauge 2; reading weather_station 30] H)).
Defined.

Lemma getHistoricalData_empty_range_witness :
  (1000 <= 5000)%Z /\
  @getHistoricalData float _ sample_runtime sample_ambient 5000%Z 1000%Z start_of_run
  = ([], start_of_run).
Proof.
  split; [lia|].
  apply (@getHistoricalData_empty_range float _ sample_runtime sample_ambient
           5000%Z 1000%Z start_of_run).
  lia.
Defined.

Lemma getHistoricalData_splits_at_whole_days_witness :
  (Z.abs 0 <= 8640000000000000)%Z /\ (Z.abs 300000000 <= 8640000000000000)%Z /\
  (300000000 - 0 < 2 ^ 53)%Z /\
  (0 + Z.of_nat 2 * (1000 * 60 * 60 * 24) <= 300000000)%Z /\
  timestamps (fst (@getHistoricalData float _ sample_runtime sample_ambient
                     0%Z 300000000%Z start_of_run))
  = (timestamps (fst (@getHistoricalData float _ sample_runtime sample_ambient
                        0%Z (0 + Z.of_nat 2 * (1000 * 60 * 60 * 24))%Z start_of_run))
     ++ timestamps (fst (@getHistoricalData float _ sample_runtime sample_ambient
                           (0 + Z.of_nat 2 * (1000 * 60 * 60 * 24))%Z 300000000%Z
                           start_of_run)))%list.
Proof.
  assert (Z.abs 0 <= 8640000000000000)%Z as Hs by (vm_compute; discriminate).
  assert (Z.abs 300000000 <= 8640000000000000)%Z as He by (vm_compute; discriminate).
  assert (300000000 - 0 < 2 ^ 53)%Z as Hb by reflexivity.
  assert (0 + Z.of_nat 2 * (1000 * 60 * 60 * 24) <= 300000000)%Z as Hm
    by (vm_compute; discriminate).
  split; [exact Hs|]. split; [exact He|]. split; [exact Hb|]. split; [exact Hm|].
  exact (@getHistoricalData_splits_at_whole_days float _ sample_runtime sample_ambient
           0%Z 300000000%Z 2 start_of_run start_of_run start_of_run Hs He Hb Hm).
Defined.

Lemma tideResponse_without_tide_reading_witness :
  (forall s, In s [reading weather_station 30] -> sd_type s <> tide_gauge) /\
  PrimFloat.is_nan (avgTide (of_type tide_gauge [reading weather_station 30])) = true.
Proof.
  assert (forall s, In s [reading weather_station 30] -> sd_type s <> tide_gauge) as H.
  { intros s [<-|[]]. discriminate. }
  split; [exact H|].
  exact (proj1 (@tideResponse_without_tide_reading sample_runtime
                  [reading weather_station 30] H)).
Defined.
